(** * Virtual-Eye-Emulator: the eye tracker of [Virtual_Eye_Emulator_2.py]

    A shallow embedding of class [EyeTracker]: the eye-state classifier, the
    blink counters, the gaze estimator, the AM oscillator, the box heights of
    the renderer and the time-gated recorder, with the properties the
    specification states about them.

    Numbers.  Python floats are modelled by exact rationals ([Q]) wherever the
    code only adds, multiplies, divides and compares them, and by real numbers
    ([R]) in the one place that takes a square root (the Euclidean distances of
    the eye aspect ratio).  Rounding is not modelled.  [int(x)] is truncation
    towards zero, [//] is floor division on [Z].  Counters that start at [0]
    and are only incremented or reset are natural numbers.  Every reading of
    [time.time()] is an argument of the function that reads it. *)

From Stdlib Require Import ZArith QArith Qabs Qminmax Qround Bool List String Lia Lra Lqa.
From Stdlib Require Import Reals.
From Stdlib Require Import Permutation Qreals.
Import ListNotations.

Local Open Scope Q_scope.

(** ** Rationals as they are used by the code *)

(** [a < b] as the boolean the Python comparison returns. *)
Definition Qltb (a b : Q) : bool := negb (Qle_bool b a).

(** [a >= b]. *)
Definition Qgeb (a b : Q) : bool := Qle_bool b a.

(** [a > b]. *)
Definition Qgtb (a b : Q) : bool := Qltb b a.

(** [int(x)]: truncation towards zero. *)
Definition int_of (x : Q) : Z := Z.quot (Qnum x) (Zpos (Qden x)).

(** [max(a, b)] and [min(a, b)] on rationals, with Python's choice of the
    first argument on ties. *)
Definition qmax (a b : Q) : Q := if Qgtb b a then b else a.
Definition qmin (a b : Q) : Q := if Qltb b a then b else a.

(** ** The tracker's state *)

(** The three values [visualization_mode] takes. *)
Inductive vis_mode : Type := RECTANGULOS | REDONDEADOS | AM.

(** The labels [detect_eye_state] returns. *)
Inductive eye_label : Type :=
| AMBOS_CERRADOS
| GUINANDO_IZQUIERDO
| GUINANDO_DERECHO
| AMBOS_ABIERTOS
| NORMAL.

Record BlinkState : Type := mkBlink {
  left_blink_counter : nat;
  right_blink_counter : nat;
  left_blink_total : nat;
  right_blink_total : nat
}.

Record WinkState : Type := mkWink {
  left_wink_counter : nat;
  right_wink_counter : nat;
  both_eyes_closed : bool;
  left_winking : bool;
  right_winking : bool
}.

(** One entry of [animation_frames]: the dictionary [frame_data]. *)
Record frame_data : Type := mkFrameData {
  fd_timestamp : Q;
  fd_mode : vis_mode;
  fd_left_ear : Q;
  fd_right_ear : Q;
  fd_gaze : Q * Q;
  fd_left_brow : Q;
  fd_right_brow : Q;
  fd_direction : string;
  fd_am_phase : option Q
}.

(** What [stop_recording] writes to the JSON file. *)
Record animation_data : Type := mkAnimationData {
  ad_duration : Q;
  ad_total_frames : nat;
  ad_fps : Q;
  ad_frames : list frame_data
}.

(** What the recorder leaves outside the object: the two files and its
    notices on the console.  A write that fails is reported by the source
    and changes nothing else; the files are taken as written.  The file
    names are left out. *)
Inductive output : Type :=
| SavedJson (d : animation_data)
| SavedMp4 (n_frames : nat)
| NoFramesToSave
| NoActiveRecording
| AlreadyRecording
| TimeLimitReached
| Progress (n_frames : nat).

(** The recording fields.  A video frame is the copy of the rendered frame
    with the elapsed time burned in; the elapsed time stands for it. *)
Record Recorder : Type := mkRecorder {
  is_recording : bool;
  animation_frames : list frame_data;
  video_frames : list Q;
  recording_start_time : Q;
  last_frame_time : Q
}.

Record AMState : Type := mkAM {
  am_openness : Z;
  am_open_dir : Z;
  am_last_update : Q;
  am_phase : Q
}.

Record EyeTracker : Type := mkTracker {
  blink : BlinkState;
  wink : WinkState;
  eye_movement_history : list (Q * Q);
  visualization_mode : vis_mode;
  recorder : Recorder;
  am : AMState;
  outputs : list output
}.

Definition set_blink (b : BlinkState) (s : EyeTracker) : EyeTracker :=
  mkTracker b (wink s) (eye_movement_history s) (visualization_mode s)
            (recorder s) (am s) (outputs s).
Definition set_wink (w : WinkState) (s : EyeTracker) : EyeTracker :=
  mkTracker (blink s) w (eye_movement_history s) (visualization_mode s)
            (recorder s) (am s) (outputs s).
Definition set_history (h : list (Q * Q)) (s : EyeTracker) : EyeTracker :=
  mkTracker (blink s) (wink s) h (visualization_mode s)
            (recorder s) (am s) (outputs s).
Definition set_mode (m : vis_mode) (s : EyeTracker) : EyeTracker :=
  mkTracker (blink s) (wink s) (eye_movement_history s) m
            (recorder s) (am s) (outputs s).
Definition set_recorder (r : Recorder) (s : EyeTracker) : EyeTracker :=
  mkTracker (blink s) (wink s) (eye_movement_history s) (visualization_mode s)
            r (am s) (outputs s).
Definition set_am (a : AMState) (s : EyeTracker) : EyeTracker :=
  mkTracker (blink s) (wink s) (eye_movement_history s) (visualization_mode s)
            (recorder s) a (outputs s).
Definition emit (o : output) (s : EyeTracker) : EyeTracker :=
  mkTracker (blink s) (wink s) (eye_movement_history s) (visualization_mode s)
            (recorder s) (am s) (outputs s ++ [o]).

(** The constants of [__init__]. *)
Definition blink_threshold : Q := 20 # 100.
Definition wink_threshold : Q := 18 # 100.
Definition consecutive_frames : nat := 2.
Definition history_size : nat := 3.
Definition max_recording_time : Q := 60.
Definition frame_interval : Q := 1 / 30.
Definition AM_FRAME_INTERVAL : Q := 4 # 100.

(** [__init__], read at time [now].  [recording_start_time] is [None] until
    the first recording starts and is not read before; it is 0 here. *)
Definition init (now : Q) : EyeTracker :=
  mkTracker (mkBlink 0 0 0 0)
            (mkWink 0 0 false false false)
            []
            RECTANGULOS
            (mkRecorder false [] [] 0 0)
            (mkAM 0 1 now 0)
            [].

(** ** [detect_eye_state] *)

Definition detect_eye_state (left_ear right_ear : Q) (s : EyeTracker)
  : eye_label * EyeTracker :=
  let w := wink s in
  let left_closed := Qltb left_ear wink_threshold in
  let right_closed := Qltb right_ear wink_threshold in
  if left_closed && right_closed then
    (AMBOS_CERRADOS,
     set_wink (mkWink (left_wink_counter w) (right_wink_counter w)
                      true false false) s)
  else
    (* first chain: if / elif / else; [None] is falling through *)
    let after_left : option eye_label * WinkState :=
      if left_closed && negb right_closed then
        let c := S (left_wink_counter w) in
        if (consecutive_frames <=? c)%nat then
          (Some GUINANDO_IZQUIERDO, mkWink c (right_wink_counter w) false true false)
        else
          (None, mkWink c (right_wink_counter w)
                        (both_eyes_closed w) (left_winking w) (right_winking w))
      else
        (None, mkWink 0 (right_wink_counter w)
                      (both_eyes_closed w) (left_winking w) (right_winking w)) in
    match after_left with
    | (Some l, w1) => (l, set_wink w1 s)
    | (None, w1) =>
      let after_right : option eye_label * WinkState :=
        if right_closed && negb left_closed then
          let c := S (right_wink_counter w1) in
          if (consecutive_frames <=? c)%nat then
            (Some GUINANDO_DERECHO, mkWink (left_wink_counter w1) c false false true)
          else
            (None, mkWink (left_wink_counter w1) c
                          (both_eyes_closed w1) (left_winking w1) (right_winking w1))
        else
          (None, mkWink (left_wink_counter w1) 0
                        (both_eyes_closed w1) (left_winking w1) (right_winking w1)) in
      match after_right with
      | (Some l, w2) => (l, set_wink w2 s)
      | (None, w2) =>
        if negb left_closed && negb right_closed then
          (AMBOS_ABIERTOS,
           set_wink (mkWink (left_wink_counter w2) (right_wink_counter w2)
                            false false false) s)
        else
          (NORMAL, set_wink w2 s)
      end
    end.

(** The classifier run on a sequence of evaluations; the labels in order and
    the final state. *)
Fixpoint detect_run (ears : list (Q * Q)) (s : EyeTracker)
  : list eye_label * EyeTracker :=
  match ears with
  | [] => ([], s)
  | (l, r) :: rest =>
    let '(lab, s1) := detect_eye_state l r s in
    let '(labs, s2) := detect_run rest s1 in
    (lab :: labs, s2)
  end.

(** ** Landmarks and their geometry *)

(** A landmark of the face mesh: normalised coordinates. *)
Record landmark : Type := mkLandmark { lm_x : Q; lm_y : Q }.

(** [frame.shape]: rows, then columns.  A captured frame is a non-empty
    image, so both are positive. *)
Record frame_shape : Type := mkShape { rows : positive; cols : positive }.

(** What the code can raise or run into: an index out of range, a division
    of Python numbers by zero, and a division of numpy floats by zero, which
    raises nothing and gives [inf] or [nan] with a warning. *)
Inductive py_error : Type := IndexError | ZeroDivisionError | FloatDivisionByZero.

Inductive result (A : Type) : Type :=
| Ok (a : A)
| Err (e : py_error).
Arguments Ok {A} a.
Arguments Err {A} e.

(** [(int(landmark.x * frame_shape[1]), int(landmark.y * frame_shape[0]))] *)
Definition to_pixel (shape : frame_shape) (lm : landmark) : Z * Z :=
  (int_of (lm_x lm * inject_Z (Zpos (cols shape))),
   int_of (lm_y lm * inject_Z (Zpos (rows shape)))).

Definition sum_Z (l : list Z) : Z := fold_right Z.add 0%Z l.
Definition sum_Q (l : list Q) : Q := fold_right Qplus 0 l.

(** [dist.euclidean] on two pixel points. *)
Definition euclidean (p q : Z * Z) : R :=
  sqrt (IZR ((fst p - fst q) * (fst p - fst q) + (snd p - snd q) * (snd p - snd q))).

(** The division of two numpy floats: no number when the denominator is
    zero. *)
Definition rdiv (a b : R) : result R :=
  if Req_dec_T b 0%R then Err FloatDivisionByZero else Ok (a / b)%R.

(** [calculate_eye_aspect_ratio].  [points[i]] on a list that is too short is
    an [IndexError]; the division has no guard in the source, and the
    distances are numpy floats. *)
Definition calculate_eye_aspect_ratio (eye_landmarks : list landmark)
           (shape : frame_shape) : result R :=
  let points := map (to_pixel shape) eye_landmarks in
  match nth_error points 1, nth_error points 5,
        nth_error points 2, nth_error points 4,
        nth_error points 0, nth_error points 3 with
  | Some p1, Some p5, Some p2, Some p4, Some p0, Some p3 =>
    let A := euclidean p1 p5 in
    let B := euclidean p2 p4 in
    let C := euclidean p0 p3 in
    rdiv (A + B)%R (2 * C)%R
  | _, _, _, _, _, _ => Err IndexError
  end.

(** [get_eye_center] *)
Definition get_eye_center (eye_landmarks : list landmark) (shape : frame_shape)
  : result (Z * Z) :=
  let points := map (to_pixel shape) eye_landmarks in
  let x_coords := map fst points in
  let y_coords := map snd points in
  match points with
  | [] => Err ZeroDivisionError
  | _ => Ok ((sum_Z x_coords / Z.of_nat (List.length x_coords))%Z,
             (sum_Z y_coords / Z.of_nat (List.length y_coords))%Z)
  end.

Definition LEFT_IRIS : list nat := [468; 469; 470; 471; 472]%nat.
Definition RIGHT_IRIS : list nat := [473; 474; 475; 476; 477]%nat.

(** The loop of [get_iris_center]: the iris points whose index is in range. *)
Fixpoint iris_points_of (ids : list nat) (landmarks : list landmark)
         (shape : frame_shape) : list (Z * Z) :=
  match ids with
  | [] => []
  | landmark_id :: rest =>
    match nth_error landmarks landmark_id with
    | Some lm => to_pixel shape lm :: iris_points_of rest landmarks shape
    | None => iris_points_of rest landmarks shape
    end
  end.

(** [get_iris_center]; [None] is Python's [None]. *)
Definition get_iris_center (landmarks : list landmark) (is_left_eye : bool)
           (shape : frame_shape) : option (Z * Z) :=
  let iris_landmarks := if is_left_eye then LEFT_IRIS else RIGHT_IRIS in
  let iris_points := iris_points_of iris_landmarks landmarks shape in
  if (3 <=? List.length iris_points)%nat then
    let x_coords := map fst iris_points in
    let y_coords := map snd iris_points in
    Some ((sum_Z x_coords / Z.of_nat (List.length x_coords))%Z,
          (sum_Z y_coords / Z.of_nat (List.length y_coords))%Z)
  else None.

(** The mean of the pixel rows of a point list: [sum(p[1] ...) / len(...)]. *)
Definition mean_y (points : list (Z * Z)) : Q :=
  inject_Z (sum_Z (map snd points)) / inject_Z (Z.of_nat (List.length points)).

(** [get_eyebrow_height] *)
Definition get_eyebrow_height (eyebrow_landmarks eye_landmarks : list landmark)
           (shape : frame_shape) : result Q :=
  let eyebrow_points := map (to_pixel shape) eyebrow_landmarks in
  let eye_points := map (to_pixel shape) eye_landmarks in
  match eyebrow_points, eye_points with
  | [], _ => Err ZeroDivisionError
  | _, [] => Err ZeroDivisionError
  | _, _ =>
    let eyebrow_y := mean_y eyebrow_points in
    let eye_y := mean_y eye_points in
    let distance := Qabs (eyebrow_y - eye_y) in
    let normalized_distance := qmax 0 (qmin 1 ((distance - 20) / 40)) in
    Ok normalized_distance
  end.

(** ** [detect_eye_movement] *)

(** [sub in s] on strings. *)
Fixpoint contains (sub s : string) : bool :=
  if prefix sub s then true
  else match s with
       | EmptyString => false
       | String _ rest => contains sub rest
       end.

(** The centres the estimator works with: the iris centres when both are
    there, the eye centres it was given otherwise. *)
Definition choose_centers (left_center right_center : Z * Z)
           (shape : frame_shape) (landmarks : option (list landmark))
  : (Z * Z) * (Z * Z) :=
  match landmarks with
  | Some lms =>
    match get_iris_center lms true shape, get_iris_center lms false shape with
    | Some left_iris_center, Some right_iris_center =>
      (left_iris_center, right_iris_center)
    | _, _ => (left_center, right_center)
    end
  | None => (left_center, right_center)
  end.

(** The normalised midpoint [(gaze_x, gaze_y)] of two centres. *)
Definition gaze_of (left_center right_center : Z * Z) (shape : frame_shape)
  : Q * Q :=
  let left_x_norm := inject_Z (fst left_center) / inject_Z (Zpos (cols shape)) in
  let left_y_norm := inject_Z (snd left_center) / inject_Z (Zpos (rows shape)) in
  let right_x_norm := inject_Z (fst right_center) / inject_Z (Zpos (cols shape)) in
  let right_y_norm := inject_Z (snd right_center) / inject_Z (Zpos (rows shape)) in
  ((left_x_norm + right_x_norm) / 2, (left_y_norm + right_y_norm) / 2).

(** [append], then [pop(0)] when the list got longer than [history_size]. *)
Definition push_history (sample : Q * Q) (history : list (Q * Q))
  : list (Q * Q) :=
  let h := history ++ [sample] in
  if (history_size <? List.length h)%nat then tl h else h.

(** The smoothed position: the mean of each coordinate of the history. *)
Definition average (history : list (Q * Q)) : Q * Q :=
  (sum_Q (map fst history) / inject_Z (Z.of_nat (List.length history)),
   sum_Q (map snd history) / inject_Z (Z.of_nat (List.length history))).

(** The label built from the smoothed position. *)
Definition direction_of (avg : Q * Q) : string :=
  let direction :=
    if Qltb (fst avg) (42 # 100) then "IZQUIERDA"%string
    else if Qgtb (fst avg) (58 # 100) then "DERECHA"%string
    else "CENTRO"%string in
  if Qltb (snd avg) (42 # 100) then (direction ++ "_ARRIBA")%string
  else if Qgtb (snd avg) (58 # 100) then (direction ++ "_ABAJO")%string
  else direction.

Definition detect_eye_movement (left_center right_center : Z * Z)
           (shape : frame_shape) (landmarks : option (list landmark))
           (s : EyeTracker) : (string * (Q * Q)) * EyeTracker :=
  let '(lc, rc) := choose_centers left_center right_center shape landmarks in
  let history := push_history (gaze_of lc rc shape) (eye_movement_history s) in
  let avg := average history in
  ((direction_of avg, avg), set_history history s).

(** ** [update_am_state] *)

Definition update_am_state (now : Q) (client_detected : bool)
           (gaze_direction : string) (s : EyeTracker) : EyeTracker :=
  let a := am s in
  if Qltb (now - am_last_update a) AM_FRAME_INTERVAL then s
  else if negb client_detected then
    set_am (mkAM 0 (am_open_dir a) now (am_phase a)) s
  else
    let openness :=
      Z.max 0 (Z.min 100 (am_openness a + am_open_dir a * 2)) in
    let open_dir :=
      if (openness =? 0)%Z || (openness =? 100)%Z
      then (am_open_dir a * -1)%Z else am_open_dir a in
    let phase :=
      if contains "IZQUIERDA" gaze_direction then - (8 # 10)
      else if contains "DERECHA" gaze_direction then 8 # 10
      else 0 in
    set_am (mkAM openness open_dir now phase) s.

(** A run of ticks, each with its clock reading, its detection flag and its
    gaze label. *)
Fixpoint am_run (ticks : list (Q * bool * string)) (s : EyeTracker)
  : EyeTracker :=
  match ticks with
  | [] => s
  | (now, client_detected, gaze_direction) :: rest =>
    am_run rest (update_am_state now client_detected gaze_direction s)
  end.

(** ** The recorder *)

(** [round(x, ndigits)]: to the nearest multiple of [10^-ndigits], ties to
    the even one. *)
Definition py_round (x : Q) (ndigits : nat) : Q :=
  let scale := (10 ^ Z.of_nat ndigits)%Z in
  let y := x * inject_Z scale in
  let n := (Qnum y)%Z in
  let d := Zpos (Qden y) in
  let fl := (n / d)%Z in
  let twice_rem := (2 * (n - fl * d))%Z in
  let rounded :=
    if (twice_rem <? d)%Z then fl
    else if (d <? twice_rem)%Z then (fl + 1)%Z
    else if Z.even fl then fl else (fl + 1)%Z in
  inject_Z rounded / inject_Z scale.

(** [start_recording]; its two readings of the clock are [t_start] and
    [t_last]. *)
Definition start_recording (t_start t_last : Q) (s : EyeTracker) : EyeTracker :=
  if negb (is_recording (recorder s)) then
    set_recorder (mkRecorder true [] [] t_start t_last) s
  else emit AlreadyRecording s.

(** [stop_recording]; it reads the clock once. *)
Definition stop_recording (t_stop : Q) (s : EyeTracker) : EyeTracker :=
  let r := recorder s in
  if is_recording r then
    let total_time := t_stop - recording_start_time r in
    let n := List.length (animation_frames r) in
    let stopped :=
      mkRecorder false (animation_frames r) [] (recording_start_time r)
                 (last_frame_time r) in
    if (0 <? n)%nat && (0 <? List.length (video_frames r))%nat then
      let animation_data :=
        mkAnimationData
          total_time n
          (if Qgtb total_time 0
           then inject_Z (Z.of_nat n) / total_time else 30)
          (animation_frames r) in
      set_recorder stopped
        (emit (SavedMp4 (List.length (video_frames r)))
              (emit (SavedJson animation_data) s))
    else
      set_recorder stopped (emit NoFramesToSave s)
  else emit NoActiveRecording s.

(** [capture_frame_for_recording]; [current_time] is its own reading of the
    clock, [t_stop] the one [stop_recording] takes when the time limit is
    hit. *)
Definition capture_frame_for_recording (current_time t_stop : Q)
           (left_ear right_ear : Q) (gaze_direction : string)
           (gaze_pos : Q * Q) (left_brow_height right_brow_height : Q)
           (s : EyeTracker) : EyeTracker :=
  let r := recorder s in
  if negb (is_recording r) then s
  else if Qgtb (current_time - recording_start_time r) max_recording_time then
    stop_recording t_stop (emit TimeLimitReached s)
  else if Qgeb (current_time - last_frame_time r) frame_interval then
    let frame :=
      mkFrameData
        (current_time - recording_start_time r)
        (visualization_mode s)
        (py_round left_ear 3) (py_round right_ear 3)
        (py_round (fst gaze_pos) 3, py_round (snd gaze_pos) 3)
        (py_round left_brow_height 2) (py_round right_brow_height 2)
        gaze_direction
        (match visualization_mode s with
         | AM => Some (py_round (am_phase (am s)) 2)
         | _ => None
         end) in
    let elapsed := current_time - recording_start_time r in
    let frames := animation_frames r ++ [frame] in
    let s1 :=
      set_recorder (mkRecorder true frames (video_frames r ++ [elapsed])
                               (recording_start_time r) current_time) s in
    if (Nat.modulo (List.length frames) 30 =? 0)%nat
    then emit (Progress (List.length frames)) s1 else s1
  else s.

(** ** [draw_virtual_eyes] *)

(** The four corners [draw_diagonal_rectangle] and
    [draw_rounded_rectangle_with_cut] hand to [fillPoly]. *)
Definition cut_polygon (x1 y1 x2 y2 : Z) (brow_height : Q) (is_left_eye : bool)
  : list (Z * Z) :=
  let diagonal_cut := int_of (brow_height * 30) in
  if is_left_eye then
    [(x1, y2); (x2, y2); ((x2 - diagonal_cut)%Z, y1); (x1, (y1 + diagonal_cut)%Z)]
  else
    [(x1, y2); (x2, y2); (x2, (y1 + diagonal_cut)%Z); ((x1 + diagonal_cut)%Z, y1)].

(** One eye's box: the rectangle and the polygon cut from it. *)
Record box : Type := mkBox {
  rect_x1 : Z; rect_y1 : Z; rect_x2 : Z; rect_y2 : Z;
  polygon : list (Z * Z)
}.

Definition eye_box (center_x center_y rect_width height : Z)
           (brow_height : Q) (is_left_eye : bool) : box :=
  let x1 := (center_x - rect_width / 2)%Z in
  let y1 := (center_y - height / 2)%Z in
  let x2 := (center_x + rect_width / 2)%Z in
  let y2 := (center_y + height / 2)%Z in
  mkBox x1 y1 x2 y2 (cut_polygon x1 y1 x2 y2 brow_height is_left_eye).

(** [np.interp(x, [x0, x1], [y0, y1])] *)
Definition interp (x x0 x1 y0 y1 : Q) : Q :=
  if Qgeb x0 x then y0
  else if Qgeb x x1 then y1
  else y0 + (x - x0) * (y1 - y0) / (x1 - x0).

(** What one call draws on the cleared frame.  The pixels are not modelled. *)
Inductive drawn : Type :=
| NoiseLine
| AmWave (left_openness right_openness phase_offset : Q)
| RoundedBoxes (left right : box)
| DiagonalBoxes (left right : box).

(** The values one call computes: the label of its own classification, the
    heights before and after the state adjustment, the shapes, and the state
    line of the parameter panel when there is one. *)
Record rendering : Type := mkRendering {
  eye_state : eye_label;
  base_left_height : Z;
  base_right_height : Z;
  left_height : Z;
  right_height : Z;
  shapes : drawn;
  panel_state : option string
}.

Definition eye_label_eqb (a b : eye_label) : bool :=
  match a, b with
  | AMBOS_CERRADOS, AMBOS_CERRADOS
  | GUINANDO_IZQUIERDO, GUINANDO_IZQUIERDO
  | GUINANDO_DERECHO, GUINANDO_DERECHO
  | AMBOS_ABIERTOS, AMBOS_ABIERTOS
  | NORMAL, NORMAL => true
  | _, _ => false
  end.

Definition draw_virtual_eyes (left_ear right_ear : Q) (gaze_direction : string)
           (gaze_pos : Q * Q) (left_brow_height right_brow_height : Q)
           (for_video : bool) (s : EyeTracker) : rendering * EyeTracker :=
  let base_left_x : Q := if for_video then 200 else 150 in
  let base_right_x : Q := if for_video then 600 else 300 in
  let base_y : Q := 200 in
  let movement_multiplier_x : Q := if for_video then 180 else 120 in
  let movement_multiplier_y : Q := if for_video then 120 else 80 in
  let virtual_left_x := int_of (base_left_x + (fst gaze_pos - (1 # 2)) * movement_multiplier_x) in
  let virtual_left_y := int_of (base_y + (snd gaze_pos - (1 # 2)) * movement_multiplier_y) in
  let virtual_right_x := int_of (base_right_x + (fst gaze_pos - (1 # 2)) * movement_multiplier_x) in
  let virtual_right_y := int_of (base_y + (snd gaze_pos - (1 # 2)) * movement_multiplier_y) in
  let max_height := 100%Z in
  let min_height := 8%Z in
  let base_left :=
    Z.max min_height
          (Z.min max_height (int_of ((left_ear / (35 # 100)) * inject_Z max_height))) in
  let base_right :=
    Z.max min_height
          (Z.min max_height (int_of ((right_ear / (35 # 100)) * inject_Z max_height))) in
  let '(eye_state, s1) := detect_eye_state left_ear right_ear s in
  let w := wink s1 in
  let '(lh, rh) :=
    if both_eyes_closed w || eye_label_eqb eye_state AMBOS_CERRADOS then
      ((base_left / 2)%Z, (base_right / 2)%Z)
    else if left_winking w || eye_label_eqb eye_state GUINANDO_IZQUIERDO then
      ((base_left / 2)%Z, base_right)
    else if right_winking w || eye_label_eqb eye_state GUINANDO_DERECHO then
      (base_left, (base_right / 2)%Z)
    else (base_left, base_right) in
  let shapes :=
    match visualization_mode s1 with
    | AM =>
      if String.eqb gaze_direction "NO_DETECTADO" then NoiseLine
      else AmWave (interp left_ear (15 # 100) (35 # 100) 0 100)
                  (interp right_ear (15 # 100) (35 # 100) 0 100)
                  (am_phase (am s1))
    | REDONDEADOS =>
      let rect_width := 80%Z in
      RoundedBoxes
        (eye_box virtual_left_x virtual_left_y rect_width lh left_brow_height true)
        (eye_box virtual_right_x virtual_right_y rect_width rh right_brow_height false)
    | RECTANGULOS =>
      let rect_width := 80%Z in
      DiagonalBoxes
        (eye_box virtual_left_x virtual_left_y rect_width lh left_brow_height true)
        (eye_box virtual_right_x virtual_right_y rect_width rh right_brow_height false)
    end in
  let panel :=
    if negb for_video then
      Some (if both_eyes_closed w then "AMBOS CERRADOS"%string
            else if left_winking w then "GUINANDO IZQ"%string
            else if right_winking w then "GUINANDO DER"%string
            else "ABIERTOS"%string)
    else None in
  (mkRendering eye_state base_left base_right lh rh shapes panel, s1).

(** ** [process_frame] and the main loop *)

(** What the face mesh and the geometry functions give for a frame with a
    face: the two eye aspect ratios, the two eyebrow heights, the two eye
    centres, and the landmarks the iris lookup reads. *)
Record detection : Type := mkDetection {
  det_left_ear : Q;
  det_right_ear : Q;
  det_left_brow : Q;
  det_right_brow : Q;
  det_left_center : Z * Z;
  det_right_center : Z * Z;
  det_landmarks : list landmark
}.

(** The tuple [process_frame] returns, without the annotated frame. *)
Record frame_values : Type := mkValues {
  v_left_ear : Q;
  v_right_ear : Q;
  v_gaze_direction : string;
  v_gaze_pos : Q * Q;
  v_left_brow_height : Q;
  v_right_brow_height : Q
}.

(** The blink counting of [process_frame] for one eye: the counter and the
    total after a frame with this [ear]. *)
Definition count_blink (ear : Q) (counter total : nat) : nat * nat :=
  if Qltb ear blink_threshold then (S counter, total)
  else ((0, if (consecutive_frames <=? counter)%nat then S total else total))%nat.

(** [process_frame].  [results] is [None] when [multi_face_landmarks] is
    empty.  With a face, the values of the calls of
    [calculate_eye_aspect_ratio], [get_eyebrow_height] and [get_eye_center]
    on the frame's landmarks are the fields of the detection; the state
    changes in the order of the source: classification, blink counting, gaze.
    The drawing on the camera frame is left out. *)
Definition process_frame (shape : frame_shape) (results : option detection)
           (s : EyeTracker) : frame_values * EyeTracker :=
  match results with
  | Some d =>
    let left_ear := det_left_ear d in
    let right_ear := det_right_ear d in
    let '(_, s1) := detect_eye_state left_ear right_ear s in
    let b := blink s1 in
    let '(lc, lt) := count_blink left_ear (left_blink_counter b) (left_blink_total b) in
    let '(rc, rt) := count_blink right_ear (right_blink_counter b) (right_blink_total b) in
    let s2 := set_blink (mkBlink lc rc lt rt) s1 in
    let '((gaze_direction, gaze_pos), s3) :=
      detect_eye_movement (det_left_center d) (det_right_center d) shape
                          (Some (det_landmarks d)) s2 in
    (mkValues left_ear right_ear gaze_direction gaze_pos
              (det_left_brow d) (det_right_brow d), s3)
  | None =>
    (mkValues (3 # 10) (3 # 10) "NO_DETECTADO" (1 # 2, 1 # 2) (1 # 2) (1 # 2), s)
  end.

(** The keys the loop reacts to. *)
Inductive key : Type := KeyQ | KeyR | KeyC | KeyM | KeyG | KeyP | OtherKey.

(** What one pass of the loop reads from outside: the frame's shape and
    detection, the clock readings in the order they are taken, the key. *)
Record loop_input : Type := mkInput {
  in_shape : frame_shape;
  in_results : option detection;
  in_am_now : Q;
  in_capture_now : Q;
  in_stop_now : Q;
  in_key : key;
  in_key_now1 : Q;
  in_key_now2 : Q
}.

Definition handle_key (i : loop_input) (s : EyeTracker) : EyeTracker :=
  match in_key i with
  | KeyR =>
    let b := blink s in
    set_blink (mkBlink (left_blink_counter b) (right_blink_counter b) 0 0) s
  | KeyC => set_history [] s
  | KeyM =>
    set_mode (match visualization_mode s with
              | RECTANGULOS => REDONDEADOS
              | REDONDEADOS => AM
              | AM => RECTANGULOS
              end) s
  | KeyG => start_recording (in_key_now1 i) (in_key_now2 i) s
  | KeyP => stop_recording (in_key_now1 i) s
  | KeyQ | OtherKey => s
  end.

(** One pass of the [while True] loop of [run_virtual_eye_tracker], up to
    the key; what was rendered, and the state. *)
Definition loop_body (i : loop_input) (s : EyeTracker) : rendering * EyeTracker :=
  let '(v, s1) := process_frame (in_shape i) (in_results i) s in
  let client_detected := negb (String.eqb (v_gaze_direction v) "NO_DETECTADO") in
  let s2 := update_am_state (in_am_now i) client_detected (v_gaze_direction v) s1 in
  let '(r, s3) :=
    draw_virtual_eyes (v_left_ear v) (v_right_ear v) (v_gaze_direction v)
                      (v_gaze_pos v) (v_left_brow_height v)
                      (v_right_brow_height v) false s2 in
  let s4 :=
    capture_frame_for_recording (in_capture_now i) (in_stop_now i)
                                (v_left_ear v) (v_right_ear v)
                                (v_gaze_direction v) (v_gaze_pos v)
                                (v_left_brow_height v) (v_right_brow_height v) s3 in
  (r, handle_key i s4).

(** The frames of a run, in order: the renderings and the final state. *)
Fixpoint loop_run (inputs : list loop_input) (s : EyeTracker)
  : list rendering * EyeTracker :=
  match inputs with
  | [] => ([], s)
  | i :: rest =>
    let '(r, s1) := loop_body i s in
    let '(rs, s2) := loop_run rest s1 in
    (r :: rs, s2)
  end.

(** The blink counting alone, on the frames with a face: one eye's counter
    and total after the given aspect ratios. *)
Fixpoint blink_run (ears : list Q) (counter total : nat) : nat * nat :=
  match ears with
  | [] => (counter, total)
  | ear :: rest =>
    let '(c, t) := count_blink ear counter total in
    blink_run rest c t
  end.

(** ** [draw_am_wave] *)

(** [int(x)] on a real number. *)
Definition Rtrunc (x : R) : Z :=
  if Rle_dec 0 x then Int_part x else (- Int_part (- x))%Z.

(** The end point of the segment the loop draws for the index [i]. *)
Definition am_wave_point (center_x center_y : Z)
           (left_openness right_openness phase_offset : Q) (width i : Z)
  : Z * Z :=
  let base_amp := 4%R in
  let left_extra_amp := Q2R (interp left_openness 0 100 0 50) in
  let right_extra_amp := Q2R (interp right_openness 0 100 0 50) in
  let carrier_k := (1 / 2)%R in
  let half_width := (width / 2)%Z in
  let x := (center_x - width / 2 + i)%Z in
  let t := (IZR i / IZR (width - 1))%R in
  let extra_amp := if (i <? half_width)%Z then left_extra_amp else right_extra_amp in
  let env := (base_amp + extra_amp * (1 / 2 * (1 + cos (4 * PI * t + PI))))%R in
  let y := (center_y + Rtrunc (env * sin (carrier_k * IZR i + Q2R phase_offset)))%Z in
  (x, y).

(** [draw_am_wave]: the points of the polyline, in order.  With a width of 1
    the only index divides by [width - 1 = 0]; with a width of 0 or less the
    loop does not run. *)
Definition draw_am_wave (center_x center_y : Z)
           (left_openness right_openness phase_offset : Q) (width : Z)
  : result (list (Z * Z)) :=
  if (width =? 1)%Z then Err ZeroDivisionError
  else Ok (map (fun i => am_wave_point center_x center_y left_openness
                                       right_openness phase_offset width
                                       (Z.of_nat i))
               (seq 0 (Z.to_nat width))).

(** The call of [draw_am_wave] in [draw_virtual_eyes]: centre (230, 200),
    width 420. *)
Definition wave_points (d : drawn) : result (list (Z * Z)) :=
  match d with
  | AmWave lo ro ph => draw_am_wave 230 200 lo ro ph 420
  | _ => Ok []
  end.

(** ** Runs of the single components *)

(** [process_frame] on a sequence of frames; the final state. *)
Fixpoint process_run (shape : frame_shape) (frames : list (option detection))
         (s : EyeTracker) : EyeTracker :=
  match frames with
  | [] => s
  | f :: rest => process_run shape rest (snd (process_frame shape f s))
  end.

(** One call of [detect_eye_movement]: the centres and the landmarks. *)
Record gaze_call : Type := mkGazeCall {
  g_left_center : Z * Z;
  g_right_center : Z * Z;
  g_shape : frame_shape;
  g_landmarks : option (list landmark)
}.

(** The normalised midpoint a call pushes. *)
Definition gaze_sample (c : gaze_call) : Q * Q :=
  let '(lc, rc) :=
    choose_centers (g_left_center c) (g_right_center c) (g_shape c)
                   (g_landmarks c) in
  gaze_of lc rc (g_shape c).

(** A sequence of calls: the last result (if any call was made) and the
    state. *)
Fixpoint gaze_run (calls : list gaze_call) (last : option (string * (Q * Q)))
         (s : EyeTracker) : option (string * (Q * Q)) * EyeTracker :=
  match calls with
  | [] => (last, s)
  | c :: rest =>
    let '(res, s1) :=
      detect_eye_movement (g_left_center c) (g_right_center c) (g_shape c)
                          (g_landmarks c) s in
    gaze_run rest (Some res) s1
  end.

(** One call of [capture_frame_for_recording]. *)
Record capture_call : Type := mkCapture {
  c_now : Q;
  c_stop : Q;
  c_values : frame_values
}.

Definition capture (c : capture_call) (s : EyeTracker) : EyeTracker :=
  let v := c_values c in
  capture_frame_for_recording (c_now c) (c_stop c) (v_left_ear v) (v_right_ear v)
                              (v_gaze_direction v) (v_gaze_pos v)
                              (v_left_brow_height v) (v_right_brow_height v) s.

Definition capture_run (calls : list capture_call) (s : EyeTracker) : EyeTracker :=
  fold_left (fun st c => capture c st) calls s.

(** ** What the specification says, in its own words *)

(** One evaluation with the left eye closed and the right eye open, and the
    reversed pattern. *)
Definition left_only (e : Q * Q) : Prop :=
  fst e < wink_threshold /\ wink_threshold <= snd e.

Definition right_only (e : Q * Q) : Prop :=
  wink_threshold <= fst e /\ snd e < wink_threshold.

(** The frames of a sequence that are below the blink threshold. *)
Definition below_blink (ears : list Q) : list bool :=
  map (fun ear => Qltb ear blink_threshold) ears.

(** The maximal runs of a sequence of flags: each run's flag and length. *)
Fixpoint maximal_runs (l : list bool) : list (bool * nat) :=
  match l with
  | [] => []
  | b :: rest =>
    match maximal_runs rest with
    | (b', n) :: runs =>
      if Bool.eqb b b' then (b, S n) :: runs else (b, 1%nat) :: (b', n) :: runs
    | [] => [(b, 1%nat)]
    end
  end.

(** The runs of at least two closed frames that are followed by an open
    frame, counted. *)
Fixpoint spec_blinks_of_runs (runs : list (bool * nat)) : nat :=
  match runs with
  | [] => 0
  | (true, n) :: (((false, _) :: _) as rest) =>
    ((if (2 <=? n)%nat then 1 else 0) + spec_blinks_of_runs rest)%nat
  | _ :: rest => spec_blinks_of_runs rest
  end.

Definition spec_blinks (closed : list bool) : nat :=
  spec_blinks_of_runs (maximal_runs closed).

(** The aspect ratios one eye had on the frames with a face. *)
Definition detected_ears (side : detection -> Q) (frames : list (option detection))
  : list Q :=
  flat_map (fun f => match f with Some d => [side d] | None => [] end) frames.

(** The triangle wave of period 100 and step 2, and its slope. *)
Definition spec_triangle (n : Z) : Z :=
  let k := (n mod 100)%Z in
  if (k <=? 50)%Z then (2 * k)%Z else (200 - 2 * k)%Z.

Definition spec_slope (n : Z) : Z :=
  if (n mod 100 <? 50)%Z then 1%Z else (-1)%Z.

(** Ticks that are all accepted: each at least [AM_FRAME_INTERVAL] after the
    one before, the first that long after [last]. *)
Fixpoint spaced (last : Q) (nows : list Q) : Prop :=
  match nows with
  | [] => True
  | now :: rest => AM_FRAME_INTERVAL <= now - last /\ spaced now rest
  end.

(** [clamp(x, lo, hi)] *)
Definition clamp (x lo hi : Q) : Q := Qmax lo (Qmin hi x).

(** The eyebrow formula as the specification writes it, on the signed
    difference of the two means. *)
Definition spec_eyebrow_signed (eyebrow_y eye_y : Q) : Q :=
  clamp ((eyebrow_y - eye_y) - 20) 0 40 / 40.

(** The same formula on the pixel distance. *)
Definition spec_eyebrow (distance : Q) : Q :=
  clamp (distance - 20) 0 40 / 40.

(** The box height as the specification writes it, a rational number. *)
Definition spec_height (ear : Q) : Q :=
  clamp (ear / (35 # 100) * 100) 8 100.

(** The box height with the truncation to whole pixels. *)
Definition spec_height_px (ear : Q) : Z :=
  Z.max 8 (Z.min 100 (int_of (ear / (35 # 100) * 100))).

(** The Euclidean distance of two pixel points, as a formula on reals. *)
Definition dist (p q : Z * Z) : R :=
  sqrt ((IZR (fst p) - IZR (fst q)) ^ 2 + (IZR (snd p) - IZR (snd q)) ^ 2)%R.

(** The last [n] elements of a list. *)
Definition lastn {A : Type} (n : nat) (l : list A) : list A :=
  skipn (List.length l - n) l.

(** The mean of a list of rationals. *)
Definition mean (l : list Q) : Q :=
  sum_Q l / inject_Z (Z.of_nat (List.length l)).

(** The outputs that are a flush of [stop_recording]: with frames it writes
    the JSON file (and then the video), without frames it says so. *)
Definition is_flush (o : output) : bool :=
  match o with
  | SavedJson _ | NoFramesToSave => true
  | _ => false
  end.

Definition flushes (s : EyeTracker) : nat :=
  List.length (filter is_flush (outputs s)).

(** Successive timestamps at least [frame_interval] apart. *)
Fixpoint apart (ts : list Q) : Prop :=
  match ts with
  | [] => True
  | t1 :: rest =>
    match rest with
    | [] => True
    | t2 :: _ => frame_interval <= t2 - t1
    end /\ apart rest
  end.

Definition timestamps (s : EyeTracker) : list Q :=
  map fd_timestamp (animation_frames (recorder s)).

(** The state is at place [k] of the cycle. *)
Definition on_cycle (k : Z) (s : EyeTracker) : Prop :=
  am_openness (am s) = spec_triangle k /\ am_open_dir (am s) = spec_slope k.

(** The clock readings, the detection flags of a run of ticks. *)
Definition tick_times (ticks : list (Q * bool * string)) : list Q :=
  map (fun t => fst (fst t)) ticks.

Definition all_detected (ticks : list (Q * bool * string)) : Prop :=
  Forall (fun t => snd (fst t) = true) ticks.

(** ** Inputs for the examples *)

(** Frames for the examples: a face with the given aspect ratios. *)
Definition face (left_ear right_ear : Q) : loop_input :=
  mkInput (mkShape 480 640)
          (Some (mkDetection left_ear right_ear (1 # 4) (1 # 4)
                             (200, 240)%Z (440, 240)%Z []))
          1 1 1 OtherKey 1 1.

(** [n] ticks with a face, 1/16 s apart, the first 1/16 s after time 0. *)
Definition regular_ticks (n : nat) : list (Q * bool * string) :=
  map (fun i => (inject_Z (Z.of_nat i) * (1 # 16), true, "CENTRO"%string))
      (seq 1 n).

(** The raw pixel distance between brow and eye: the distance of the two
    mean rows. *)
Definition eyebrow_distance (eyebrow_landmarks eye_landmarks : list landmark)
           (shape : frame_shape) : Q :=
  Qabs (mean_y (map (to_pixel shape) eyebrow_landmarks)
        - mean_y (map (to_pixel shape) eye_landmarks)).

(** The normalisation of [get_eyebrow_height] on a distance. *)
Definition normalize_distance (distance : Q) : Q :=
  qmax 0 (qmin 1 ((distance - 20) / 40)).

(** A landmark on the given pixel row of a 480-row frame. *)
Definition at_row (y : Z) : landmark := mkLandmark (1 # 2) (inject_Z y / 480).
Definition vga : frame_shape := mkShape 480 640.

(** A contour all of whose landmarks fall on one pixel, and an open eye:
    corners 30 pixels apart, lids 10 pixels apart. *)
Definition collapsed_contour : list landmark := repeat (mkLandmark (1 # 2) (1 # 2)) 6.

Definition at_pixel (x y : Z) : landmark :=
  mkLandmark (inject_Z x / 640) (inject_Z y / 480).

Definition open_contour : list landmark :=
  [at_pixel 300 240; at_pixel 310 235; at_pixel 320 235;
   at_pixel 330 240; at_pixel 320 245; at_pixel 310 245].

(** The recorder's invariant: the timestamps in the log are at least
    [frame_interval] apart, and the last of them is the time of the last
    accepted capture, counted from the start. *)
Definition log_spaced (s : EyeTracker) : Prop :=
  apart (timestamps s) /\
  match rev (timestamps s) with
  | [] => True
  | t :: _ =>
    t = last_frame_time (recorder s) - recording_start_time (recorder s)
  end.

(** A call within the time limit of the session of [s]. *)
Definition within_limit (s : EyeTracker) (c : capture_call) : Prop :=
  c_now c - recording_start_time (recorder s) <= max_recording_time.

(** Capture calls for the examples: at time [now], with default values. *)
Definition capture_at (now : Q) : capture_call :=
  mkCapture now now
            (mkValues (3 # 10) (3 # 10) "CENTRO" (1 # 2, 1 # 2) (1 # 2) (1 # 2)).

(** A call whose two centres sit on column [x] and row [y] of a 640x480
    frame, without landmarks for the iris lookup. *)
Definition looking_at (x y : Z) : gaze_call :=
  mkGazeCall (x, y) (x, y) vga None.

(** The two boxes of a rendering in one of the box modes, and the width of
    a box. *)
Definition boxes_of (d : drawn) : option (box * box) :=
  match d with
  | RoundedBoxes a b | DiagonalBoxes a b => Some (a, b)
  | NoiseLine | AmWave _ _ _ => None
  end.

Definition box_width (b : box) : Z := (rect_x2 b - rect_x1 b)%Z.

(** A frame without a face. *)
Definition no_face : loop_input :=
  mkInput vga None 1 1 1 OtherKey 1 1.

(** ** Further notions for the properties *)

(** A point of the unit square, a landmark in it, a pixel inside a frame. *)
Definition in_unit (p : Q * Q) : Prop :=
  (0 <= fst p /\ fst p <= 1) /\ (0 <= snd p /\ snd p <= 1).

Definition lm_in_unit (lm : landmark) : Prop := in_unit (lm_x lm, lm_y lm).

Definition in_frame (shape : frame_shape) (p : Z * Z) : Prop :=
  (0 <= fst p <= Zpos (cols shape))%Z /\ (0 <= snd p <= Zpos (rows shape))%Z.

(** The three flags as the aspect ratios of one frame decide them. *)
Definition flags_of (l r : Q) : bool * bool * bool :=
  (Qltb l wink_threshold && Qltb r wink_threshold,
   Qltb l wink_threshold && negb (Qltb r wink_threshold),
   negb (Qltb l wink_threshold) && Qltb r wink_threshold).

(** A face mesh of [n] landmarks, all in the middle of the frame. *)
Definition mesh (n : nat) : list landmark := repeat (mkLandmark (1 # 2) (1 # 2)) n.

(** The oscillator in order: the openness an even number of [0, 100], the
    direction +1 or -1. *)
Definition am_ok (a : AMState) : Prop :=
  (0 <= am_openness a <= 100)%Z /\ Z.even (am_openness a) = true /\
  (am_open_dir a = 1 \/ am_open_dir a = -1)%Z.


(** Every JSON file among the outputs is followed at once by its video, and
    the frame count the JSON file states is the number of its frame records
    and the number of frames of the video. *)
Fixpoint files_agree (os : list output) : Prop :=
  match os with
  | [] => True
  | SavedJson d :: rest =>
    match rest with
    | SavedMp4 n :: _ =>
      n = ad_total_frames d /\ ad_total_frames d = List.length (ad_frames d)
    | _ => False
    end /\ files_agree rest
  | _ :: rest => files_agree rest
  end.

(** The recorder in order: the outputs agree, and while a session is active
    the log and the video buffer have the same length. *)
Definition recorder_ok (s : EyeTracker) : Prop :=
  files_agree (outputs s) /\
  (is_recording (recorder s) = true ->
   List.length (animation_frames (recorder s)) = List.length (video_frames (recorder s))).

(** Timestamps that climb by the capture interval at least: the first is at
    least [n] intervals, the next [n + 1], and so on. *)
Fixpoint climbing (n : nat) (ts : list Q) : Prop :=
  match ts with
  | [] => True
  | t :: rest =>
    inject_Z (Z.of_nat n) * frame_interval <= t /\ climbing (S n) rest
  end.

(** The invariant of a session whose clock did not run backwards between
    the two readings of [start_recording]. *)
Definition log_climbs (s : EyeTracker) : Prop :=
  climbing 1 (timestamps s) /\
  Forall (fun t => t <= max_recording_time) (timestamps s) /\
  inject_Z (Z.of_nat (List.length (timestamps s))) * frame_interval
  <= last_frame_time (recorder s) - recording_start_time (recorder s).

(** A frame with a face whose left eye is below the wink threshold, and one
    whose left eye is back at the blink threshold or above; the R key is not
    pressed on either. *)
Definition left_shut (i : loop_input) : Prop :=
  in_key i <> KeyR /\
  exists d, in_results i = Some d /\ det_left_ear d < wink_threshold.

Definition left_reopened (i : loop_input) : Prop :=
  in_key i <> KeyR /\
  exists d, in_results i = Some d /\ blink_threshold <= det_left_ear d.

(** ** Notions of the specification for pixels, samples and frames *)

(** Truncation towards zero, as a formula: the floor of a number that is not
    negative, the ceiling of a negative one. *)
Definition spec_truncate (x : Q) : Z :=
  if Qle_bool 0 x then Qfloor x else Qceiling x.

(** The pixel-truncated coordinates of a landmark: the normalised
    coordinates scaled by the width and the height of the frame, each
    truncated to a whole pixel. *)
Definition spec_pixel (shape : frame_shape) (lm : landmark) : Z * Z :=
  (spec_truncate (lm_x lm * inject_Z (Zpos (cols shape))),
   spec_truncate (lm_y lm * inject_Z (Zpos (rows shape)))).

(** The mean pixel row of a set of landmarks, and the raw pixel distance
    between brow and eye: the distance of the two mean rows. *)
Definition mean_row (shape : frame_shape) (lms : list landmark) : Q :=
  mean (map (fun lm => inject_Z (snd (spec_pixel shape lm))) lms).

Definition brow_eye_distance (eyebrow_landmarks eye_landmarks : list landmark)
           (shape : frame_shape) : Q :=
  Qabs (mean_row shape eyebrow_landmarks - mean_row shape eye_landmarks).

(** The centres a call of the gaze estimator works on: the two iris centres
    when the landmarks give both, the eye centres it was handed otherwise. *)
Definition centres_used (c : gaze_call) : (Z * Z) * (Z * Z) :=
  match g_landmarks c with
  | Some lms =>
    match get_iris_center lms true (g_shape c),
          get_iris_center lms false (g_shape c) with
    | Some li, Some ri => (li, ri)
    | _, _ => (g_left_center c, g_right_center c)
    end
  | None => (g_left_center c, g_right_center c)
  end.

(** The midpoint of two pixel points, normalised to the frame's width and
    height. *)
Definition normalized_midpoint (a b : Z * Z) (shape : frame_shape) : Q * Q :=
  (inject_Z (fst a + fst b) / 2 / inject_Z (Zpos (cols shape)),
   inject_Z (snd a + snd b) / 2 / inject_Z (Zpos (rows shape))).

Definition spec_sample (c : gaze_call) : Q * Q :=
  normalized_midpoint (fst (centres_used c)) (snd (centres_used c)) (g_shape c).

(** Two points with the same coordinates, as numbers. *)
Definition same_point (p q : Q * Q) : Prop :=
  fst p == fst q /\ snd p == snd q.

(** The aspect ratio one eye has on each frame of a run of the loop, as
    [process_frame] returns it: the measured one on a frame with a face, the
    default 0.3 on a frame without. *)
Fixpoint reported_ears (side : frame_values -> Q) (inputs : list loop_input)
         (s : EyeTracker) : list Q :=
  match inputs with
  | [] => []
  | i :: rest =>
    side (fst (process_frame (in_shape i) (in_results i) s))
    :: reported_ears side rest (snd (loop_body i s))
  end.

(** The rows between the upper and the lower edge of a box. *)
Definition box_rows (b : box) : Z := (rect_y2 b - rect_y1 b)%Z.

(** The four edges of a box. *)
Definition edges (b : box) : Z * Z * Z * Z :=
  (rect_x1 b, rect_y1 b, rect_x2 b, rect_y2 b).

(** ** Further inputs for the examples *)

(** A landmark half a pixel to the right of and below the pixel [(x, y)] of
    a 640x480 frame. *)
Definition off_grid (x y : Z) : landmark :=
  mkLandmark ((inject_Z x + (1 # 2)) / 640) ((inject_Z y + (1 # 2)) / 480).

(** An open eye whose landmarks sit between the pixels: corners 30 pixels
    apart, lids 10 pixels apart. *)
Definition off_grid_contour : list landmark :=
  [off_grid 300 240; off_grid 310 235; off_grid 320 235;
   off_grid 330 240; off_grid 320 245; off_grid 310 245].

(** A call with the two eye centres on columns [lx] and [rx] of row [y] of a
    640x480 frame, without landmarks for the iris lookup. *)
Definition eyes_at (lx rx y : Z) : gaze_call :=
  mkGazeCall (lx, y) (rx, y) vga None.

(** Ticks with a face at the given clock readings. *)
Definition ticks_at (nows : list Q) : list (Q * bool * string) :=
  map (fun now => (now, true, "CENTRO"%string)) nows.

(** The box height in whole pixels, as a formula: EAR/0.35*100 truncated
    towards zero and clamped to [8, 100]. *)
Definition spec_box_height (ear : Q) : Z :=
  Z.max 8 (Z.min 100 (spec_truncate (ear / (35 # 100) * 100))).

(** * Properties *)

(** ** Comparisons *)

Lemma Qltb_lt (a b : Q) : Qltb a b = true <-> a < b.
Proof.
  unfold Qltb. rewrite negb_true_iff.
  split; intro H.
  - apply Qnot_le_lt. intro Hle. apply Qle_bool_iff in Hle. congruence.
  - destruct (Qle_bool b a) eqn:E; [|reflexivity].
    apply Qle_bool_iff in E. exfalso. apply (Qlt_not_le _ _ H E).
Qed.

Lemma Qltb_ge (a b : Q) : Qltb a b = false <-> b <= a.
Proof.
  unfold Qltb. rewrite negb_false_iff. apply Qle_bool_iff.
Qed.

Lemma Qgeb_ge (a b : Q) : Qgeb a b = true <-> b <= a.
Proof. unfold Qgeb. apply Qle_bool_iff. Qed.

Lemma Qgeb_lt (a b : Q) : Qgeb a b = false <-> a < b.
Proof.
  unfold Qgeb. rewrite <- (Qltb_lt a b). unfold Qltb.
  destruct (Qle_bool b a); simpl; split; congruence.
Qed.

Lemma Qgtb_gt (a b : Q) : Qgtb a b = true <-> b < a.
Proof. unfold Qgtb. apply Qltb_lt. Qed.

Lemma Qgtb_le (a b : Q) : Qgtb a b = false <-> a <= b.
Proof. unfold Qgtb. apply Qltb_ge. Qed.

(** ** The eye-state classifier *)

Section Classifier.

Variables (l r : Q) (s : EyeTracker).

Let lc := left_wink_counter (wink s).
Let rc := right_wink_counter (wink s).

Lemma detect_both_closed :
  l < wink_threshold -> r < wink_threshold ->
  detect_eye_state l r s =
  (AMBOS_CERRADOS, set_wink (mkWink lc rc true false false) s).
Proof.
  intros Hl Hr. apply Qltb_lt in Hl. apply Qltb_lt in Hr.
  unfold detect_eye_state. rewrite Hl, Hr. reflexivity.
Qed.

Lemma detect_left_only :
  l < wink_threshold -> wink_threshold <= r ->
  detect_eye_state l r s =
  if (1 <=? lc)%nat
  then (GUINANDO_IZQUIERDO, set_wink (mkWink (S lc) rc false true false) s)
  else (NORMAL,
        set_wink (mkWink (S lc) 0 (both_eyes_closed (wink s))
                         (left_winking (wink s)) (right_winking (wink s))) s).
Proof.
  intros Hl Hr. apply Qltb_lt in Hl. apply Qltb_ge in Hr.
  unfold detect_eye_state. rewrite Hl, Hr. subst lc rc. simpl.
  destruct (left_wink_counter (wink s)); reflexivity.
Qed.

Lemma detect_right_only :
  wink_threshold <= l -> r < wink_threshold ->
  detect_eye_state l r s =
  if (1 <=? rc)%nat
  then (GUINANDO_DERECHO, set_wink (mkWink 0 (S rc) false false true) s)
  else (NORMAL,
        set_wink (mkWink 0 (S rc) (both_eyes_closed (wink s))
                         (left_winking (wink s)) (right_winking (wink s))) s).
Proof.
  intros Hl Hr. apply Qltb_ge in Hl. apply Qltb_lt in Hr.
  unfold detect_eye_state. rewrite Hl, Hr. subst lc rc. simpl.
  destruct (right_wink_counter (wink s)); reflexivity.
Qed.

Lemma detect_both_open :
  wink_threshold <= l -> wink_threshold <= r ->
  detect_eye_state l r s =
  (AMBOS_ABIERTOS, set_wink (mkWink 0 0 false false false) s).
Proof.
  intros Hl Hr. apply Qltb_ge in Hl. apply Qltb_ge in Hr.
  unfold detect_eye_state. rewrite Hl, Hr. reflexivity.
Qed.

End Classifier.

(** The classifier touches the wink fields only. *)
Lemma detect_eye_state_frame (l r : Q) (s : EyeTracker) :
  snd (detect_eye_state l r s) = set_wink (wink (snd (detect_eye_state l r s))) s.
Proof.
  destruct (Qlt_le_dec l wink_threshold) as [Hl|Hl];
    destruct (Qlt_le_dec r wink_threshold) as [Hr|Hr].
  - rewrite detect_both_closed by assumption. reflexivity.
  - rewrite detect_left_only by assumption.
    destruct (1 <=? left_wink_counter (wink s))%nat; reflexivity.
  - rewrite detect_right_only by assumption.
    destruct (1 <=? right_wink_counter (wink s))%nat; reflexivity.
  - rewrite detect_both_open by assumption. reflexivity.
Qed.

(** From the second of a run of left-only evaluations on, the label is the
    left wink. *)
Lemma left_only_run_tail (ears : list (Q * Q)) :
  forall s, Forall left_only ears ->
            (1 <= left_wink_counter (wink s))%nat ->
            Forall (eq GUINANDO_IZQUIERDO) (fst (detect_run ears s)).
Proof.
  induction ears as [|[l r] rest IH]; intros s Hall Hc; simpl.
  - constructor.
  - inversion Hall as [|? ? [Hl Hr] Hrest]; subst. simpl in Hl, Hr.
    rewrite (detect_left_only l r s Hl Hr).
    apply Nat.leb_le in Hc. rewrite Hc.
    specialize (IH (set_wink (mkWink (S (left_wink_counter (wink s)))
                                     (right_wink_counter (wink s))
                                     false true false) s) Hrest).
    destruct (detect_run rest _) as [labs s2]. simpl in *.
    constructor; [reflexivity|]. apply IH. lia.
Qed.

Lemma right_only_run_tail (ears : list (Q * Q)) :
  forall s, Forall right_only ears ->
            (1 <= right_wink_counter (wink s))%nat ->
            Forall (eq GUINANDO_DERECHO) (fst (detect_run ears s)).
Proof.
  induction ears as [|[l r] rest IH]; intros s Hall Hc; simpl.
  - constructor.
  - inversion Hall as [|? ? [Hl Hr] Hrest]; subst. simpl in Hl, Hr.
    rewrite (detect_right_only l r s Hl Hr).
    apply Nat.leb_le in Hc. rewrite Hc.
    specialize (IH (set_wink (mkWink 0 (S (right_wink_counter (wink s)))
                                     false false true) s) Hrest).
    destruct (detect_run rest _) as [labs s2]. simpl in *.
    constructor; [reflexivity|]. apply IH. lia.
Qed.

(** A run of one-sided evaluations gives no label but the wink of that side
    and [NORMAL]. *)
Lemma left_only_run_labels (ears : list (Q * Q)) :
  forall s, Forall left_only ears ->
            Forall (fun lab => lab = GUINANDO_IZQUIERDO \/ lab = NORMAL)
                   (fst (detect_run ears s)).
Proof.
  induction ears as [|[l r] rest IH]; intros s Hall; simpl.
  - constructor.
  - inversion Hall as [|? ? [Hl Hr] Hrest]; subst. simpl in Hl, Hr.
    rewrite (detect_left_only l r s Hl Hr).
    destruct (1 <=? left_wink_counter (wink s))%nat.
    + specialize (IH (set_wink (mkWink (S (left_wink_counter (wink s)))
                                       (right_wink_counter (wink s))
                                       false true false) s) Hrest).
      destruct (detect_run rest _) as [labs s2]. constructor; auto.
    + match goal with
      | |- context [detect_run rest ?st] => specialize (IH st Hrest);
                                            destruct (detect_run rest st) as [labs s2]
      end.
      constructor; auto.
Qed.

Lemma right_only_run_labels (ears : list (Q * Q)) :
  forall s, Forall right_only ears ->
            Forall (fun lab => lab = GUINANDO_DERECHO \/ lab = NORMAL)
                   (fst (detect_run ears s)).
Proof.
  induction ears as [|[l r] rest IH]; intros s Hall; simpl.
  - constructor.
  - inversion Hall as [|? ? [Hl Hr] Hrest]; subst. simpl in Hl, Hr.
    rewrite (detect_right_only l r s Hl Hr).
    destruct (1 <=? right_wink_counter (wink s))%nat.
    + specialize (IH (set_wink (mkWink 0 (S (right_wink_counter (wink s)))
                                       false false true) s) Hrest).
      destruct (detect_run rest _) as [labs s2]. constructor; auto.
    + match goal with
      | |- context [detect_run rest ?st] => specialize (IH st Hrest);
                                            destruct (detect_run rest st) as [labs s2]
      end.
      constructor; auto.
Qed.

(** After one one-sided evaluation the counter of that side is at least 1. *)
Lemma left_only_counts (l r : Q) (s : EyeTracker) :
  l < wink_threshold -> wink_threshold <= r ->
  left_wink_counter (wink (snd (detect_eye_state l r s))) =
  S (left_wink_counter (wink s)).
Proof.
  intros Hl Hr. rewrite (detect_left_only l r s Hl Hr).
  destruct (1 <=? left_wink_counter (wink s))%nat; reflexivity.
Qed.

Lemma right_only_counts (l r : Q) (s : EyeTracker) :
  wink_threshold <= l -> r < wink_threshold ->
  right_wink_counter (wink (snd (detect_eye_state l r s))) =
  S (right_wink_counter (wink s)).
Proof.
  intros Hl Hr. rewrite (detect_right_only l r s Hl Hr).
  destruct (1 <=? right_wink_counter (wink s))%nat; reflexivity.
Qed.

Lemma Forall_or_not_in {A : Type} (a b c : A) (l : list A) :
  c <> a -> c <> b ->
  Forall (fun x => x = a \/ x = b) l -> ~ In c l.
Proof.
  intros Ha Hb Hall Hin. rewrite Forall_forall in Hall.
  destruct (Hall c Hin); congruence.
Qed.

(** C1 (as amended).  The classifier follows a fixed precedence, from every
    state.  Both aspect ratios below 0.18: the label is [AMBOS_CERRADOS], the
    both-closed flag is set and the two wink flags are cleared, and the two
    wink counters keep their values.  Left below 0.18 and right not, on
    consecutive evaluations: every label from the second evaluation on is
    [GUINANDO_IZQUIERDO], and the reversed pattern never gives that label;
    the right wink is symmetric.  Neither below 0.18: the label is
    [AMBOS_ABIERTOS], all flags are cleared and both counters are 0. *)
Theorem detect_eye_state_precedence (l r : Q) (s : EyeTracker) :
  (l < wink_threshold -> r < wink_threshold ->
   fst (detect_eye_state l r s) = AMBOS_CERRADOS /\
   wink (snd (detect_eye_state l r s)) =
   mkWink (left_wink_counter (wink s)) (right_wink_counter (wink s))
          true false false) /\
  (wink_threshold <= l -> wink_threshold <= r ->
   fst (detect_eye_state l r s) = AMBOS_ABIERTOS /\
   wink (snd (detect_eye_state l r s)) = mkWink 0 0 false false false) /\
  (forall ears, Forall left_only ears ->
     Forall (eq GUINANDO_IZQUIERDO) (tl (fst (detect_run ears s))) /\
     ~ In GUINANDO_DERECHO (fst (detect_run ears s))) /\
  (forall ears, Forall right_only ears ->
     Forall (eq GUINANDO_DERECHO) (tl (fst (detect_run ears s))) /\
     ~ In GUINANDO_IZQUIERDO (fst (detect_run ears s))).
Proof.
  repeat split.
  - rewrite detect_both_closed by assumption. reflexivity.
  - rewrite detect_both_closed by assumption. reflexivity.
  - rewrite detect_both_open by assumption. reflexivity.
  - rewrite detect_both_open by assumption. reflexivity.
  - destruct ears as [|[l1 r1] rest]; simpl; [constructor|].
    inversion H as [|? ? [Hl Hr] Hrest]; subst. simpl in Hl, Hr.
    pose proof (left_only_counts l1 r1 s Hl Hr) as Hc.
    destruct (detect_eye_state l1 r1 s) as [lab s1]. simpl in Hc.
    pose proof (left_only_run_tail rest s1 Hrest) as Htail.
    destruct (detect_run rest s1) as [labs s2]. simpl in *.
    apply Htail. lia.
  - apply (Forall_or_not_in GUINANDO_IZQUIERDO NORMAL); try discriminate.
    apply left_only_run_labels. assumption.
  - destruct ears as [|[l1 r1] rest]; simpl; [constructor|].
    inversion H as [|? ? [Hl Hr] Hrest]; subst. simpl in Hl, Hr.
    pose proof (right_only_counts l1 r1 s Hl Hr) as Hc.
    destruct (detect_eye_state l1 r1 s) as [lab s1]. simpl in Hc.
    pose proof (right_only_run_tail rest s1 Hrest) as Htail.
    destruct (detect_run rest s1) as [labs s2]. simpl in *.
    apply Htail. lia.
  - apply (Forall_or_not_in GUINANDO_DERECHO NORMAL); try discriminate.
    apply right_only_run_labels. assumption.
Qed.

(** Two left-only evaluations from the initial state: the second is the
    left wink. *)
Lemma detect_eye_state_precedence_witness :
  Forall left_only [(1 # 10, 3 # 10); (1 # 10, 3 # 10)] /\
  Forall (eq GUINANDO_IZQUIERDO)
         (tl (fst (detect_run [(1 # 10, 3 # 10); (1 # 10, 3 # 10)] (init 0)))).
Proof.
  assert (H : Forall left_only [(1 # 10, 3 # 10); (1 # 10, 3 # 10)]).
  { repeat constructor; simpl; unfold Qle; simpl; lia. }
  split; [exact H|].
  exact (proj1 (proj1 (proj2 (proj2
           (detect_eye_state_precedence (1 # 10) (3 # 10) (init 0)))) _ H)).
Defined.

(** C1, as the specification states it, fails: an evaluation with both eyes
    closed does not reset the wink counters.  After one left-only evaluation
    the left counter is 1, and it is still 1 after a both-closed one. *)
Lemma both_closed_keeps_wink_counters :
  ~ (forall (l r : Q) (s : EyeTracker),
       l < wink_threshold -> r < wink_threshold ->
       left_wink_counter (wink (snd (detect_eye_state l r s))) = 0%nat /\
       right_wink_counter (wink (snd (detect_eye_state l r s))) = 0%nat).
Proof.
  intro H.
  destruct (H (1 # 10) (1 # 10)
              (snd (detect_eye_state (1 # 10) (3 # 10) (init 0))))
    as [Hl _]; try reflexivity.
  vm_compute in Hl. discriminate Hl.
Qed.

(** What the kept counter does: left-only, both closed, left-only is a left
    wink at the third evaluation. *)
Example kept_counter_completes_debounce :
  fst (detect_run [(1 # 10, 3 # 10); (1 # 10, 1 # 10); (1 # 10, 3 # 10)] (init 0))
  = [NORMAL; AMBOS_CERRADOS; GUINANDO_IZQUIERDO].
Proof. reflexivity. Qed.

(** ** Blink counting *)

Lemma maximal_runs_head (b : bool) (l : list bool) :
  exists n runs, maximal_runs (b :: l) = (b, S n) :: runs.
Proof.
  simpl. destruct (maximal_runs l) as [|[b' n] runs].
  - exists 0%nat, []. reflexivity.
  - destruct (Bool.eqb b b').
    + exists n, runs. reflexivity.
    + exists 0%nat, ((b', n) :: runs). reflexivity.
Qed.

(** A closed run in front of an open frame is a maximal run of its own. *)
Lemma maximal_runs_closed_prefix (c : nat) (l : list bool) :
  maximal_runs (repeat true (S c) ++ false :: l) =
  (true, S c) :: maximal_runs (false :: l).
Proof.
  induction c as [|c IH].
  - destruct (maximal_runs_head false l) as (n & runs & E).
    change (repeat true 1 ++ false :: l) with (true :: false :: l).
    change (maximal_runs (true :: false :: l))
      with (match maximal_runs (false :: l) with
            | (b', n) :: runs =>
              if Bool.eqb true b' then (true, S n) :: runs
              else (true, 1%nat) :: (b', n) :: runs
            | [] => [(true, 1%nat)]
            end).
    rewrite E. reflexivity.
  - change (repeat true (S (S c)) ++ false :: l)
      with (true :: (repeat true (S c) ++ false :: l)).
    change (maximal_runs (true :: (repeat true (S c) ++ false :: l)))
      with (match maximal_runs (repeat true (S c) ++ false :: l) with
            | (b', n) :: runs =>
              if Bool.eqb true b' then (true, S n) :: runs
              else (true, 1%nat) :: (b', n) :: runs
            | [] => [(true, 1%nat)]
            end).
    rewrite IH. reflexivity.
Qed.

(** An open frame in front adds no blink. *)
Lemma spec_blinks_open_front (l : list bool) :
  spec_blinks (false :: l) = spec_blinks l.
Proof.
  unfold spec_blinks. simpl.
  destruct (maximal_runs l) as [|[[|] n] runs]; reflexivity.
Qed.

(** A closed run of [c] frames, then an open frame: one blink when [c] is at
    least 2, none otherwise. *)
Lemma spec_blinks_closed_run (c : nat) (l : list bool) :
  spec_blinks (repeat true c ++ false :: l) =
  ((if (consecutive_frames <=? c)%nat then 1 else 0) + spec_blinks l)%nat.
Proof.
  destruct c as [|c].
  - simpl repeat. simpl app. rewrite spec_blinks_open_front. reflexivity.
  - unfold spec_blinks at 1. rewrite maximal_runs_closed_prefix.
    destruct (maximal_runs_head false l) as (n & runs & E).
    rewrite E.
    change (spec_blinks_of_runs ((true, S c) :: (false, S n) :: runs))
      with ((if (2 <=? S c)%nat then 1 else 0)
            + spec_blinks_of_runs ((false, S n) :: runs))%nat.
    rewrite <- E. fold (spec_blinks (false :: l)).
    rewrite spec_blinks_open_front. reflexivity.
Qed.

(** A closed run that no open frame follows adds no blink. *)
Lemma spec_blinks_open_end (c : nat) : spec_blinks (repeat true c) = 0%nat.
Proof.
  unfold spec_blinks.
  assert (H : maximal_runs (repeat true c) =
              match c with O => [] | S _ => [(true, c)] end).
  { induction c as [|c IH]; [reflexivity|].
    simpl. rewrite IH. destruct c; reflexivity. }
  rewrite H. destruct c; reflexivity.
Qed.

Lemma repeat_true_shift (c : nat) (l : list bool) :
  repeat true c ++ true :: l = repeat true (S c) ++ l.
Proof.
  induction c as [|c IH]; [reflexivity|].
  simpl. f_equal. exact IH.
Qed.

(** The counting of one eye, from a counter [c] that stands for a closed run
    of [c] frames in progress. *)
Lemma blink_run_spec (ears : list Q) :
  forall c t,
    snd (blink_run ears c t) =
    (t + spec_blinks (repeat true c ++ below_blink ears))%nat.
Proof.
  induction ears as [|ear rest IH]; intros c t; simpl.
  - rewrite app_nil_r, spec_blinks_open_end. lia.
  - unfold count_blink. destruct (Qltb ear blink_threshold) eqn:E.
    + rewrite IH, repeat_true_shift. reflexivity.
    + rewrite IH, spec_blinks_closed_run. simpl repeat. simpl app.
      destruct (consecutive_frames <=? c)%nat; lia.
Qed.

(** A closed frame never changes the total; an open frame adds one exactly
    when the counter had reached 2. *)
Lemma count_blink_step (ear : Q) (c t : nat) :
  (ear < blink_threshold -> count_blink ear c t = (S c, t)) /\
  (blink_threshold <= ear ->
   count_blink ear c t = (0%nat, if (2 <=? c)%nat then S t else t)).
Proof.
  unfold count_blink. split; intro H.
  - apply Qltb_lt in H. rewrite H. reflexivity.
  - apply Qltb_ge in H. rewrite H. reflexivity.
Qed.

(** ** Which fields each method touches *)

Lemma update_am_state_fields (now : Q) (cd : bool) (g : string) (s : EyeTracker) :
  blink (update_am_state now cd g s) = blink s /\
  wink (update_am_state now cd g s) = wink s /\
  recorder (update_am_state now cd g s) = recorder s /\
  visualization_mode (update_am_state now cd g s) = visualization_mode s /\
  eye_movement_history (update_am_state now cd g s) = eye_movement_history s.
Proof.
  unfold update_am_state.
  destruct (Qltb _ _); [auto|].
  destruct (negb cd); simpl; auto.
Qed.

Lemma stop_recording_fields (t : Q) (s : EyeTracker) :
  blink (stop_recording t s) = blink s /\
  wink (stop_recording t s) = wink s /\
  eye_movement_history (stop_recording t s) = eye_movement_history s.
Proof.
  unfold stop_recording.
  destruct (is_recording (recorder s)); [|simpl; auto].
  destruct (_ && _); simpl; auto.
Qed.

Lemma capture_fields (now t : Q) (l r : Q) (g : string) (p : Q * Q) (lb rb : Q)
      (s : EyeTracker) :
  blink (capture_frame_for_recording now t l r g p lb rb s) = blink s /\
  wink (capture_frame_for_recording now t l r g p lb rb s) = wink s /\
  eye_movement_history (capture_frame_for_recording now t l r g p lb rb s) =
  eye_movement_history s.
Proof.
  unfold capture_frame_for_recording.
  destruct (negb _); [auto|].
  destruct (Qgtb _ _).
  - destruct (stop_recording_fields t (emit TimeLimitReached s)) as (A & B & C).
    rewrite A, B, C. auto.
  - destruct (Qgeb _ _); [|auto].
    destruct (Nat.eqb _ _); simpl; auto.
Qed.

Lemma draw_virtual_eyes_state (l r : Q) (g : string) (p : Q * Q) (lb rb : Q)
      (fv : bool) (s : EyeTracker) :
  snd (draw_virtual_eyes l r g p lb rb fv s) = snd (detect_eye_state l r s) /\
  eye_state (fst (draw_virtual_eyes l r g p lb rb fv s)) =
  fst (detect_eye_state l r s).
Proof.
  unfold draw_virtual_eyes.
  destruct (detect_eye_state l r s) as [lab s1].
  destruct (if _ : bool then _ else _) as [lh rh]. split; reflexivity.
Qed.

Lemma detect_eye_state_blink (l r : Q) (s : EyeTracker) :
  blink (snd (detect_eye_state l r s)) = blink s.
Proof. rewrite detect_eye_state_frame. reflexivity. Qed.

Lemma detect_eye_movement_fields (lc rc : Z * Z) (shape : frame_shape)
      (lms : option (list landmark)) (s : EyeTracker) :
  blink (snd (detect_eye_movement lc rc shape lms s)) = blink s /\
  wink (snd (detect_eye_movement lc rc shape lms s)) = wink s.
Proof.
  unfold detect_eye_movement.
  destruct (choose_centers lc rc shape lms). split; reflexivity.
Qed.

(** Frame processing: the wink fields are those of one classification (of
    none without a face), the blink fields those of one counting step per
    eye. *)
Lemma process_frame_fields (shape : frame_shape) (f : option detection)
      (s : EyeTracker) :
  match f with
  | Some d =>
    wink (snd (process_frame shape f s)) =
    wink (snd (detect_eye_state (det_left_ear d) (det_right_ear d) s)) /\
    blink (snd (process_frame shape f s)) =
    mkBlink
      (fst (count_blink (det_left_ear d) (left_blink_counter (blink s))
                        (left_blink_total (blink s))))
      (fst (count_blink (det_right_ear d) (right_blink_counter (blink s))
                        (right_blink_total (blink s))))
      (snd (count_blink (det_left_ear d) (left_blink_counter (blink s))
                        (left_blink_total (blink s))))
      (snd (count_blink (det_right_ear d) (right_blink_counter (blink s))
                        (right_blink_total (blink s)))) /\
    v_left_ear (fst (process_frame shape f s)) = det_left_ear d /\
    v_right_ear (fst (process_frame shape f s)) = det_right_ear d
  | None =>
    snd (process_frame shape f s) = s /\
    v_left_ear (fst (process_frame shape f s)) = 3 # 10 /\
    v_right_ear (fst (process_frame shape f s)) = 3 # 10
  end.
Proof.
  destruct f as [d|]; [|simpl; auto].
  unfold process_frame.
  pose proof (detect_eye_state_blink (det_left_ear d) (det_right_ear d) s) as Hb.
  destruct (detect_eye_state (det_left_ear d) (det_right_ear d) s) as [lab s1].
  simpl in Hb. rewrite Hb.
  destruct (count_blink (det_left_ear d) _ _) as [lc lt].
  destruct (count_blink (det_right_ear d) _ _) as [rc rt].
  match goal with
  | |- context [detect_eye_movement ?a ?b ?c ?d ?st] =>
    pose proof (detect_eye_movement_fields a b c d st) as [Hmb Hmw];
      destruct (detect_eye_movement a b c d st) as [[gd gp] s3]
  end.
  simpl in *. rewrite Hmb, Hmw. auto.
Qed.

Lemma handle_key_fields (i : loop_input) (s : EyeTracker) :
  wink (handle_key i s) = wink s /\
  (in_key i <> KeyR -> blink (handle_key i s) = blink s) /\
  left_blink_counter (blink (handle_key i s)) = left_blink_counter (blink s) /\
  right_blink_counter (blink (handle_key i s)) = right_blink_counter (blink s).
Proof.
  unfold handle_key. destruct (in_key i); simpl; repeat split; try congruence.
  all: try (unfold start_recording; destruct (negb _); reflexivity).
  all: try (destruct (stop_recording_fields (in_key_now1 i) s) as (A & B & C);
            rewrite ?A, ?B; reflexivity).
Qed.

(** The classification reads and writes the wink fields only. *)
Lemma detect_eye_state_wink_only (l r : Q) (s s' : EyeTracker) :
  wink s = wink s' ->
  fst (detect_eye_state l r s) = fst (detect_eye_state l r s') /\
  wink (snd (detect_eye_state l r s)) = wink (snd (detect_eye_state l r s')).
Proof.
  intro H. unfold detect_eye_state. rewrite <- H.
  destruct (Qltb l wink_threshold), (Qltb r wink_threshold); simpl;
    try (split; reflexivity);
    destruct (left_wink_counter (wink s)) as [|n];
    destruct (right_wink_counter (wink s)) as [|m]; simpl; split; reflexivity.
Qed.

(** One pass of the loop changes the wink and blink fields as frame
    processing followed by the renderer's own classification does; the R key
    apart for the blink totals. *)
Lemma loop_body_fields (i : loop_input) (s : EyeTracker) :
  let p := process_frame (in_shape i) (in_results i) s in
  wink (snd (loop_body i s)) =
  wink (snd (detect_eye_state (v_left_ear (fst p)) (v_right_ear (fst p)) (snd p))) /\
  eye_state (fst (loop_body i s)) =
  fst (detect_eye_state (v_left_ear (fst p)) (v_right_ear (fst p)) (snd p)) /\
  (in_key i <> KeyR -> blink (snd (loop_body i s)) = blink (snd p)) /\
  left_blink_counter (blink (snd (loop_body i s))) =
  left_blink_counter (blink (snd p)) /\
  right_blink_counter (blink (snd (loop_body i s))) =
  right_blink_counter (blink (snd p)).
Proof.
  intro p. unfold loop_body. fold p.
  destruct p as [v s1]. simpl fst. simpl snd.
  set (s2 := update_am_state _ _ _ s1).
  destruct (update_am_state_fields
              (in_am_now i)
              (negb (String.eqb (v_gaze_direction v) "NO_DETECTADO"))
              (v_gaze_direction v) s1) as (Ab & Aw & _).
  fold s2 in Ab, Aw.
  pose proof (draw_virtual_eyes_state
                (v_left_ear v) (v_right_ear v) (v_gaze_direction v)
                (v_gaze_pos v) (v_left_brow_height v) (v_right_brow_height v)
                false s2) as [Ds De].
  destruct (draw_virtual_eyes _ _ _ _ _ _ false s2) as [rd s3].
  simpl in Ds, De. simpl fst. simpl snd.
  set (s4 := capture_frame_for_recording _ _ _ _ _ _ _ _ s3).
  destruct (capture_fields (in_capture_now i) (in_stop_now i)
                           (v_left_ear v) (v_right_ear v)
                           (v_gaze_direction v) (v_gaze_pos v)
                           (v_left_brow_height v) (v_right_brow_height v) s3)
    as (Cb & Cw & _).
  fold s4 in Cb, Cw.
  destruct (handle_key_fields i s4) as (Kw & Kb & Kl & Kr).
  destruct (detect_eye_state_wink_only (v_left_ear v) (v_right_ear v) s2 s1 Aw)
    as [Wl Ww].
  assert (Hb : blink s4 = blink s1).
  { rewrite Cb, Ds, detect_eye_state_blink. exact Ab. }
  repeat split.
  - rewrite Kw, Cw, Ds. exact Ww.
  - rewrite De. exact Wl.
  - intro Hk. rewrite (Kb Hk). exact Hb.
  - rewrite Kl, Hb. reflexivity.
  - rewrite Kr, Hb. reflexivity.
Qed.

(** Over a run of the loop in which R is not pressed, each eye's counter and
    total are those of the counting steps on that eye's aspect ratios alone. *)
Lemma loop_run_blink_run (inputs : list loop_input) :
  forall s,
    Forall (fun i => in_key i <> KeyR) inputs ->
    let b := blink s in
    let b' := blink (snd (loop_run inputs s)) in
    (left_blink_counter b', left_blink_total b') =
    blink_run (detected_ears det_left_ear (map in_results inputs))
              (left_blink_counter b) (left_blink_total b) /\
    (right_blink_counter b', right_blink_total b') =
    blink_run (detected_ears det_right_ear (map in_results inputs))
              (right_blink_counter b) (right_blink_total b).
Proof.
  induction inputs as [|i rest IH]; intros s Hkeys; simpl.
  - split; reflexivity.
  - inversion Hkeys as [|? ? Hk Hrest]; subst.
    destruct (loop_body_fields i s) as (_ & _ & Hb & _).
    specialize (Hb Hk).
    pose proof (process_frame_fields (in_shape i) (in_results i) s) as Hp.
    specialize (IH (snd (loop_body i s)) Hrest).
    destruct (loop_body i s) as [rd s1]. simpl in Hb, IH. simpl.
    destruct (loop_run rest s1) as [rds s2]. simpl in IH. simpl.
    destruct IH as [IHl IHr]. rewrite IHl, IHr, Hb.
    destruct (in_results i) as [d|].
    + destruct Hp as (_ & Hp & _). rewrite Hp. simpl.
      destruct (count_blink (det_left_ear d) _ _) as [lc lt].
      destruct (count_blink (det_right_ear d) _ _) as [rc rt].
      split; reflexivity.
    + destruct Hp as (Hp & _). rewrite Hp. split; reflexivity.
Qed.

(** On a frame with a face the aspect ratios [process_frame] returns are the
    measured ones; when every frame has a face, the reported sequence is the
    sequence of the frames with a face. *)
Lemma reported_ears_detected (inputs : list loop_input) :
  forall s,
    Forall (fun i => in_results i <> None) inputs ->
    reported_ears v_left_ear inputs s =
    detected_ears det_left_ear (map in_results inputs) /\
    reported_ears v_right_ear inputs s =
    detected_ears det_right_ear (map in_results inputs).
Proof.
  induction inputs as [|i rest IH]; intros s Hall; [split; reflexivity|].
  inversion Hall as [|? ? Hi Hrest]; subst.
  destruct (IH (snd (loop_body i s)) Hrest) as [IHl IHr].
  pose proof (process_frame_fields (in_shape i) (in_results i) s) as Hp.
  cbn [reported_ears map]. rewrite IHl, IHr.
  destruct (in_results i) as [d|]; [|congruence].
  destruct Hp as (_ & _ & Pl & Pr). rewrite Pl, Pr. split; reflexivity.
Qed.

(** C2 (as amended).  Over any run of the main loop in which the totals are
    not reset by the R key, started with both blink counters at 0, each eye's
    blink total grows by the number of maximal runs of at least 2 consecutive
    frames, among the frames with a face, with that eye's aspect ratio below
    0.20 that are followed by a frame with a face and the ratio at 0.20 or
    more; nothing else changes it: not shorter runs, not a run still in
    progress, not the other eye, not the wink classification that runs in
    between.  A frame without a face neither ends nor extends a run.  When
    every frame has a face, the frames with a face are all the frames, with
    the aspect ratios frame processing reports. *)
Theorem blink_totals_count_runs (inputs : list loop_input) (s : EyeTracker) :
  Forall (fun i => in_key i <> KeyR) inputs ->
  left_blink_counter (blink s) = 0%nat ->
  right_blink_counter (blink s) = 0%nat ->
  left_blink_total (blink (snd (loop_run inputs s))) =
  (left_blink_total (blink s) +
   spec_blinks (below_blink (detected_ears det_left_ear (map in_results inputs))))%nat /\
  right_blink_total (blink (snd (loop_run inputs s))) =
  (right_blink_total (blink s) +
   spec_blinks (below_blink (detected_ears det_right_ear (map in_results inputs))))%nat /\
  (Forall (fun i => in_results i <> None) inputs ->
   detected_ears det_left_ear (map in_results inputs) =
   reported_ears v_left_ear inputs s /\
   detected_ears det_right_ear (map in_results inputs) =
   reported_ears v_right_ear inputs s).
Proof.
  intros Hkeys Hl Hr.
  destruct (loop_run_blink_run inputs s Hkeys) as [El Er].
  rewrite Hl in El. rewrite Hr in Er.
  apply (f_equal snd) in El. apply (f_equal snd) in Er.
  simpl in El, Er.
  rewrite El, Er, !blink_run_spec.
  split; [reflexivity|]. split; [reflexivity|].
  intro Hall. destruct (reported_ears_detected inputs s Hall) as [A B].
  split; symmetry; assumption.
Qed.

(** Left eye: closed, no face, closed, open is one blink, the frame without
    a face does not end the run; the right eye, closed on one frame only, has
    none. *)
Lemma blink_totals_count_runs_witness :
  left_blink_total
    (blink (snd (loop_run [face (1 # 10) (3 # 10); no_face;
                           face (1 # 10) (1 # 10); face (3 # 10) (3 # 10)]
                          (init 0)))) = 1%nat /\
  right_blink_total
    (blink (snd (loop_run [face (1 # 10) (3 # 10); no_face;
                           face (1 # 10) (1 # 10); face (3 # 10) (3 # 10)]
                          (init 0)))) = 0%nat.
Proof.
  destruct (blink_totals_count_runs
              [face (1 # 10) (3 # 10); no_face; face (1 # 10) (1 # 10);
               face (3 # 10) (3 # 10)]
              (init 0)) as (Hl & Hr & _).
  - repeat constructor; discriminate.
  - reflexivity.
  - reflexivity.
  - split; [exact Hl|exact Hr].
Defined.

(** C2, as the specification states it, fails: the runs are not runs of
    consecutive frames.  The left eye closed, a frame without a face, the
    left eye closed, the left eye open: frame processing reports the left
    aspect ratios 0.1, 0.3, 0.1, 0.3, in which no two consecutive frames are
    below 0.20, and the code counts a blink. *)
Lemma blink_run_spans_no_face_frame :
  ~ (forall (inputs : list loop_input) (s : EyeTracker),
        Forall (fun i => in_key i <> KeyR) inputs ->
        left_blink_counter (blink s) = 0%nat ->
        left_blink_total (blink (snd (loop_run inputs s))) =
        (left_blink_total (blink s) +
         spec_blinks (below_blink (reported_ears v_left_ear inputs s)))%nat).
Proof.
  intro H.
  specialize (H [face (1 # 10) (3 # 10); no_face; face (1 # 10) (3 # 10);
                 face (3 # 10) (3 # 10)] (init 0)).
  assert (Hk : Forall (fun i => in_key i <> KeyR)
                      [face (1 # 10) (3 # 10); no_face; face (1 # 10) (3 # 10);
                       face (3 # 10) (3 # 10)]).
  { repeat constructor; discriminate. }
  specialize (H Hk eq_refl). vm_compute in H. discriminate H.
Qed.

Example blink_across_no_face_values :
  let inputs := [face (1 # 10) (3 # 10); no_face; face (1 # 10) (3 # 10);
                 face (3 # 10) (3 # 10)] in
  reported_ears v_left_ear inputs (init 0) = [1 # 10; 3 # 10; 1 # 10; 3 # 10] /\
  spec_blinks (below_blink (reported_ears v_left_ear inputs (init 0))) = 0%nat /\
  left_blink_total (blink (snd (loop_run inputs (init 0)))) = 1%nat.
Proof. repeat split; vm_compute; reflexivity. Qed.

(** ** The AM oscillator *)

Lemma tick_skipped (now : Q) (cd : bool) (g : string) (s : EyeTracker) :
  now - am_last_update (am s) < AM_FRAME_INTERVAL ->
  update_am_state now cd g s = s.
Proof.
  intro H. apply Qltb_lt in H. unfold update_am_state. rewrite H. reflexivity.
Qed.

Lemma tick_no_face (now : Q) (g : string) (s : EyeTracker) :
  AM_FRAME_INTERVAL <= now - am_last_update (am s) ->
  update_am_state now false g s =
  set_am (mkAM 0 (am_open_dir (am s)) now (am_phase (am s))) s.
Proof.
  intro H. apply Qltb_ge in H. unfold update_am_state. rewrite H. reflexivity.
Qed.

Lemma tick_face (now : Q) (g : string) (s : EyeTracker) :
  AM_FRAME_INTERVAL <= now - am_last_update (am s) ->
  am (update_am_state now true g s) =
  let o := Z.max 0 (Z.min 100 (am_openness (am s) + am_open_dir (am s) * 2)) in
  mkAM o
       (if (o =? 0)%Z || (o =? 100)%Z
        then (am_open_dir (am s) * -1)%Z else am_open_dir (am s))
       now
       (if contains "IZQUIERDA" g then - (8 # 10)
        else if contains "DERECHA" g then 8 # 10 else 0).
Proof.
  intro H. apply Qltb_ge in H. unfold update_am_state. rewrite H. reflexivity.
Qed.

Lemma spec_triangle_step (k : Z) :
  (0 <= k)%Z ->
  Z.max 0 (Z.min 100 (spec_triangle k + spec_slope k * 2)) = spec_triangle (k + 1) /\
  (let o := spec_triangle (k + 1) in
   if (o =? 0)%Z || (o =? 100)%Z then (spec_slope k * -1)%Z else spec_slope k)
  = spec_slope (k + 1).
Proof.
  intro Hk. unfold spec_triangle, spec_slope.
  pose proof (Z.mod_pos_bound k 100 ltac:(lia)) as Hm.
  assert (E : ((k + 1) mod 100 = k mod 100 + 1 /\ k mod 100 < 99 \/
               (k + 1) mod 100 = 0 /\ k mod 100 = 99)%Z).
  { pose proof (Z.div_mod k 100 ltac:(lia)) as Hd.
    destruct (Z.eq_dec (k mod 100) 99) as [E99|N99].
    - right. split; [|exact E99].
      replace (k + 1)%Z with (0 + (k / 100 + 1) * 100)%Z by lia.
      rewrite Z.mod_add by lia. reflexivity.
    - left. split; [|lia].
      replace (k + 1)%Z with ((k mod 100 + 1) + (k / 100) * 100)%Z by lia.
      rewrite Z.mod_add by lia. apply Z.mod_small. lia. }
  destruct E as [[E Hlt]|[E H99]]; rewrite E; [|rewrite H99; split; reflexivity].
  set (m := (k mod 100)%Z) in *.
  split.
  - destruct (Z.leb_spec m 50), (Z.ltb_spec m 50), (Z.leb_spec (m + 1) 50); lia.
  - cbv zeta.
    destruct (Z.leb_spec (m + 1) 50), (Z.ltb_spec m 50), (Z.ltb_spec (m + 1) 50);
      try lia.
    + destruct (Z.eqb_spec (2 * (m + 1)) 0), (Z.eqb_spec (2 * (m + 1)) 100);
        simpl; lia.
    + destruct (Z.eqb_spec (2 * (m + 1)) 0), (Z.eqb_spec (2 * (m + 1)) 100);
        simpl; lia.
    + destruct (Z.eqb_spec (200 - 2 * (m + 1)) 0),
               (Z.eqb_spec (200 - 2 * (m + 1)) 100); simpl; lia.
Qed.

(** Accepted ticks with a face move the state along the cycle, one place
    each. *)
Lemma am_run_on_cycle (ticks : list (Q * bool * string)) :
  forall s k,
    (0 <= k)%Z -> on_cycle k s ->
    spaced (am_last_update (am s)) (tick_times ticks) ->
    all_detected ticks ->
    on_cycle (k + Z.of_nat (List.length ticks)) (am_run ticks s).
Proof.
  induction ticks as [|[[now cd] g] rest IH]; intros s k Hk Hon Hsp Hall.
  - simpl. rewrite Z.add_0_r. exact Hon.
  - inversion Hall as [|? ? Hcd Hrest]; subst. simpl in Hcd. subst cd.
    destruct Hsp as [Hgap Hsp]. simpl in Hgap.
    change (am_run ((now, true, g) :: rest) s)
      with (am_run rest (update_am_state now true g s)).
    replace (k + Z.of_nat (List.length ((now, true, g) :: rest)))%Z
      with ((k + 1) + Z.of_nat (List.length rest))%Z
      by (simpl List.length; lia).
    pose proof (tick_face now g s Hgap) as Ht. cbv zeta in Ht.
    destruct Hon as [Ho Hd]. rewrite Ho, Hd in Ht.
    destruct (spec_triangle_step k Hk) as [E1 E2]. cbv zeta in E2.
    rewrite E1 in Ht. rewrite E2 in Ht.
    apply IH.
    + lia.
    + unfold on_cycle. rewrite Ht. split; reflexivity.
    + rewrite Ht. exact Hsp.
    + exact Hrest.
Qed.

Lemma spec_triangle_bounds (n : Z) : (0 <= spec_triangle n <= 100)%Z.
Proof.
  unfold spec_triangle.
  pose proof (Z.mod_pos_bound n 100 ltac:(lia)).
  destruct (Z.leb_spec (n mod 100) 50); lia.
Qed.

(** The wave has period 100: 50 steps of +2 up to 100, 50 steps of -2 down
    to 0, and it is at 0 at the multiples of 100 only. *)
Lemma spec_triangle_shape (n : Z) :
  spec_triangle (n + 100) = spec_triangle n /\
  (0 <= n < 50 -> spec_triangle n = 2 * n)%Z /\
  (50 <= n <= 100 -> spec_triangle n = 200 - 2 * n)%Z /\
  (spec_triangle n = 0 -> n mod 100 = 0)%Z.
Proof.
  unfold spec_triangle. repeat split.
  - replace (n + 100)%Z with (n + 1 * 100)%Z by lia.
    rewrite Z.mod_add by lia. reflexivity.
  - intro H. rewrite Z.mod_small by lia.
    destruct (Z.leb_spec n 50); lia.
  - intro H. destruct (Z.eq_dec n 100) as [->|Hn]; [reflexivity|].
    rewrite Z.mod_small by lia.
    destruct (Z.leb_spec n 50); lia.
  - pose proof (Z.mod_pos_bound n 100 ltac:(lia)).
    destruct (Z.leb_spec (n mod 100) 50); lia.
Qed.

(** An accepted tick becomes the last accepted one. *)
Lemma tick_last_update (now : Q) (cd : bool) (g : string) (s : EyeTracker) :
  AM_FRAME_INTERVAL <= now - am_last_update (am s) ->
  am_last_update (am (update_am_state now cd g s)) = now.
Proof.
  intro H. destruct cd.
  - rewrite (tick_face now g s H). reflexivity.
  - rewrite (tick_no_face now g s H). reflexivity.
Qed.

Lemma last_cons_default {A : Type} (l : list A) :
  forall a d, last (a :: l) d = last l a.
Proof.
  induction l as [|b l IH]; intros a d; [reflexivity|].
  change (last (a :: b :: l) d) with (last (b :: l) d).
  rewrite !IH. reflexivity.
Qed.

(** After a run of accepted ticks the last update is the last of them. *)
Lemma am_run_last_update (ticks : list (Q * bool * string)) :
  forall s,
    spaced (am_last_update (am s)) (tick_times ticks) ->
    am_last_update (am (am_run ticks s)) =
    last (tick_times ticks) (am_last_update (am s)).
Proof.
  induction ticks as [|[[now cd] g] rest IH]; intros s Hsp; [reflexivity|].
  destruct Hsp as [Hgap Hsp]. simpl in Hgap.
  change (am_run ((now, cd, g) :: rest) s)
    with (am_run rest (update_am_state now cd g s)).
  pose proof (tick_last_update now cd g s Hgap) as Hl.
  rewrite IH by (rewrite Hl; exact Hsp).
  rewrite Hl. change (tick_times ((now, cd, g) :: rest)) with (now :: tick_times rest).
  symmetry. apply last_cons_default.
Qed.

(** C3.  A tick less than 40 ms after the last accepted one changes nothing.
    An accepted tick becomes the last accepted one: the time of the last
    update is its clock reading, so a tick less than 40 ms after it changes
    nothing either.  An accepted tick without a face sets the openness to 0
    and leaves the direction and the phase as they were.  An accepted tick
    with a face adds twice the direction to the openness, clamps it to
    [0, 100], and flips the direction exactly when the openness is then 0 or
    100.  From the initial state, with a face on every tick and the ticks at
    least 40 ms apart, the openness after [n] ticks is the triangle wave at
    [n]: period 100, 50 steps of 2 up and 50 down, within [0, 100]. *)
Theorem am_oscillator_triangle_wave :
  (forall now cd g s,
      now - am_last_update (am s) < AM_FRAME_INTERVAL ->
      update_am_state now cd g s = s) /\
  (forall now g s,
      AM_FRAME_INTERVAL <= now - am_last_update (am s) ->
      let a := am (update_am_state now false g s) in
      am_openness a = 0%Z /\ am_open_dir a = am_open_dir (am s) /\
      am_phase a = am_phase (am s) /\ am_last_update a = now) /\
  (forall now g s,
      AM_FRAME_INTERVAL <= now - am_last_update (am s) ->
      let a := am (update_am_state now true g s) in
      am_openness a =
      Z.max 0 (Z.min 100 (am_openness (am s) + 2 * am_open_dir (am s))) /\
      (am_openness a = 0%Z \/ am_openness a = 100%Z ->
       am_open_dir a = (- am_open_dir (am s))%Z) /\
      (am_openness a <> 0%Z -> am_openness a <> 100%Z ->
       am_open_dir a = am_open_dir (am s)) /\
      am_last_update a = now) /\
  (forall now cd g now' cd' g' s,
      AM_FRAME_INTERVAL <= now - am_last_update (am s) ->
      now' - now < AM_FRAME_INTERVAL ->
      update_am_state now' cd' g' (update_am_state now cd g s) =
      update_am_state now cd g s) /\
  (forall t0 ticks,
      spaced t0 (tick_times ticks) -> all_detected ticks ->
      let a := am (am_run ticks (init t0)) in
      let n := Z.of_nat (List.length ticks) in
      am_openness a = spec_triangle n /\ am_open_dir a = spec_slope n /\
      (0 <= am_openness a <= 100)%Z /\
      am_last_update a = last (tick_times ticks) t0) /\
  (forall n,
      spec_triangle (n + 100) = spec_triangle n /\
      (0 <= n < 50 -> spec_triangle n = 2 * n)%Z /\
      (50 <= n <= 100 -> spec_triangle n = 200 - 2 * n)%Z /\
      (spec_triangle n = 0 -> n mod 100 = 0)%Z).
Proof.
  split; [exact tick_skipped|].
  split.
  { intros now g s H. rewrite (tick_no_face now g s H). simpl. auto. }
  split.
  { intros now g s H. rewrite (tick_face now g s H). cbv zeta. simpl.
    replace (am_openness (am s) + am_open_dir (am s) * 2)%Z
      with (am_openness (am s) + 2 * am_open_dir (am s))%Z by lia.
    set (o := Z.max 0 (Z.min 100 _)).
    split; [reflexivity|].
    destruct (Z.eqb_spec o 0), (Z.eqb_spec o 100); simpl;
      (split; [|split]); intros; try reflexivity; lia. }
  split.
  { intros now cd g now' cd' g' s H H'. apply tick_skipped.
    rewrite (tick_last_update now cd g s H). exact H'. }
  split; [|exact spec_triangle_shape].
  intros t0 ticks Hsp Hall.
  pose proof (am_run_on_cycle ticks (init t0) 0 ltac:(lia)) as H.
  destruct H as [Ho Hd]; try assumption.
  { split; reflexivity. }
  cbv zeta. rewrite Z.add_0_l in Ho, Hd. rewrite Ho, Hd.
  split; [reflexivity|]. split; [reflexivity|].
  split; [apply spec_triangle_bounds|].
  apply (am_run_last_update ticks (init t0) Hsp).
Qed.

(** Three ticks with a face, one second apart, from the initial state: the
    openness is 6 and the last update is the third tick; a tick 10 ms after
    an accepted one changes nothing. *)
Lemma am_oscillator_triangle_wave_witness :
  (spaced 0 (tick_times (ticks_at [1; 2; 3])) /\
   all_detected (ticks_at [1; 2; 3]) /\
   am_openness (am (am_run (ticks_at [1; 2; 3]) (init 0))) = 6%Z /\
   am_last_update (am (am_run (ticks_at [1; 2; 3]) (init 0))) = 3) /\
  (AM_FRAME_INTERVAL <= 1 - am_last_update (am (init 0)) /\
   (101 # 100) - 1 < AM_FRAME_INTERVAL /\
   update_am_state (101 # 100) true "CENTRO"
                   (update_am_state 1 true "CENTRO" (init 0)) =
   update_am_state 1 true "CENTRO" (init 0)).
Proof.
  assert (Hs : spaced 0 (tick_times (ticks_at [1; 2; 3]))).
  { simpl. unfold Qle. simpl. lia. }
  assert (Ha : all_detected (ticks_at [1; 2; 3])).
  { repeat constructor. }
  assert (H1 : AM_FRAME_INTERVAL <= 1 - am_last_update (am (init 0))).
  { unfold Qle. simpl. lia. }
  assert (H2 : (101 # 100) - 1 < AM_FRAME_INTERVAL) by reflexivity.
  split.
  - split; [exact Hs|]. split; [exact Ha|].
    destruct (proj1 (proj2 (proj2 (proj2 (proj2 am_oscillator_triangle_wave))))
                    0 (ticks_at [1; 2; 3]) Hs Ha) as (Ho & _ & _ & Hl).
    split; [exact Ho|exact Hl].
  - split; [exact H1|]. split; [exact H2|].
    exact (proj1 (proj2 (proj2 (proj2 am_oscillator_triangle_wave)))
                 1 true "CENTRO"%string (101 # 100) true "CENTRO"%string
                 (init 0) H1 H2).
Defined.

(** One full period on the model itself: up to 100 in 50 ticks, back to 0
    and rising again after 100. *)
Example am_half_period :
  am_openness (am (am_run (regular_ticks 50) (init 0))) = 100%Z /\
  am_open_dir (am (am_run (regular_ticks 50) (init 0))) = (-1)%Z.
Proof. split; vm_compute; reflexivity. Qed.

Example am_full_period :
  am_openness (am (am_run (regular_ticks 100) (init 0))) = 0%Z /\
  am_open_dir (am (am_run (regular_ticks 100) (init 0))) = 1%Z.
Proof. split; vm_compute; reflexivity. Qed.

(** A tick that comes too soon is lost: of five ticks 25 ms apart, the
    first is too early, the second and the fourth are accepted, the third
    and the fifth come less than 40 ms after an accepted one. *)
Example am_ticks_too_soon :
  let s := am_run (ticks_at [25 # 1000; 50 # 1000; 75 # 1000; 100 # 1000;
                             125 # 1000]) (init 0) in
  am_openness (am s) = 4%Z /\ am_last_update (am s) = 100 # 1000.
Proof. split; vm_compute; reflexivity. Qed.

(** Off the cycle: after a tick without a face on the way down, the next
    tick with a face only turns the direction. *)
Example am_after_sleep :
  let s1 := am_run (regular_ticks 60) (init 0) in
  let s2 := update_am_state 5 false "NO_DETECTADO" s1 in
  let s3 := update_am_state 6 true "CENTRO" s2 in
  (am_openness (am s2), am_open_dir (am s2)) = (0, -1)%Z /\
  (am_openness (am s3), am_open_dir (am s3)) = (0, 1)%Z.
Proof. split; vm_compute; reflexivity. Qed.

(** ** Pixels *)

(** [int()] is the truncation towards zero. *)
Lemma int_of_truncate (x : Q) : int_of x = spec_truncate x.
Proof.
  destruct x as [n d].
  unfold int_of, spec_truncate, Qle_bool, Qceiling, Qfloor, Qopp.
  cbn [Qnum Qden]. rewrite Z.mul_1_r. change (0 * Zpos d)%Z with 0%Z.
  destruct (Z.leb_spec 0 n) as [Hn|Hn].
  - apply Z.quot_div_nonneg; lia.
  - rewrite <- (Z.opp_involutive n) at 1.
    rewrite Z.quot_opp_l by lia. f_equal.
    apply Z.quot_div_nonneg; lia.
Qed.

(** The points the geometry functions work on are the pixel-truncated
    coordinates of the landmarks. *)
Lemma to_pixel_spec (shape : frame_shape) (lm : landmark) :
  to_pixel shape lm = spec_pixel shape lm.
Proof.
  unfold to_pixel, spec_pixel. rewrite !int_of_truncate. reflexivity.
Qed.

Lemma sum_Q_inject_Z (l : list Z) : sum_Q (map inject_Z l) == inject_Z (sum_Z l).
Proof.
  induction l as [|a l IH]; [reflexivity|].
  change (sum_Q (map inject_Z (a :: l))) with (inject_Z a + sum_Q (map inject_Z l)).
  change (sum_Z (a :: l)) with (a + sum_Z l)%Z.
  rewrite IH, inject_Z_plus. reflexivity.
Qed.

(** The mean the code takes is the mean of the pixel rows. *)
Lemma mean_y_rows (shape : frame_shape) (lms : list landmark) :
  mean_y (map (to_pixel shape) lms) == mean_row shape lms.
Proof.
  unfold mean_y, mean_row, mean.
  replace (map (fun lm => inject_Z (snd (spec_pixel shape lm))) lms)
    with (map inject_Z (map snd (map (to_pixel shape) lms))).
  - rewrite sum_Q_inject_Z, !length_map. reflexivity.
  - rewrite !map_map. apply map_ext. intro lm.
    rewrite to_pixel_spec. reflexivity.
Qed.

Lemma eyebrow_distance_spec (brows eyes : list landmark) (shape : frame_shape) :
  eyebrow_distance brows eyes shape == brow_eye_distance brows eyes shape.
Proof.
  unfold eyebrow_distance, brow_eye_distance.
  rewrite !mean_y_rows. reflexivity.
Qed.

(** ** The eyebrow height *)

Lemma qmax_cases (a b : Q) :
  (a < b /\ qmax a b = b) \/ (b <= a /\ qmax a b = a).
Proof.
  unfold qmax. destruct (Qgtb b a) eqn:E.
  - left. apply Qgtb_gt in E. auto.
  - right. apply Qgtb_le in E. auto.
Qed.

Lemma qmin_cases (a b : Q) :
  (b < a /\ qmin a b = b) \/ (a <= b /\ qmin a b = a).
Proof.
  unfold qmin. destruct (Qltb b a) eqn:E.
  - left. apply Qltb_lt in E. auto.
  - right. apply Qltb_ge in E. auto.
Qed.

(** The normalisation, piece by piece. *)
Lemma normalize_distance_cases (d : Q) :
  (d <= 20 /\ normalize_distance d == 0) \/
  (20 <= d /\ d <= 60 /\ normalize_distance d == (d - 20) / 40) \/
  (60 <= d /\ normalize_distance d == 1).
Proof.
  unfold normalize_distance.
  assert (Hx : d == 40 * ((d - 20) / 40) + 20) by field.
  set (x := (d - 20) / 40) in *.
  destruct (qmin_cases 1 x) as [[H1 E1]|[H1 E1]]; rewrite E1;
    destruct (qmax_cases 0 x) as [[H2 E2]|[H2 E2]];
    destruct (qmax_cases 0 1) as [[H3 E3]|[H3 E3]];
    rewrite ?E2, ?E3.
  all: try (exfalso; lra).
  all: try (right; left; repeat split; try reflexivity; lra).
  all: try (left; split; [lra|reflexivity]).
  all: try (right; right; split; [lra|reflexivity]).
  all: try (left; split; [lra|]; lra).
Qed.

Lemma spec_eyebrow_cases (d : Q) :
  (d <= 20 /\ spec_eyebrow d == 0) \/
  (20 <= d /\ d <= 60 /\ spec_eyebrow d == (d - 20) / 40) \/
  (60 <= d /\ spec_eyebrow d == 1).
Proof.
  unfold spec_eyebrow, clamp.
  destruct (Q.min_spec 40 (d - 20)) as [[H1 E1]|[H1 E1]]; rewrite E1;
    destruct (Q.max_spec 0 (d - 20)) as [[H2 E2]|[H2 E2]];
    destruct (Q.max_spec 0 40) as [[H3 E3]|[H3 E3]];
    rewrite ?E2, ?E3.
  all: try (exfalso; lra).
  all: try (right; left; repeat split; try reflexivity; lra).
  all: try (left; split; [lra|reflexivity]).
  all: try (right; right; split; [lra|reflexivity]).
  all: try (left; split; [lra|]; field_simplify; lra).
Qed.

Lemma get_eyebrow_height_ok (brows eyes : list landmark) (shape : frame_shape) :
  brows <> [] -> eyes <> [] ->
  get_eyebrow_height brows eyes shape =
  Ok (normalize_distance (eyebrow_distance brows eyes shape)).
Proof.
  intros Hb He. destruct brows as [|b brows]; [congruence|].
  destruct eyes as [|e eyes]; [congruence|]. reflexivity.
Qed.

Lemma get_eyebrow_height_inv (brows eyes : list landmark) (shape : frame_shape)
      (v : Q) :
  get_eyebrow_height brows eyes shape = Ok v ->
  v = normalize_distance (eyebrow_distance brows eyes shape).
Proof.
  destruct brows as [|b brows]; [discriminate|].
  destruct eyes as [|e eyes]; [discriminate|].
  intro H. injection H as <-. reflexivity.
Qed.

Lemma normalize_distance_mono (d d' : Q) :
  d <= d' -> normalize_distance d <= normalize_distance d'.
Proof.
  intro H.
  assert (Hx : d == 40 * ((d - 20) / 40) + 20) by field.
  assert (Hx' : d' == 40 * ((d' - 20) / 40) + 20) by field.
  destruct (normalize_distance_cases d) as [[A E]|[(A & B & E)|[A E]]];
    destruct (normalize_distance_cases d') as [[A' E']|[(A' & B' & E')|[A' E']]];
    rewrite E, E';
    set (x := (d - 20) / 40) in *; set (x' := (d' - 20) / 40) in *; lra.
Qed.

(** C4 (as amended).  For non-empty point sets the eyebrow elevation is
    clamp(|mean(eyebrow_y) - mean(eye_y)| - 20, 0, 40) / 40, on the absolute
    difference of the two mean pixel rows: the mean, over the landmarks of
    the brow and over those of the eye, of the vertical coordinate scaled by
    the height of the frame and truncated to a whole pixel.  It is 0 when
    that distance is at most 20, 1 when it is at least 60, and it does not
    decrease when the distance grows. *)
Theorem eyebrow_height_formula (brows eyes : list landmark) (shape : frame_shape) :
  brows <> [] -> eyes <> [] ->
  exists v,
    get_eyebrow_height brows eyes shape = Ok v /\
    v == spec_eyebrow (brow_eye_distance brows eyes shape) /\
    (brow_eye_distance brows eyes shape <= 20 -> v == 0) /\
    (60 <= brow_eye_distance brows eyes shape -> v == 1) /\
    (forall brows' eyes' shape' v',
        get_eyebrow_height brows' eyes' shape' = Ok v' ->
        brow_eye_distance brows eyes shape
        <= brow_eye_distance brows' eyes' shape' ->
        v <= v').
Proof.
  intros Hb He. exists (normalize_distance (eyebrow_distance brows eyes shape)).
  split; [apply get_eyebrow_height_ok; assumption|].
  pose proof (eyebrow_distance_spec brows eyes shape) as Hd.
  set (d := eyebrow_distance brows eyes shape) in *.
  set (d' := brow_eye_distance brows eyes shape) in *.
  assert (Hx : d == 40 * ((d - 20) / 40) + 20) by field.
  assert (Hx' : d' == 40 * ((d' - 20) / 40) + 20) by field.
  repeat split.
  - destruct (normalize_distance_cases d) as [[A E]|[(A & B & E)|[A E]]];
      destruct (spec_eyebrow_cases d') as [[A' E']|[(A' & B' & E')|[A' E']]];
      rewrite E, E'; set (x := (d - 20) / 40) in *;
      set (x' := (d' - 20) / 40) in *; lra.
  - intro H.
    destruct (normalize_distance_cases d) as [[A E]|[(A & B & E)|[A E]]];
      rewrite E; set (x := (d - 20) / 40) in *; lra.
  - intro H.
    destruct (normalize_distance_cases d) as [[A E]|[(A & B & E)|[A E]]];
      rewrite E; set (x := (d - 20) / 40) in *; lra.
  - intros brows' eyes' shape' v' Hv' Hle.
    apply get_eyebrow_height_inv in Hv'. subst v'.
    apply normalize_distance_mono.
    subst d. rewrite !eyebrow_distance_spec. exact Hle.
Qed.

(** Two brow landmarks between the pixels of rows 99 and 101, an eye
    landmark on row 140: the mean rows are 100 and 140, the distance is 40,
    the elevation 1/2. *)
Lemma eyebrow_height_formula_witness :
  [off_grid 300 99; off_grid 340 101] <> [] /\ [off_grid 320 140] <> [] /\
  brow_eye_distance [off_grid 300 99; off_grid 340 101] [off_grid 320 140] vga
  == 40 /\
  exists v,
    get_eyebrow_height [off_grid 300 99; off_grid 340 101] [off_grid 320 140] vga
    = Ok v /\
    v == spec_eyebrow (brow_eye_distance [off_grid 300 99; off_grid 340 101]
                                         [off_grid 320 140] vga) /\
    v == 1 # 2.
Proof.
  assert (Hb : [off_grid 300 99; off_grid 340 101] <> []) by discriminate.
  assert (He : [off_grid 320 140] <> []) by discriminate.
  assert (Hd : brow_eye_distance [off_grid 300 99; off_grid 340 101]
                                 [off_grid 320 140] vga == 40).
  { vm_compute. reflexivity. }
  split; [exact Hb|]. split; [exact He|]. split; [exact Hd|].
  destruct (eyebrow_height_formula [off_grid 300 99; off_grid 340 101]
                                   [off_grid 320 140] vga Hb He)
    as (v & Hv & Hs & _).
  exists v. split; [exact Hv|]. split; [exact Hs|].
  rewrite Hs. vm_compute. reflexivity.
Defined.

(** C4, as the specification states it, fails: the code takes the absolute
    value of the difference of the means.  With the brow above the eye (row
    100 against row 140) the signed formula gives 0, the code 1/2. *)
Lemma eyebrow_signed_formula_fails :
  ~ (forall brows eyes shape v,
        get_eyebrow_height brows eyes shape = Ok v ->
        v == spec_eyebrow_signed (mean_y (map (to_pixel shape) brows))
                                 (mean_y (map (to_pixel shape) eyes))).
Proof.
  intro H.
  specialize (H [at_row 100] [at_row 140] vga _ eq_refl).
  vm_compute in H. discriminate H.
Qed.

Example eyebrow_example :
  (exists v, get_eyebrow_height [at_row 100] [at_row 140] vga = Ok v /\
             v == 1 # 2) /\
  spec_eyebrow_signed (mean_y (map (to_pixel vga) [at_row 100]))
                      (mean_y (map (to_pixel vga) [at_row 140])) == 0.
Proof.
  split.
  - eexists. split; [reflexivity|]. vm_compute. reflexivity.
  - vm_compute. reflexivity.
Qed.

(** ** The eye aspect ratio *)

Section AspectRatio.

Local Open Scope R_scope.

Lemma euclidean_dist (p q : Z * Z) : euclidean p q = dist p q.
Proof.
  unfold euclidean, dist. f_equal.
  rewrite plus_IZR, !mult_IZR, !minus_IZR. ring.
Qed.

Lemma euclidean_nonneg (p q : Z * Z) : 0 <= euclidean p q.
Proof. unfold euclidean. apply sqrt_pos. Qed.

Lemma euclidean_same (p : Z * Z) : euclidean p p = 0.
Proof.
  unfold euclidean. rewrite !Z.sub_diag. simpl. apply sqrt_0.
Qed.

Lemma euclidean_zero (p q : Z * Z) : euclidean p q = 0 -> p = q.
Proof.
  unfold euclidean. intro H.
  set (n := ((fst p - fst q) * (fst p - fst q)
             + (snd p - snd q) * (snd p - snd q))%Z) in H.
  assert (Hn : (0 <= n)%Z).
  { subst n. apply Z.add_nonneg_nonneg; apply Z.square_nonneg. }
  apply sqrt_eq_0 in H; [|apply IZR_le; exact Hn].
  apply eq_IZR in H.
  destruct p as [px py], q as [qx qy]. simpl in *.
  pose proof (Z.square_nonneg (px - qx)) as Sx.
  pose proof (Z.square_nonneg (py - qy)) as Sy.
  assert (px - qx = 0 /\ py - qy = 0)%Z as [Hx Hy].
  { subst n. split; apply Z.eq_square_0 ; lia. }
  f_equal; lia.
Qed.

(** The ratio of a contour of six points whose corners differ. *)
Lemma aspect_ratio_ok (p0 p1 p2 p3 p4 p5 : landmark) (shape : frame_shape) :
  to_pixel shape p0 <> to_pixel shape p3 ->
  calculate_eye_aspect_ratio [p0; p1; p2; p3; p4; p5] shape =
  Ok ((euclidean (to_pixel shape p1) (to_pixel shape p5)
       + euclidean (to_pixel shape p2) (to_pixel shape p4))
      / (2 * euclidean (to_pixel shape p0) (to_pixel shape p3))).
Proof.
  intro Hne. unfold calculate_eye_aspect_ratio.
  cbn [map nth_error]. unfold rdiv.
  destruct (Req_dec_T _ 0) as [E|_]; [|reflexivity].
  exfalso. apply Hne. apply euclidean_zero. Lra.lra.
Qed.

(** The ratio of a contour of six points whose corners fall on one pixel:
    the denominator is zero. *)
Lemma aspect_ratio_zero_span (p0 p1 p2 p3 p4 p5 : landmark) (shape : frame_shape) :
  to_pixel shape p0 = to_pixel shape p3 ->
  calculate_eye_aspect_ratio [p0; p1; p2; p3; p4; p5] shape =
  Err FloatDivisionByZero.
Proof.
  intro Heq. unfold calculate_eye_aspect_ratio.
  cbn [map nth_error]. unfold rdiv. rewrite Heq, euclidean_same.
  destruct (Req_dec_T _ 0) as [_|N]; [reflexivity|].
  exfalso. apply N. ring.
Qed.

(** C9.  For six contour points whose two corner points do not fall on the
    same pixel, the eye aspect ratio is
    (dist(p1,p5) + dist(p2,p4)) / (2 * dist(p0,p3)), with the Euclidean
    distance on the pixel-truncated coordinates (the normalised coordinates
    scaled by the width and the height of the frame and truncated towards
    zero), and it is not negative. *)
Theorem aspect_ratio_formula (p0 p1 p2 p3 p4 p5 : landmark) (shape : frame_shape) :
  spec_pixel shape p0 <> spec_pixel shape p3 ->
  exists ear,
    calculate_eye_aspect_ratio [p0; p1; p2; p3; p4; p5] shape = Ok ear /\
    ear = (dist (spec_pixel shape p1) (spec_pixel shape p5)
           + dist (spec_pixel shape p2) (spec_pixel shape p4))
          / (2 * dist (spec_pixel shape p0) (spec_pixel shape p3)) /\
    0 <= ear.
Proof.
  rewrite <- !to_pixel_spec.
  intro Hne. eexists. split; [apply aspect_ratio_ok; exact Hne|].
  split; [rewrite !euclidean_dist; reflexivity|].
  pose proof (euclidean_nonneg (to_pixel shape p1) (to_pixel shape p5)).
  pose proof (euclidean_nonneg (to_pixel shape p2) (to_pixel shape p4)).
  pose proof (euclidean_nonneg (to_pixel shape p0) (to_pixel shape p3)) as HC.
  assert (euclidean (to_pixel shape p0) (to_pixel shape p3) <> 0) as HC'.
  { intro E. apply Hne. apply euclidean_zero. exact E. }
  apply Rmult_le_pos; [Lra.lra|].
  apply Rlt_le, Rinv_0_lt_compat. Lra.lra.
Qed.

End AspectRatio.

(** An open eye whose landmarks sit between the pixels: they are truncated
    to the pixels (300,240), (310,235), (320,235), (330,240), (320,245),
    (310,245), and the ratio is the formula on these. *)
Lemma aspect_ratio_formula_witness :
  spec_pixel vga (off_grid 300 240) <> spec_pixel vga (off_grid 330 240) /\
  map (spec_pixel vga) off_grid_contour =
  [(300, 240); (310, 235); (320, 235); (330, 240); (320, 245); (310, 245)]%Z /\
  exists ear,
    calculate_eye_aspect_ratio off_grid_contour vga = Ok ear /\
    ear = ((dist (310, 235)%Z (310, 245)%Z + dist (320, 235)%Z (320, 245)%Z)
           / (2 * dist (300, 240)%Z (330, 240)%Z))%R /\
    (0 <= ear)%R.
Proof.
  assert (H : spec_pixel vga (off_grid 300 240) <> spec_pixel vga (off_grid 330 240)).
  { vm_compute. discriminate. }
  assert (Hp : map (spec_pixel vga) off_grid_contour =
               [(300, 240); (310, 235); (320, 235); (330, 240); (320, 245);
                (310, 245)]%Z).
  { vm_compute. reflexivity. }
  split; [exact H|]. split; [exact Hp|].
  destruct (aspect_ratio_formula
              (off_grid 300 240) (off_grid 310 235) (off_grid 320 235)
              (off_grid 330 240) (off_grid 320 245) (off_grid 310 245) vga H)
    as (ear & He & Hf & Hpos).
  exists ear. split; [exact He|]. split; [|exact Hpos].
  change (spec_pixel vga (off_grid 300 240)) with (300, 240)%Z in Hf.
  change (spec_pixel vga (off_grid 310 235)) with (310, 235)%Z in Hf.
  change (spec_pixel vga (off_grid 320 235)) with (320, 235)%Z in Hf.
  change (spec_pixel vga (off_grid 330 240)) with (330, 240)%Z in Hf.
  change (spec_pixel vga (off_grid 320 245)) with (320, 245)%Z in Hf.
  change (spec_pixel vga (off_grid 310 245)) with (310, 245)%Z in Hf.
  exact Hf.
Defined.

(** The value on the open contour: both lids are 10 pixels apart, the
    corners 30, the ratio is 1/3. *)
Example aspect_ratio_open_contour :
  calculate_eye_aspect_ratio open_contour vga = Ok ((10 + 10) / (2 * 30))%R.
Proof.
  unfold open_contour. rewrite aspect_ratio_ok by (vm_compute; discriminate).
  do 2 f_equal.
  - f_equal.
    + unfold euclidean.
      replace (to_pixel vga (at_pixel 310 235)) with (310, 235)%Z
        by (vm_compute; reflexivity).
      replace (to_pixel vga (at_pixel 310 245)) with (310, 245)%Z
        by (vm_compute; reflexivity).
      cbn [fst snd].
      replace (IZR ((310 - 310) * (310 - 310) + (235 - 245) * (235 - 245)))
        with (10 * 10)%R by (simpl; Lra.lra).
      apply sqrt_square. Lra.lra.
    + unfold euclidean.
      replace (to_pixel vga (at_pixel 320 235)) with (320, 235)%Z
        by (vm_compute; reflexivity).
      replace (to_pixel vga (at_pixel 320 245)) with (320, 245)%Z
        by (vm_compute; reflexivity).
      cbn [fst snd].
      replace (IZR ((320 - 320) * (320 - 320) + (235 - 245) * (235 - 245)))
        with (10 * 10)%R by (simpl; Lra.lra).
      apply sqrt_square. Lra.lra.
  - f_equal. unfold euclidean.
    replace (to_pixel vga (at_pixel 300 240)) with (300, 240)%Z
      by (vm_compute; reflexivity).
    replace (to_pixel vga (at_pixel 330 240)) with (330, 240)%Z
      by (vm_compute; reflexivity).
    cbn [fst snd].
    replace (IZR ((300 - 330) * (300 - 330) + (240 - 240) * (240 - 240)))
      with (30 * 30)%R by (simpl; Lra.lra).
    apply sqrt_square. Lra.lra.
Qed.

(** C5, the failing input.  The six landmarks of [collapsed_contour] fall on
    one pixel, the corners with them: the division of
    [calculate_eye_aspect_ratio] has a zero denominator and no guard. *)
Theorem aspect_ratio_division_unguarded :
  calculate_eye_aspect_ratio collapsed_contour vga = Err FloatDivisionByZero.
Proof.
  apply aspect_ratio_zero_span. reflexivity.
Qed.

(** The division that is guarded: the [fps] of the JSON file is the number
    of frames over the duration when the duration is positive, 30 otherwise. *)
Lemma fps_guard (t_stop : Q) (s : EyeTracker) (d : animation_data) :
  In (SavedJson d) (outputs (stop_recording t_stop s)) ->
  ~ In (SavedJson d) (outputs s) ->
  let total_time := t_stop - recording_start_time (recorder s) in
  let n := List.length (animation_frames (recorder s)) in
  ad_duration d = total_time /\ ad_total_frames d = n /\
  (0 < total_time -> ad_fps d = inject_Z (Z.of_nat n) / total_time) /\
  (total_time <= 0 -> ad_fps d = 30).
Proof.
  unfold stop_recording. intros Hin Hnot.
  destruct (is_recording (recorder s)).
  - destruct (_ && _).
    + simpl in Hin. rewrite <- app_assoc in Hin. apply in_app_or in Hin.
      destruct Hin as [Hin|[Hin|[Hin|[]]]]; [contradiction| |discriminate].
      injection Hin as <-. simpl. repeat split.
      * intro H. apply Qgtb_gt in H. rewrite H. reflexivity.
      * intro H. apply Qgtb_le in H. rewrite H. reflexivity.
    + simpl in Hin. apply in_app_or in Hin.
      destruct Hin as [Hin|[Hin|[]]]; [contradiction|discriminate].
  - simpl in Hin. apply in_app_or in Hin.
    destruct Hin as [Hin|[Hin|[]]]; [contradiction|discriminate].
Qed.

(** ** The recorder *)

Lemma capture_idle (c : capture_call) (s : EyeTracker) :
  is_recording (recorder s) = false -> capture c s = s.
Proof.
  intro H. unfold capture, capture_frame_for_recording. rewrite H. reflexivity.
Qed.

Lemma capture_over_limit (c : capture_call) (s : EyeTracker) :
  is_recording (recorder s) = true ->
  max_recording_time < c_now c - recording_start_time (recorder s) ->
  capture c s = stop_recording (c_stop c) (emit TimeLimitReached s).
Proof.
  intros H Hover. apply Qgtb_gt in Hover.
  unfold capture, capture_frame_for_recording. rewrite H, Hover. reflexivity.
Qed.

Lemma capture_rejected (c : capture_call) (s : EyeTracker) :
  is_recording (recorder s) = true ->
  within_limit s c ->
  c_now c - last_frame_time (recorder s) < frame_interval ->
  capture c s = s.
Proof.
  intros H Hin Hgap. apply Qgtb_le in Hin. apply Qgeb_lt in Hgap.
  unfold capture, capture_frame_for_recording. rewrite H, Hin, Hgap. reflexivity.
Qed.

Lemma capture_accepted (c : capture_call) (s : EyeTracker) :
  is_recording (recorder s) = true ->
  within_limit s c ->
  frame_interval <= c_now c - last_frame_time (recorder s) ->
  exists frame,
    fd_timestamp frame = c_now c - recording_start_time (recorder s) /\
    recorder (capture c s) =
    mkRecorder true (animation_frames (recorder s) ++ [frame])
               (video_frames (recorder s)
                ++ [c_now c - recording_start_time (recorder s)])
               (recording_start_time (recorder s)) (c_now c) /\
    flushes (capture c s) = flushes s.
Proof.
  intros H Hin Hgap. apply Qgtb_le in Hin. apply Qgeb_ge in Hgap.
  unfold capture, capture_frame_for_recording. rewrite H, Hin, Hgap. simpl.
  eexists. split; [|split].
  2: { destruct (Nat.eqb _ _); reflexivity. }
  - reflexivity.
  - destruct (Nat.eqb _ _); [|reflexivity].
    unfold flushes, emit. simpl. rewrite filter_app, length_app. simpl. lia.
Qed.

(** [stop_recording] on an active session: the session is inactive, one
    flush was made, the log is kept. *)
Lemma stop_recording_active (t : Q) (s : EyeTracker) :
  is_recording (recorder s) = true ->
  is_recording (recorder (stop_recording t s)) = false /\
  flushes (stop_recording t s) = S (flushes s) /\
  animation_frames (recorder (stop_recording t s)) = animation_frames (recorder s) /\
  recording_start_time (recorder (stop_recording t s)) =
  recording_start_time (recorder s) /\
  last_frame_time (recorder (stop_recording t s)) = last_frame_time (recorder s).
Proof.
  intro H. unfold stop_recording. rewrite H.
  destruct (_ && _); unfold flushes; simpl;
    rewrite ?filter_app, ?length_app; simpl; repeat split; lia.
Qed.

Lemma flushes_emit_notice (s : EyeTracker) :
  flushes (emit TimeLimitReached s) = flushes s.
Proof.
  unfold flushes, emit. simpl. rewrite filter_app, length_app. simpl. lia.
Qed.

(** The three things a call can do to an active session. *)
Lemma capture_cases (c : capture_call) (s : EyeTracker) :
  is_recording (recorder s) = true ->
  (max_recording_time < c_now c - recording_start_time (recorder s) /\
   capture c s = stop_recording (c_stop c) (emit TimeLimitReached s)) \/
  (within_limit s c /\
   c_now c - last_frame_time (recorder s) < frame_interval /\ capture c s = s) \/
  (within_limit s c /\
   frame_interval <= c_now c - last_frame_time (recorder s) /\
   exists frame,
     fd_timestamp frame = c_now c - recording_start_time (recorder s) /\
     recorder (capture c s) =
     mkRecorder true (animation_frames (recorder s) ++ [frame])
                (video_frames (recorder s)
                 ++ [c_now c - recording_start_time (recorder s)])
                (recording_start_time (recorder s)) (c_now c) /\
     flushes (capture c s) = flushes s).
Proof.
  intro H.
  destruct (Qlt_le_dec max_recording_time
                       (c_now c - recording_start_time (recorder s))) as [Ho|Hi].
  - left. split; [exact Ho|]. apply capture_over_limit; assumption.
  - right.
    destruct (Qlt_le_dec (c_now c - last_frame_time (recorder s)) frame_interval)
      as [Hg|Hg].
    + left. repeat split; try assumption. apply capture_rejected; assumption.
    + right. repeat split; try assumption. apply capture_accepted; assumption.
Qed.

Lemma apart_snoc (ts : list Q) (t : Q) :
  apart ts ->
  match rev ts with
  | [] => True
  | t1 :: _ => frame_interval <= t - t1
  end ->
  apart (ts ++ [t]).
Proof.
  induction ts as [|a ts IH]; intros Ha Hlast.
  - simpl. auto.
  - destruct Ha as [Hhead Htail].
    destruct ts as [|b ts].
    + simpl in *. auto.
    + change ((a :: b :: ts) ++ [t]) with (a :: ((b :: ts) ++ [t])).
      split; [exact Hhead|].
      apply IH; [exact Htail|].
      change (rev (a :: b :: ts)) with (rev (b :: ts) ++ [a]) in Hlast.
      destruct (rev (b :: ts)) as [|x xs] eqn:E.
      * apply (f_equal (@List.length Q)) in E. rewrite length_rev in E.
        discriminate E.
      * exact Hlast.
Qed.

Lemma log_spaced_capture (c : capture_call) (s : EyeTracker) :
  log_spaced s -> log_spaced (capture c s).
Proof.
  intros [Ha Hl].
  destruct (is_recording (recorder s)) eqn:Hrec.
  - destruct (capture_cases c s Hrec)
      as [[_ E]|[(_ & _ & E)|(_ & Hgap & frame & Ht & E & _)]].
    + rewrite E.
      destruct (stop_recording_active (c_stop c) (emit TimeLimitReached s) Hrec)
        as (_ & _ & Ef & Es & El).
      unfold log_spaced, timestamps. rewrite Ef, Es, El. split; assumption.
    + rewrite E. split; assumption.
    + unfold log_spaced, timestamps. rewrite E. simpl.
      rewrite map_app. simpl. rewrite rev_app_distr. simpl.
      split; [|exact Ht].
      apply apart_snoc; [exact Ha|].
      unfold timestamps in Hl.
      destruct (rev (map fd_timestamp (animation_frames (recorder s))))
        as [|t1 rest]; [exact I|].
      rewrite Ht, Hl. lra.
  - rewrite capture_idle by assumption. split; assumption.
Qed.

Lemma log_spaced_run (calls : list capture_call) :
  forall s, log_spaced s -> log_spaced (capture_run calls s).
Proof.
  induction calls as [|c rest IH]; intros s H; [exact H|].
  apply IH. apply log_spaced_capture. exact H.
Qed.

Lemma capture_run_idle (calls : list capture_call) :
  forall s, is_recording (recorder s) = false -> capture_run calls s = s.
Proof.
  induction calls as [|c rest IH]; intros s H; [reflexivity|].
  simpl. rewrite capture_idle by assumption. apply IH. exact H.
Qed.

(** Calls within the time limit keep the session active and flush nothing. *)
Lemma capture_run_within (calls : list capture_call) :
  forall s,
    is_recording (recorder s) = true ->
    Forall (within_limit s) calls ->
    is_recording (recorder (capture_run calls s)) = true /\
    recording_start_time (recorder (capture_run calls s)) =
    recording_start_time (recorder s) /\
    flushes (capture_run calls s) = flushes s.
Proof.
  induction calls as [|c rest IH]; intros s Hrec Hall; [simpl; auto|].
  inversion Hall as [|? ? Hc Hrest]; subst.
  assert (Hstep : is_recording (recorder (capture c s)) = true /\
                  recording_start_time (recorder (capture c s)) =
                  recording_start_time (recorder s) /\
                  flushes (capture c s) = flushes s).
  { destruct (capture_cases c s Hrec)
      as [[Ho _]|[(_ & _ & E)|(_ & _ & frame & _ & E & Ef)]].
    - exfalso. unfold within_limit in Hc. lra.
    - rewrite E. auto.
    - rewrite E. simpl. auto. }
  destruct Hstep as (R1 & S1 & F1).
  change (capture_run (c :: rest) s) with (capture_run rest (capture c s)).
  destruct (IH (capture c s) R1) as (R2 & S2 & F2).
  { unfold within_limit in *. rewrite S1. exact Hrest. }
  rewrite R2, S2, F2, S1, F1. auto.
Qed.

(** What [stop_recording] writes for an active session: with a log and a
    video buffer that are not empty the JSON file and then the video, with
    the frame records, their number, the duration and the frame rate;
    otherwise the notice that there is nothing to save. *)
Lemma stop_recording_outputs (t : Q) (s : EyeTracker) :
  is_recording (recorder s) = true ->
  let log := animation_frames (recorder s) in
  let video := video_frames (recorder s) in
  let total := t - recording_start_time (recorder s) in
  (log <> [] -> video <> [] ->
   exists d,
     outputs (stop_recording t s) =
     outputs s ++ [SavedJson d; SavedMp4 (List.length video)] /\
     ad_frames d = log /\ ad_total_frames d = List.length log /\
     ad_duration d = total /\
     (0 < total -> ad_fps d = inject_Z (Z.of_nat (List.length log)) / total) /\
     (total <= 0 -> ad_fps d = 30)) /\
  (log = [] \/ video = [] ->
   outputs (stop_recording t s) = outputs s ++ [NoFramesToSave]).
Proof.
  intros H log video total. unfold stop_recording. rewrite H.
  fold log video total. split.
  - intros Hl Hv.
    destruct log as [|f log']; [congruence|].
    destruct video as [|v video']; [congruence|].
    cbn [List.length Nat.ltb Nat.leb andb].
    eexists. split.
    + cbn [outputs set_recorder emit]. rewrite <- app_assoc. reflexivity.
    + cbn [ad_frames ad_total_frames ad_duration ad_fps].
      split; [reflexivity|]. split; [reflexivity|]. split; [reflexivity|].
      split; intro Ht.
      * apply Qgtb_gt in Ht. rewrite Ht. reflexivity.
      * apply Qgtb_le in Ht. rewrite Ht. reflexivity.
  - intros [Hl|Hv].
    + rewrite Hl. reflexivity.
    + rewrite Hv. cbn [List.length]. rewrite andb_false_r. reflexivity.
Qed.

(** A call within the time limit writes no file: it leaves the outputs as
    they are or adds a progress notice. *)
Lemma capture_within_outputs (c : capture_call) (s : EyeTracker) :
  is_recording (recorder s) = true -> within_limit s c ->
  is_recording (recorder (capture c s)) = true /\
  recording_start_time (recorder (capture c s)) = recording_start_time (recorder s) /\
  exists ps, outputs (capture c s) = outputs s ++ map Progress ps.
Proof.
  intros H Hin. apply Qgtb_le in Hin.
  unfold capture, capture_frame_for_recording. rewrite H, Hin.
  cbn [negb]. destruct (Qgeb _ _).
  - destruct (Nat.eqb _ _); cbn [recorder outputs set_recorder emit is_recording
                                   recording_start_time].
    + split; [reflexivity|]. split; [reflexivity|].
      eexists [_]. reflexivity.
    + split; [reflexivity|]. split; [reflexivity|].
      exists []. rewrite app_nil_r. reflexivity.
  - split; [exact H|]. split; [reflexivity|].
    exists []. rewrite app_nil_r. reflexivity.
Qed.

Lemma capture_run_within_outputs (calls : list capture_call) :
  forall s,
    is_recording (recorder s) = true ->
    Forall (within_limit s) calls ->
    exists ps, outputs (capture_run calls s) = outputs s ++ map Progress ps.
Proof.
  induction calls as [|c rest IH]; intros s Hrec Hall.
  - exists []. simpl. rewrite app_nil_r. reflexivity.
  - inversion Hall as [|? ? Hc Hrest]; subst.
    destruct (capture_within_outputs c s Hrec Hc) as (R1 & S1 & ps1 & O1).
    change (capture_run (c :: rest) s) with (capture_run rest (capture c s)).
    destruct (IH (capture c s) R1) as (ps2 & O2).
    { unfold within_limit in *. rewrite S1. exact Hrest. }
    exists (ps1 ++ ps2). rewrite O2, O1, map_app, app_assoc. reflexivity.
Qed.

(** C6.  In an active session within the time limit, a capture call whose
    clock reading is at least 1/30 s after the last accepted capture appends
    one log entry, stamped with the time since the start, and one video
    frame, and becomes the last accepted capture; a call that comes sooner
    changes nothing.  So the timestamps of the log of a session are never
    closer than 1/30 s, however the calls are timed.  The calls within the
    time limit write no file.  The first call that reads more than 60 s
    since the start stops the session and flushes it once: after the notice
    of the time limit it writes the JSON file, with the log, its length and
    the duration, and then the video with the frames of the buffer (or, with
    an empty log or buffer, the notice that there is nothing to save); the
    session is then inactive and the calls after it change nothing. *)
Theorem recorder_time_gates :
  (forall c s,
      is_recording (recorder s) = true -> within_limit s c ->
      (frame_interval <= c_now c - last_frame_time (recorder s) ->
       let r := recorder (capture c s) in
       (exists frame,
           fd_timestamp frame = c_now c - recording_start_time (recorder s) /\
           animation_frames r = animation_frames (recorder s) ++ [frame]) /\
       video_frames r =
       video_frames (recorder s) ++ [c_now c - recording_start_time (recorder s)] /\
       last_frame_time r = c_now c /\ is_recording r = true) /\
      (c_now c - last_frame_time (recorder s) < frame_interval ->
       capture c s = s)) /\
  (forall s t_start t_last calls,
      is_recording (recorder s) = false ->
      apart (timestamps (capture_run calls (start_recording t_start t_last s)))) /\
  (forall s before c after,
      is_recording (recorder s) = true ->
      Forall (within_limit s) before ->
      max_recording_time < c_now c - recording_start_time (recorder s) ->
      let s1 := capture_run before s in
      let s' := capture_run (before ++ c :: after) s in
      let log := animation_frames (recorder s1) in
      let video := video_frames (recorder s1) in
      let total := c_stop c - recording_start_time (recorder s) in
      is_recording (recorder s') = false /\
      flushes s' = S (flushes s) /\
      s' = capture_run (before ++ [c]) s /\
      animation_frames (recorder s') = log /\
      (exists ps, outputs s1 = outputs s ++ map Progress ps) /\
      (log <> [] -> video <> [] ->
       exists d,
         outputs s' =
         outputs s1 ++ [TimeLimitReached; SavedJson d; SavedMp4 (List.length video)] /\
         ad_frames d = log /\ ad_total_frames d = List.length log /\
         ad_duration d = total /\
         (0 < total -> ad_fps d = inject_Z (Z.of_nat (List.length log)) / total)) /\
      (log = [] \/ video = [] ->
       outputs s' = outputs s1 ++ [TimeLimitReached; NoFramesToSave])).
Proof.
  split; [|split].
  - intros c s Hrec Hin. split.
    + intro Hgap.
      destruct (capture_accepted c s Hrec Hin Hgap) as (frame & Ht & E & _).
      rewrite E. cbn [animation_frames video_frames last_frame_time is_recording].
      split; [exists frame; split; [exact Ht|reflexivity]|].
      repeat split.
    + intro Hgap. apply capture_rejected; assumption.
  - intros s t_start t_last calls Hidle.
    apply log_spaced_run. unfold start_recording. rewrite Hidle. simpl.
    split; exact I.
  - intros s before c after Hrec Hall Hover. cbv zeta.
    unfold capture_run. rewrite !fold_left_app. fold (capture_run before s).
    destruct (capture_run_within before s Hrec Hall) as (R1 & S1 & F1).
    destruct (capture_run_within_outputs before s Hrec Hall) as (ps & O1).
    set (s1 := capture_run before s) in *.
    simpl fold_left. fold (capture_run after (capture c s1)).
    rewrite <- S1 in Hover.
    rewrite (capture_over_limit c s1 R1 Hover).
    destruct (stop_recording_active (c_stop c) (emit TimeLimitReached s1) R1)
      as (R2 & F2 & L2 & _).
    destruct (stop_recording_outputs (c_stop c) (emit TimeLimitReached s1) R1)
      as [Wf Wn].
    cbn [recorder emit outputs] in Wf, Wn, L2.
    rewrite (capture_run_idle after _ R2).
    rewrite R2, F2, flushes_emit_notice, F1, L2, <- S1.
    split; [reflexivity|]. split; [reflexivity|]. split; [reflexivity|].
    split; [reflexivity|]. split; [exists ps; exact O1|]. split.
    + intros Hl Hv. destruct (Wf Hl Hv) as (d & Od & D1 & D2 & D3 & D4 & _).
      exists d. rewrite Od, <- app_assoc.
      split; [reflexivity|]. auto.
    + intro Hn. rewrite (Wn Hn), <- app_assoc. reflexivity.
Qed.

(** A session started at time 0, a call that is logged and one that comes
    too soon, a call at 61 s and one more: the notice, the JSON file with
    the one frame record and the video with the one frame, nothing after. *)
Lemma recorder_time_gates_witness :
  is_recording (recorder (start_recording 0 0 (init 0))) = true /\
  Forall (within_limit (start_recording 0 0 (init 0)))
         [capture_at (1 # 10); capture_at (11 # 100)] /\
  max_recording_time
  < c_now (capture_at 61)
    - recording_start_time (recorder (start_recording 0 0 (init 0))) /\
  exists d,
    outputs (capture_run ([capture_at (1 # 10); capture_at (11 # 100)]
                            ++ capture_at 61 :: [capture_at 62])
                         (start_recording 0 0 (init 0)))
    = [TimeLimitReached; SavedJson d; SavedMp4 1] /\
    ad_total_frames d = 1%nat /\ ad_duration d = 61 - 0 /\
    map fd_timestamp (ad_frames d) = [(1 # 10) - 0].
Proof.
  assert (H1 : is_recording (recorder (start_recording 0 0 (init 0))) = true)
    by reflexivity.
  assert (H2 : Forall (within_limit (start_recording 0 0 (init 0)))
                      [capture_at (1 # 10); capture_at (11 # 100)]).
  { repeat constructor; unfold within_limit, Qle; simpl; lia. }
  assert (H3 : max_recording_time
               < c_now (capture_at 61)
                 - recording_start_time (recorder (start_recording 0 0 (init 0))))
    by reflexivity.
  split; [exact H1|]. split; [exact H2|]. split; [exact H3|].
  destruct (proj2 (proj2 recorder_time_gates)
                  (start_recording 0 0 (init 0))
                  [capture_at (1 # 10); capture_at (11 # 100)]
                  (capture_at 61) [capture_at 62] H1 H2 H3)
    as (_ & _ & _ & _ & _ & Hw & _).
  destruct Hw as (d & Od & D1 & D2 & D3 & _); [discriminate|discriminate|].
  exists d. split; [exact Od|]. split; [exact D2|]. split; [exact D3|].
  rewrite D1. reflexivity.
Defined.

(** Calls every 10 ms: the ones at 40 ms and 80 ms are logged. *)
Example capture_faster_than_30_hz :
  timestamps
    (capture_run (map capture_at [1 # 100; 2 # 100; 3 # 100; 4 # 100; 5 # 100;
                                  6 # 100; 7 # 100; 8 # 100; 9 # 100])
                 (start_recording 0 0 (init 0)))
  = [4 # 100; 8 # 100].
Proof. vm_compute. reflexivity. Qed.

(** The outputs of the time limit: the notice, the two files, nothing after. *)
Example capture_time_limit :
  let s := capture_run [capture_at (1 # 10); capture_at 61; capture_at 62]
                       (start_recording 0 0 (init 0)) in
  is_recording (recorder s) = false /\
  map is_flush (outputs s) = [false; true; false].
Proof. split; vm_compute; reflexivity. Qed.

(** ** The gaze estimator *)

Lemma lastn_short {A : Type} (n : nat) (l : list A) :
  (List.length l <= n)%nat -> lastn n l = l.
Proof.
  intro H. unfold lastn. replace (List.length l - n)%nat with 0%nat by lia.
  reflexivity.
Qed.

Lemma lastn_length {A : Type} (n : nat) (l : list A) :
  (List.length (lastn n l) <= n)%nat.
Proof. unfold lastn. rewrite length_skipn. lia. Qed.

Lemma lastn_app_lastn {A : Type} (n : nat) (l r : list A) :
  lastn n (lastn n l ++ r) = lastn n (l ++ r).
Proof.
  destruct (Nat.le_gt_cases (List.length l) n) as [Hs|Hl].
  - rewrite (lastn_short n l Hs). reflexivity.
  - unfold lastn. rewrite !length_app, length_skipn.
    rewrite !skipn_app, skipn_skipn, length_skipn.
    f_equal; f_equal; lia.
Qed.

Lemma lastn_app_long {A : Type} (n : nat) (l r : list A) :
  (n <= List.length r)%nat -> lastn n (l ++ r) = lastn n r.
Proof.
  intro H. unfold lastn. rewrite length_app, skipn_app.
  rewrite skipn_all2 by lia. simpl. f_equal. lia.
Qed.

Lemma In_lastn {A : Type} (n : nat) (l : list A) (x : A) :
  In x (lastn n l) -> In x l.
Proof.
  unfold lastn. intro H.
  rewrite <- (firstn_skipn (List.length l - n) l).
  apply in_or_app. right. exact H.
Qed.

(** The history is a queue of at most three samples: the newest at the end,
    the oldest dropped when a fourth comes. *)
Lemma push_history_fifo (x : Q * Q) (h : list (Q * Q)) :
  (List.length h <= history_size)%nat ->
  push_history x h = lastn history_size (h ++ [x]).
Proof.
  intro H. unfold push_history, lastn, history_size in *.
  rewrite length_app. simpl List.length.
  destruct (Nat.ltb_spec 3 (List.length h + 1)) as [Hlt|Hge].
  - replace (List.length h + 1 - 3)%nat with 1%nat by lia.
    destruct (h ++ [x]); reflexivity.
  - replace (List.length h + 1 - 3)%nat with 0%nat by lia. reflexivity.
Qed.

Lemma detect_eye_movement_eq (c : gaze_call) (s : EyeTracker) :
  detect_eye_movement (g_left_center c) (g_right_center c) (g_shape c)
                      (g_landmarks c) s =
  let h := push_history (gaze_sample c) (eye_movement_history s) in
  ((direction_of (average h), average h), set_history h s).
Proof.
  unfold detect_eye_movement, gaze_sample.
  destruct (choose_centers _ _ _ _) as [lc rc]. reflexivity.
Qed.

(** After a run of calls the history holds the last three of the old
    samples followed by the new ones. *)
Lemma gaze_run_history (calls : list gaze_call) :
  forall last s,
    (List.length (eye_movement_history s) <= history_size)%nat ->
    eye_movement_history (snd (gaze_run calls last s)) =
    lastn history_size (eye_movement_history s ++ map gaze_sample calls).
Proof.
  induction calls as [|c rest IH]; intros last s H.
  - simpl. rewrite app_nil_r. symmetry. apply lastn_short. exact H.
  - simpl gaze_run. rewrite detect_eye_movement_eq. cbv beta iota zeta.
    rewrite IH.
    + simpl eye_movement_history. rewrite push_history_fifo by exact H.
      rewrite lastn_app_lastn, <- app_assoc. reflexivity.
    + simpl. rewrite push_history_fifo by exact H. apply lastn_length.
Qed.

(** What a run returns is computed from the history it leaves. *)
Lemma gaze_run_result (calls : list gaze_call) :
  forall last s,
    fst (gaze_run calls last s) =
    match calls with
    | [] => last
    | _ =>
      let h := eye_movement_history (snd (gaze_run calls last s)) in
      Some (direction_of (average h), average h)
    end.
Proof.
  induction calls as [|c rest IH]; intros last s; [reflexivity|].
  simpl gaze_run. rewrite detect_eye_movement_eq. cbv beta iota zeta.
  rewrite IH. destruct rest; reflexivity.
Qed.

Lemma sum_Q_const (q : Q) (l : list Q) :
  Forall (fun x => x == q) l ->
  sum_Q l == q * inject_Z (Z.of_nat (List.length l)).
Proof.
  induction l as [|a l IH]; intro H.
  - simpl. unfold inject_Z. ring.
  - inversion H as [|? ? Ha Hl]; subst.
    change (sum_Q (a :: l)) with (a + sum_Q l).
    replace (Z.of_nat (List.length (a :: l)))
      with (1 + Z.of_nat (List.length l))%Z by (simpl List.length; lia).
    rewrite (IH Hl), Ha, inject_Z_plus. ring.
Qed.

Lemma mean_const (q : Q) (l : list Q) :
  l <> [] -> Forall (fun x => x == q) l -> mean l == q.
Proof.
  intros Hne H. unfold mean. rewrite (sum_Q_const q l H).
  field. destruct l as [|a l]; [congruence|].
  simpl List.length. intro E.
  assert (inject_Z 0 < inject_Z (Z.of_nat (S (List.length l)))) as Hpos.
  { rewrite <- Zlt_Qlt. lia. }
  rewrite E in Hpos. revert Hpos. apply Qlt_irrefl.
Qed.

Lemma average_mean (h : list (Q * Q)) :
  average h = (mean (map fst h), mean (map snd h)).
Proof. unfold average, mean. rewrite !length_map. reflexivity. Qed.

(** The label, component by component. *)
Lemma direction_of_components (avg : Q * Q) :
  exists horizontal vertical,
    direction_of avg = (horizontal ++ vertical)%string /\
    (fst avg < 42 # 100 -> horizontal = "IZQUIERDA"%string) /\
    (58 # 100 < fst avg -> horizontal = "DERECHA"%string) /\
    (42 # 100 <= fst avg -> fst avg <= 58 # 100 -> horizontal = "CENTRO"%string) /\
    (snd avg < 42 # 100 -> vertical = "_ARRIBA"%string) /\
    (58 # 100 < snd avg -> vertical = "_ABAJO"%string) /\
    (42 # 100 <= snd avg -> snd avg <= 58 # 100 -> vertical = ""%string).
Proof.
  exists (if Qltb (fst avg) (42 # 100) then "IZQUIERDA"%string
          else if Qgtb (fst avg) (58 # 100) then "DERECHA"%string
               else "CENTRO"%string),
         (if Qltb (snd avg) (42 # 100) then "_ARRIBA"%string
          else if Qgtb (snd avg) (58 # 100) then "_ABAJO"%string
               else ""%string).
  unfold direction_of.
  destruct (Qltb (fst avg) (42 # 100)) eqn:X1;
    [apply Qltb_lt in X1 | apply Qltb_ge in X1;
     destruct (Qgtb (fst avg) (58 # 100)) eqn:X2;
     [apply Qgtb_gt in X2 | apply Qgtb_le in X2]];
    (destruct (Qltb (snd avg) (42 # 100)) eqn:Y1;
     [apply Qltb_lt in Y1 | apply Qltb_ge in Y1;
      destruct (Qgtb (snd avg) (58 # 100)) eqn:Y2;
      [apply Qgtb_gt in Y2 | apply Qgtb_le in Y2]]).
  all: split; [reflexivity|].
  all: repeat split; intros; try reflexivity; exfalso; lra.
Qed.

Lemma direction_left (avg : Q * Q) :
  fst avg < 42 # 100 -> contains "IZQUIERDA" (direction_of avg) = true.
Proof.
  intro H. apply Qltb_lt in H. unfold direction_of. rewrite H.
  destruct (Qltb (snd avg) (42 # 100)); [reflexivity|].
  destruct (Qgtb (snd avg) (58 # 100)); reflexivity.
Qed.

(** The centres the code works on are the iris centres when both are found
    and the centres it was given otherwise, and the sample it pushes is
    their normalised midpoint. *)
Lemma choose_centers_spec (c : gaze_call) :
  choose_centers (g_left_center c) (g_right_center c) (g_shape c)
                 (g_landmarks c) = centres_used c.
Proof. reflexivity. Qed.

Lemma gaze_of_midpoint (a b : Z * Z) (shape : frame_shape) :
  same_point (gaze_of a b shape) (normalized_midpoint a b shape).
Proof.
  unfold same_point, gaze_of, normalized_midpoint. cbn [fst snd].
  rewrite !inject_Z_plus.
  split; field; unfold Qeq; simpl; lia.
Qed.

Lemma gaze_sample_spec (c : gaze_call) :
  same_point (gaze_sample c) (spec_sample c).
Proof.
  unfold gaze_sample, spec_sample. rewrite choose_centers_spec.
  destruct (centres_used c) as [lc rc]. apply gaze_of_midpoint.
Qed.

(** C7.  A call pushes the normalised midpoint of its two centres (the iris
    centres when both are found, the eye centres it was given otherwise):
    the sum of the two centres, halved and divided by the width and by the
    height of the frame.  The history is a queue of at most 3 samples (the
    last 3 of the old ones followed by the new one); the position the call
    returns is the mean of that history, and the label is made of a
    horizontal word (IZQUIERDA below 0.42, DERECHA above 0.58, CENTRO
    otherwise) and a vertical suffix (_ARRIBA below 0.42, _ABAJO above 0.58,
    none otherwise) of that mean.  From the initial state the history never
    holds more than 3 samples.  After at least 3 calls whose midpoint has the
    horizontal position 0.30, the label contains IZQUIERDA. *)
Theorem gaze_estimator_window :
  (forall c s,
      (List.length (eye_movement_history s) <= 3)%nat ->
      let res := detect_eye_movement (g_left_center c) (g_right_center c)
                                     (g_shape c) (g_landmarks c) s in
      let h := eye_movement_history (snd res) in
      let pos := snd (fst res) in
      (exists sample,
          same_point sample
                     (normalized_midpoint (fst (centres_used c))
                                          (snd (centres_used c)) (g_shape c)) /\
          h = lastn 3 (eye_movement_history s ++ [sample])) /\
      (List.length h <= 3)%nat /\
      pos = (mean (map fst h), mean (map snd h)) /\
      exists horizontal vertical,
        fst (fst res) = (horizontal ++ vertical)%string /\
        (fst pos < 42 # 100 -> horizontal = "IZQUIERDA"%string) /\
        (58 # 100 < fst pos -> horizontal = "DERECHA"%string) /\
        (42 # 100 <= fst pos -> fst pos <= 58 # 100 -> horizontal = "CENTRO"%string) /\
        (snd pos < 42 # 100 -> vertical = "_ARRIBA"%string) /\
        (58 # 100 < snd pos -> vertical = "_ABAJO"%string) /\
        (42 # 100 <= snd pos -> snd pos <= 58 # 100 -> vertical = ""%string)) /\
  (forall t0 calls,
      (List.length (eye_movement_history (snd (gaze_run calls None (init t0)))) <= 3)%nat) /\
  (forall calls s,
      (List.length (eye_movement_history s) <= 3)%nat ->
      (3 <= List.length calls)%nat ->
      Forall (fun c =>
                fst (normalized_midpoint (fst (centres_used c))
                                         (snd (centres_used c)) (g_shape c))
                == 3 # 10) calls ->
      exists dir pos,
        fst (gaze_run calls None s) = Some (dir, pos) /\
        fst pos == 3 # 10 /\
        contains "IZQUIERDA" dir = true).
Proof.
  split; [|split].
  - intros c s H. rewrite detect_eye_movement_eq. cbv zeta. simpl fst. simpl snd.
    simpl eye_movement_history.
    rewrite (push_history_fifo _ _ H). fold history_size.
    split; [exists (gaze_sample c); split; [apply gaze_sample_spec|reflexivity]|].
    split; [apply lastn_length|].
    split; [apply average_mean|].
    exact (direction_of_components
             (average (lastn history_size
                             (eye_movement_history s ++ [gaze_sample c])))).
  - intros t0 calls. rewrite gaze_run_history by (simpl; lia).
    apply lastn_length.
  - intros calls s H Hlen Hall.
    pose proof (gaze_run_result calls None s) as Hres.
    pose proof (gaze_run_history calls None s H) as Hh.
    destruct calls as [|c0 rest]; [simpl in Hlen; lia|].
    cbv zeta in Hres. rewrite Hh in Hres.
    set (samples := map gaze_sample (c0 :: rest)) in *.
    assert (Hs : (3 <= List.length samples)%nat).
    { subst samples. rewrite length_map. exact Hlen. }
    rewrite (lastn_app_long history_size _ samples Hs) in Hres.
    set (h := lastn history_size samples) in *.
    assert (Hx : fst (average h) == 3 # 10).
    { rewrite average_mean. simpl fst. apply mean_const.
      - intro E. apply (f_equal (@List.length Q)) in E.
        rewrite length_map in E. subst h. unfold lastn in E.
        rewrite length_skipn in E. unfold history_size in E.
        change (List.length (@nil Q)) with 0%nat in E. lia.
      - apply Forall_forall. intros x Hin. apply in_map_iff in Hin.
        destruct Hin as (p & <- & Hp). apply In_lastn in Hp.
        subst samples. apply in_map_iff in Hp. destruct Hp as (c & <- & Hc).
        rewrite Forall_forall in Hall.
        rewrite (proj1 (gaze_sample_spec c)). apply Hall. exact Hc. }
    exists (direction_of (average h)), (average h).
    split; [exact Hres|]. split; [exact Hx|].
    apply direction_left. rewrite Hx. reflexivity.
Qed.

(** Three calls with the eye centres on columns 160 and 224 of 640: the
    midpoint is on column 192, the horizontal position is 0.30. *)
Lemma gaze_estimator_window_witness :
  (List.length (eye_movement_history (init 0)) <= 3)%nat /\
  (3 <= List.length [eyes_at 160 224 240; eyes_at 160 224 240;
                     eyes_at 160 224 240])%nat /\
  Forall (fun c =>
            fst (normalized_midpoint (fst (centres_used c))
                                     (snd (centres_used c)) (g_shape c))
            == 3 # 10)
         [eyes_at 160 224 240; eyes_at 160 224 240; eyes_at 160 224 240] /\
  exists dir pos,
    fst (gaze_run [eyes_at 160 224 240; eyes_at 160 224 240; eyes_at 160 224 240]
                  None (init 0)) = Some (dir, pos) /\
    fst pos == 3 # 10 /\ contains "IZQUIERDA" dir = true.
Proof.
  assert (H1 : (List.length (eye_movement_history (init 0)) <= 3)%nat)
    by (simpl; lia).
  assert (H2 : (3 <= List.length [eyes_at 160 224 240; eyes_at 160 224 240;
                                  eyes_at 160 224 240])%nat) by (simpl; lia).
  assert (H3 : Forall (fun c =>
                         fst (normalized_midpoint (fst (centres_used c))
                                                  (snd (centres_used c))
                                                  (g_shape c))
                         == 3 # 10)
                      [eyes_at 160 224 240; eyes_at 160 224 240;
                       eyes_at 160 224 240]).
  { repeat constructor; vm_compute; reflexivity. }
  split; [exact H1|]. split; [exact H2|]. split; [exact H3|].
  exact (proj2 (proj2 gaze_estimator_window) _ _ H1 H2 H3).
Defined.

(** The same run, computed: the label is IZQUIERDA alone (the rows are in
    the middle), and a fourth sample pushes the first one out. *)
Example gaze_left_label :
  option_map fst
    (fst (gaze_run [looking_at 192 240; looking_at 192 240; looking_at 192 240]
                   None (init 0)))
  = Some "IZQUIERDA"%string.
Proof. vm_compute. reflexivity. Qed.

Example gaze_oldest_evicted :
  eye_movement_history
    (snd (gaze_run [looking_at 64 240; looking_at 128 240; looking_at 192 240;
                    looking_at 256 240] None (init 0)))
  = map gaze_sample [looking_at 128 240; looking_at 192 240; looking_at 256 240].
Proof. vm_compute. reflexivity. Qed.

(** ** The classifier in the main loop *)

(** On a frame with a face the wink fields are those of two classifications
    of the frame's aspect ratios, one after the other. *)
Lemma loop_body_classifies_twice (i : loop_input) (s : EyeTracker) (d : detection) :
  in_results i = Some d ->
  let l := det_left_ear d in
  let r := det_right_ear d in
  wink (snd (loop_body i s)) =
  wink (snd (detect_eye_state l r (snd (detect_eye_state l r s)))) /\
  eye_state (fst (loop_body i s)) =
  fst (detect_eye_state l r (snd (detect_eye_state l r s))).
Proof.
  intros Hd l r.
  destruct (loop_body_fields i s) as (Hw & He & _).
  pose proof (process_frame_fields (in_shape i) (in_results i) s) as Hp.
  rewrite Hd in Hp, Hw, He. destruct Hp as (Pw & _ & Pl & Pr).
  rewrite Pl, Pr in Hw, He. fold l r in Hw, He, Pw.
  destruct (detect_eye_state_wink_only
              l r (snd (process_frame (in_shape i) (Some d) s))
              (snd (detect_eye_state l r s)) Pw) as [El Ew].
  rewrite Hw, He. split; assumption.
Qed.

(** Without a face the renderer classifies the default aspect ratios; a
    second classification of them would change nothing. *)
Lemma loop_body_no_face (i : loop_input) (s : EyeTracker) :
  in_results i = None ->
  let l := 3 # 10 in
  let r := 3 # 10 in
  wink (snd (loop_body i s)) =
  wink (snd (detect_eye_state l r (snd (detect_eye_state l r s)))) /\
  eye_state (fst (loop_body i s)) = AMBOS_ABIERTOS.
Proof.
  intros Hd l r.
  destruct (loop_body_fields i s) as (Hw & He & _).
  pose proof (process_frame_fields (in_shape i) (in_results i) s) as Hp.
  rewrite Hd in Hp, Hw, He. destruct Hp as (Ps & Pl & Pr).
  rewrite Ps, Pl, Pr in Hw, He. rewrite Hw, He.
  assert (Ho : wink_threshold <= 3 # 10) by (unfold Qle; simpl; lia).
  subst l r. rewrite !detect_both_open by exact Ho. split; reflexivity.
Qed.

(** C10.  In every pass of the main loop the wink fields change as by two
    classifications of the frame's aspect ratios, one in frame processing
    and one in the renderer.  So one frame with the left eye below 0.18 and
    the right eye not adds 2 to the left wink counter, and the renderer's
    classification of that single frame is already the left wink, whatever
    the state before; the same on the right. *)
Theorem one_frame_completes_debounce (i : loop_input) (s : EyeTracker) :
  let v := fst (process_frame (in_shape i) (in_results i) s) in
  let l := v_left_ear v in
  let r := v_right_ear v in
  let s' := snd (loop_body i s) in
  wink s' = wink (snd (detect_eye_state l r (snd (detect_eye_state l r s)))) /\
  (l < wink_threshold -> wink_threshold <= r ->
   left_wink_counter (wink s') = (left_wink_counter (wink s) + 2)%nat /\
   eye_state (fst (loop_body i s)) = GUINANDO_IZQUIERDO /\
   left_winking (wink s') = true) /\
  (wink_threshold <= l -> r < wink_threshold ->
   right_wink_counter (wink s') = (right_wink_counter (wink s) + 2)%nat /\
   eye_state (fst (loop_body i s)) = GUINANDO_DERECHO /\
   right_winking (wink s') = true).
Proof.
  intros v l r s'.
  pose proof (process_frame_fields (in_shape i) (in_results i) s) as Hp.
  assert (H : wink s' =
              wink (snd (detect_eye_state l r (snd (detect_eye_state l r s)))) /\
              eye_state (fst (loop_body i s)) =
              fst (detect_eye_state l r (snd (detect_eye_state l r s)))).
  { subst v l r s'. destruct (in_results i) as [d|] eqn:Hd.
    - destruct Hp as (_ & _ & Pl & Pr). rewrite Pl, Pr.
      apply loop_body_classifies_twice. exact Hd.
    - destruct Hp as (_ & Pl & Pr). rewrite Pl, Pr.
      destruct (loop_body_no_face i s Hd) as [Hw He].
      split; [exact Hw|]. rewrite He.
      rewrite !detect_both_open by (unfold Qle; simpl; lia). reflexivity. }
  destruct H as [Hw He].
  split; [exact Hw|]. split.
  - intros Hl Hr. rewrite Hw, He.
    pose proof (left_only_counts l r s Hl Hr) as Hc.
    set (s1 := snd (detect_eye_state l r s)) in *.
    rewrite (detect_left_only l r s1 Hl Hr).
    rewrite Hc. simpl. repeat split. lia.
  - intros Hl Hr. rewrite Hw, He.
    pose proof (right_only_counts l r s Hl Hr) as Hc.
    set (s1 := snd (detect_eye_state l r s)) in *.
    rewrite (detect_right_only l r s1 Hl Hr).
    rewrite Hc. simpl. repeat split. lia.
Qed.

(** One frame with the left eye closed, from the initial state: the counter
    is 2 and the renderer saw a left wink. *)
Lemma one_frame_completes_debounce_witness :
  left_wink_counter (wink (snd (loop_body (face (1 # 10) (3 # 10)) (init 0)))) = 2%nat /\
  eye_state (fst (loop_body (face (1 # 10) (3 # 10)) (init 0))) = GUINANDO_IZQUIERDO.
Proof.
  destruct (one_frame_completes_debounce (face (1 # 10) (3 # 10)) (init 0))
    as (_ & H & _).
  destruct H as (Hc & He & _); [reflexivity | unfold Qle; simpl; lia |].
  split; [exact Hc | exact He].
Defined.

(** The classifier called once per frame would need two frames: the single
    evaluation of the same aspect ratios is still [NORMAL]. *)
Example one_evaluation_is_not_enough :
  fst (detect_eye_state (1 # 10) (3 # 10) (init 0)) = NORMAL /\
  eye_state (fst (loop_body (face (1 # 10) (3 # 10)) (init 0))) = GUINANDO_IZQUIERDO.
Proof. split; vm_compute; reflexivity. Qed.

(** ** The box heights of the renderer *)

Lemma eye_box_width (cx cy h : Z) (brow : Q) (is_left : bool) :
  box_width (eye_box cx cy 80 h brow is_left) = 80%Z.
Proof.
  unfold box_width, eye_box. cbn [rect_x1 rect_x2].
  change (80 / 2)%Z with 40%Z. lia.
Qed.

(** The heights a call computes, in terms of its own classification. *)
Lemma draw_virtual_eyes_heights (l r : Q) (g : string) (p : Q * Q) (lb rb : Q)
      (fv : bool) (s : EyeTracker) :
  let rd := fst (draw_virtual_eyes l r g p lb rb fv s) in
  let lab := fst (detect_eye_state l r s) in
  let w := wink (snd (detect_eye_state l r s)) in
  eye_state rd = lab /\
  base_left_height rd = spec_height_px l /\
  base_right_height rd = spec_height_px r /\
  (left_height rd, right_height rd) =
  (if both_eyes_closed w || eye_label_eqb lab AMBOS_CERRADOS then
     (spec_height_px l / 2, spec_height_px r / 2)
   else if left_winking w || eye_label_eqb lab GUINANDO_IZQUIERDO then
     (spec_height_px l / 2, spec_height_px r)
   else if right_winking w || eye_label_eqb lab GUINANDO_DERECHO then
     (spec_height_px l, spec_height_px r / 2)
   else (spec_height_px l, spec_height_px r))%Z /\
  (visualization_mode s <> AM ->
   exists a b, boxes_of (shapes rd) = Some (a, b) /\
               box_width a = 80%Z /\ box_width b = 80%Z).
Proof.
  unfold draw_virtual_eyes.
  pose proof (detect_eye_state_frame l r s) as Hf.
  destruct (detect_eye_state l r s) as [lab s1]. simpl in Hf. cbv zeta.
  simpl fst. simpl snd.
  destruct (both_eyes_closed (wink s1) || eye_label_eqb lab AMBOS_CERRADOS);
    [|destruct (left_winking (wink s1) || eye_label_eqb lab GUINANDO_IZQUIERDO);
      [|destruct (right_winking (wink s1) || eye_label_eqb lab GUINANDO_DERECHO)]].
  all: cbn [fst snd eye_state base_left_height base_right_height
                left_height right_height shapes]; repeat split; try reflexivity.
  all: intro Hm; rewrite Hf; cbn [visualization_mode set_wink];
    destruct (visualization_mode s); try congruence;
    eexists; eexists; (split; [reflexivity|]);
    split; apply eye_box_width.
Qed.

(** In the main loop the renderer's classification is never [NORMAL]: frame
    processing has classified the same aspect ratios just before. *)
Lemma loop_body_label (i : loop_input) (s : EyeTracker) :
  eye_state (fst (loop_body i s)) <> NORMAL.
Proof.
  destruct (in_results i) as [d|] eqn:Hd.
  - destruct (loop_body_classifies_twice i s d Hd) as [_ He].
    cbv zeta in He. rewrite He.
    set (l := det_left_ear d). set (r := det_right_ear d).
    destruct (Qlt_le_dec l wink_threshold) as [Hl|Hl];
      destruct (Qlt_le_dec r wink_threshold) as [Hr|Hr].
    + rewrite (detect_both_closed l r _ Hl Hr). discriminate.
    + rewrite (detect_left_only l r _ Hl Hr).
      rewrite (left_only_counts l r s Hl Hr). discriminate.
    + rewrite (detect_right_only l r _ Hl Hr).
      rewrite (right_only_counts l r s Hl Hr). discriminate.
    + rewrite (detect_both_open l r _ Hl Hr). discriminate.
  - destruct (loop_body_no_face i s Hd) as [_ He]. rewrite He. discriminate.
Qed.

(** The label and the flags after a classification, case by case. *)
Lemma detect_eye_state_flags (l r : Q) (s : EyeTracker) :
  let lab := fst (detect_eye_state l r s) in
  let w := wink (snd (detect_eye_state l r s)) in
  (lab = AMBOS_CERRADOS ->
   both_eyes_closed w = true) /\
  (lab = GUINANDO_IZQUIERDO ->
   both_eyes_closed w = false /\ left_winking w = true) /\
  (lab = GUINANDO_DERECHO ->
   both_eyes_closed w = false /\ left_winking w = false /\ right_winking w = true) /\
  (lab = AMBOS_ABIERTOS ->
   both_eyes_closed w = false /\ left_winking w = false /\ right_winking w = false).
Proof.
  destruct (Qlt_le_dec l wink_threshold) as [Hl|Hl];
    destruct (Qlt_le_dec r wink_threshold) as [Hr|Hr].
  - rewrite (detect_both_closed l r s Hl Hr). simpl.
    repeat split; intros; try discriminate; reflexivity.
  - rewrite (detect_left_only l r s Hl Hr).
    destruct (1 <=? left_wink_counter (wink s))%nat; simpl;
      repeat split; intros; try discriminate; reflexivity.
  - rewrite (detect_right_only l r s Hl Hr).
    destruct (1 <=? right_wink_counter (wink s))%nat; simpl;
      repeat split; intros; try discriminate; reflexivity.
  - rewrite (detect_both_open l r s Hl Hr). simpl.
    repeat split; intros; try discriminate; reflexivity.
Qed.


Lemma int_of_inject_Z (n : Z) : int_of (inject_Z n) = n.
Proof. unfold int_of, inject_Z. simpl. apply Z.quot_1_r. Qed.


Lemma draw_boxes_eq (l r : Q) (g : string) (p : Q * Q) (lb rb : Q) (fv : bool)
      (s : EyeTracker) :
  visualization_mode s <> AM ->
  let rd := fst (draw_virtual_eyes l r g p lb rb fv s) in
  boxes_of (shapes rd) =
  Some (eye_box (int_of ((if fv then 200 else 150)
                         + (fst p - (1 # 2)) * (if fv then 180 else 120)))
                (int_of (200 + (snd p - (1 # 2)) * (if fv then 120 else 80)))
                80 (left_height rd) lb true,
        eye_box (int_of ((if fv then 600 else 300)
                         + (fst p - (1 # 2)) * (if fv then 180 else 120)))
                (int_of (200 + (snd p - (1 # 2)) * (if fv then 120 else 80)))
                80 (right_height rd) rb false).
Proof.
  intro Hm. unfold draw_virtual_eyes.
  pose proof (detect_eye_state_frame l r s) as Hf.
  destruct (detect_eye_state l r s) as [lab s1]. simpl in Hf.
  destruct (if _ : bool then _ else _) as [lh rh].
  cbn [fst shapes left_height right_height]. rewrite Hf.
  cbn [visualization_mode set_wink].
  destruct (visualization_mode s); try congruence; reflexivity.
Qed.

(** When the label is [NORMAL] the three flags are left as they were. *)
Lemma detect_eye_state_normal (l r : Q) (s : EyeTracker) :
  fst (detect_eye_state l r s) = NORMAL ->
  let w' := wink (snd (detect_eye_state l r s)) in
  both_eyes_closed w' = both_eyes_closed (wink s) /\
  left_winking w' = left_winking (wink s) /\
  right_winking w' = right_winking (wink s).
Proof.
  destruct (Qlt_le_dec l wink_threshold) as [Hl|Hl];
    destruct (Qlt_le_dec r wink_threshold) as [Hr|Hr].
  - rewrite (detect_both_closed l r s Hl Hr). discriminate.
  - rewrite (detect_left_only l r s Hl Hr).
    destruct (1 <=? left_wink_counter (wink s))%nat; [discriminate|].
    intros _. simpl. auto.
  - rewrite (detect_right_only l r s Hl Hr).
    destruct (1 <=? right_wink_counter (wink s))%nat; [discriminate|].
    intros _. simpl. auto.
  - rewrite (detect_both_open l r s Hl Hr). discriminate.
Qed.

Lemma spec_height_px_eq (ear : Q) : spec_height_px ear = spec_box_height ear.
Proof.
  unfold spec_height_px, spec_box_height. rewrite int_of_truncate. reflexivity.
Qed.

(** The two boxes of a call in a box mode: 80 columns wide, and as many rows
    between the upper and the lower edge as twice the half of the height. *)
Lemma draw_boxes_size (l r : Q) (g : string) (p : Q * Q) (lb rb : Q) (fv : bool)
      (s : EyeTracker) :
  visualization_mode s <> AM ->
  let rd := fst (draw_virtual_eyes l r g p lb rb fv s) in
  exists a b,
    boxes_of (shapes rd) = Some (a, b) /\
    box_width a = 80%Z /\ box_width b = 80%Z /\
    box_rows a = (2 * (left_height rd / 2))%Z /\
    box_rows b = (2 * (right_height rd / 2))%Z.
Proof.
  intros Hm rd.
  pose proof (draw_boxes_eq l r g p lb rb fv s Hm) as Hb. cbv zeta in Hb.
  fold rd in Hb. eexists. eexists. split; [exact Hb|].
  split; [apply eye_box_width|]. split; [apply eye_box_width|].
  unfold box_rows, eye_box. cbn [rect_y1 rect_y2]. split; lia.
Qed.

(** C8 (as amended).  In the two box modes each box is 80 pixels wide, and
    its lower edge is twice the half of its height below its upper edge (the
    height, or one pixel less when the height is odd).  The height before the
    state adjustment is the quotient EAR/0.35*100 truncated to whole pixels
    and clamped to [8, 100].  When the renderer's classification is
    [AMBOS_CERRADOS] both heights are halved (integer division by 2); when it
    is a wink only the winking eye's height is halved; when it is
    [AMBOS_ABIERTOS] both keep the base value.  When it is [NORMAL] (the
    first evaluation of a one-sided closure) the flags left by the evaluation
    before decide, in the same order; with no flag set both heights keep the
    base value.  In the main loop the renderer's classification is never
    [NORMAL]. *)
Theorem box_heights (l r : Q) (g : string) (p : Q * Q) (lb rb : Q) (fv : bool)
        (s : EyeTracker) :
  let rd := fst (draw_virtual_eyes l r g p lb rb fv s) in
  base_left_height rd = spec_box_height l /\
  base_right_height rd = spec_box_height r /\
  (visualization_mode s <> AM ->
   exists a b, boxes_of (shapes rd) = Some (a, b) /\
               box_width a = 80%Z /\ box_width b = 80%Z /\
               box_rows a = (2 * (left_height rd / 2))%Z /\
               box_rows b = (2 * (right_height rd / 2))%Z) /\
  (eye_state rd = AMBOS_CERRADOS ->
   left_height rd = (spec_box_height l / 2)%Z /\
   right_height rd = (spec_box_height r / 2)%Z) /\
  (eye_state rd = GUINANDO_IZQUIERDO ->
   left_height rd = (spec_box_height l / 2)%Z /\
   right_height rd = spec_box_height r) /\
  (eye_state rd = GUINANDO_DERECHO ->
   left_height rd = spec_box_height l /\
   right_height rd = (spec_box_height r / 2)%Z) /\
  (eye_state rd = AMBOS_ABIERTOS ->
   left_height rd = spec_box_height l /\
   right_height rd = spec_box_height r) /\
  (eye_state rd = NORMAL ->
   (left_height rd, right_height rd) =
   (if both_eyes_closed (wink s) then
      (spec_box_height l / 2, spec_box_height r / 2)
    else if left_winking (wink s) then
      (spec_box_height l / 2, spec_box_height r)
    else if right_winking (wink s) then
      (spec_box_height l, spec_box_height r / 2)
    else (spec_box_height l, spec_box_height r))%Z) /\
  (forall i s0, eye_state (fst (loop_body i s0)) <> NORMAL).
Proof.
  intro rd.
  destruct (draw_virtual_eyes_heights l r g p lb rb fv s)
    as (He & Hbl & Hbr & Hh & _).
  fold rd in He, Hbl, Hbr, Hh.
  rewrite spec_height_px_eq in Hbl, Hbr.
  rewrite !(spec_height_px_eq l), !(spec_height_px_eq r) in Hh.
  destruct (detect_eye_state_flags l r s) as (F1 & F2 & F3 & F4).
  pose proof (detect_eye_state_normal l r s) as F5. cbv zeta in F5.
  rewrite <- He in F1, F2, F3, F4, F5, Hh.
  split; [exact Hbl|]. split; [exact Hbr|].
  split; [exact (draw_boxes_size l r g p lb rb fv s)|].
  split; [|split; [|split; [|split; [|split]]]].
  - intro E. specialize (F1 E). rewrite F1 in Hh. cbn [orb eye_label_eqb] in Hh.
    split; congruence.
  - intro E. destruct (F2 E) as [A B]. rewrite A, B, E in Hh. cbn [orb eye_label_eqb] in Hh.
    split; congruence.
  - intro E. destruct (F3 E) as (A & B & C). rewrite A, B, C, E in Hh.
    cbn [orb eye_label_eqb] in Hh. split; congruence.
  - intro E. destruct (F4 E) as (A & B & C). rewrite A, B, C, E in Hh.
    cbn [orb eye_label_eqb] in Hh. split; congruence.
  - intro E. destruct (F5 E) as (A & B & C). rewrite A, B, C, E in Hh.
    cbn [eye_label_eqb] in Hh. rewrite !orb_false_r in Hh. exact Hh.
  - intros i s0. apply loop_body_label.
Qed.

(** From the initial state in the rectangle mode.  Both aspect ratios 0.10:
    both closed, the base height 28 is halved to 14 and the boxes are 80
    wide and 14 rows high.  Left 0.10 and right 0.30: the label of this first
    evaluation is [NORMAL], no flag is set, and the heights are the unhalved
    28 and 85. *)
Lemma box_heights_witness :
  (visualization_mode (init 0) <> AM /\
   eye_state (fst (draw_virtual_eyes (1 # 10) (1 # 10) "CENTRO" (1 # 2, 1 # 2)
                                     (1 # 4) (1 # 4) false (init 0)))
   = AMBOS_CERRADOS /\
   left_height (fst (draw_virtual_eyes (1 # 10) (1 # 10) "CENTRO" (1 # 2, 1 # 2)
                                       (1 # 4) (1 # 4) false (init 0)))
   = 14%Z /\
   exists a b,
     boxes_of (shapes (fst (draw_virtual_eyes (1 # 10) (1 # 10) "CENTRO"
                                              (1 # 2, 1 # 2) (1 # 4) (1 # 4)
                                              false (init 0))))
     = Some (a, b) /\
     box_width a = 80%Z /\ box_width b = 80%Z /\
     box_rows a = 14%Z /\ box_rows b = 14%Z) /\
  (eye_state (fst (draw_virtual_eyes (1 # 10) (3 # 10) "CENTRO" (1 # 2, 1 # 2)
                                     (1 # 4) (1 # 4) false (init 0)))
   = NORMAL /\
   (left_height (fst (draw_virtual_eyes (1 # 10) (3 # 10) "CENTRO" (1 # 2, 1 # 2)
                                        (1 # 4) (1 # 4) false (init 0))),
    right_height (fst (draw_virtual_eyes (1 # 10) (3 # 10) "CENTRO"
                                         (1 # 2, 1 # 2) (1 # 4) (1 # 4) false
                                         (init 0))))
   = (28, 85)%Z).
Proof.
  assert (Hm : visualization_mode (init 0) <> AM) by discriminate.
  split.
  - destruct (box_heights (1 # 10) (1 # 10) "CENTRO" (1 # 2, 1 # 2) (1 # 4)
                          (1 # 4) false (init 0))
      as (_ & _ & Hw & Hc & _).
    destruct (Hc eq_refl) as [Hl Hr].
    destruct (Hw Hm) as (a & b & Hb & Wa & Wb & Ra & Rb).
    split; [exact Hm|]. split; [reflexivity|]. split; [exact Hl|].
    exists a, b. split; [exact Hb|]. split; [exact Wa|]. split; [exact Wb|].
    rewrite Hl in Ra. rewrite Hr in Rb. split; [exact Ra|exact Rb].
  - destruct (box_heights (1 # 10) (3 # 10) "CENTRO" (1 # 2, 1 # 2) (1 # 4)
                          (1 # 4) false (init 0))
      as (_ & _ & _ & _ & _ & _ & _ & Hn & _).
    split; [reflexivity|]. exact (Hn eq_refl).
Defined.

(** C8, as the specification states it, fails: the height is truncated to
    whole pixels.  At an aspect ratio of 0.30 the formula gives 600/7, the
    code 85. *)
Lemma box_height_is_truncated :
  ~ (forall (l r : Q) (g : string) (p : Q * Q) (lb rb : Q) (fv : bool)
            (s : EyeTracker),
        inject_Z (base_left_height (fst (draw_virtual_eyes l r g p lb rb fv s)))
        == spec_height l).
Proof.
  intro H.
  specialize (H (3 # 10) (3 # 10) "CENTRO"%string (1 # 2, 1 # 2) (1 # 4) (1 # 4)
                false (init 0)).
  vm_compute in H. discriminate H.
Qed.

Example box_height_values :
  base_left_height (fst (draw_virtual_eyes (3 # 10) (3 # 10) "CENTRO"
                                           (1 # 2, 1 # 2) (1 # 4) (1 # 4)
                                           false (init 0))) = 85%Z /\
  spec_height (3 # 10) == 600 # 7 /\
  left_height (fst (draw_virtual_eyes (1 # 10) (1 # 10) "CENTRO"
                                      (1 # 2, 1 # 2) (1 # 4) (1 # 4)
                                      false (init 0))) = 14%Z.
Proof. repeat split; vm_compute; reflexivity. Qed.

(** * Further properties of the code *)

(** ** The flags in the main loop *)

Lemma loop_body_wink (i : loop_input) (s : EyeTracker) :
  let v := fst (process_frame (in_shape i) (in_results i) s) in
  let l := v_left_ear v in
  let r := v_right_ear v in
  wink (snd (loop_body i s)) =
  wink (snd (detect_eye_state l r (snd (detect_eye_state l r s)))).
Proof.
  intros v l r.
  pose proof (process_frame_fields (in_shape i) (in_results i) s) as Hp.
  subst v l r. destruct (in_results i) as [d|] eqn:Hd.
  - destruct Hp as (_ & _ & Pl & Pr). rewrite Pl, Pr.
    apply loop_body_classifies_twice. exact Hd.
  - destruct Hp as (_ & Pl & Pr). rewrite Pl, Pr.
    apply loop_body_no_face. exact Hd.
Qed.

(** After a pass of the main loop the three flags are a function of that
    frame's aspect ratios alone: both closed, left only, right only.  The
    state before the frame has no part in them, and at most one is set. *)
Theorem loop_flags_memoryless (i : loop_input) (s : EyeTracker) :
  let v := fst (process_frame (in_shape i) (in_results i) s) in
  let w := wink (snd (loop_body i s)) in
  (both_eyes_closed w, left_winking w, right_winking w) =
  flags_of (v_left_ear v) (v_right_ear v) /\
  (both_eyes_closed w && left_winking w = false) /\
  (both_eyes_closed w && right_winking w = false) /\
  (left_winking w && right_winking w = false).
Proof.
  intros v w. subst w. rewrite loop_body_wink. fold v.
  set (l := v_left_ear v). set (r := v_right_ear v). unfold flags_of.
  destruct (Qlt_le_dec l wink_threshold) as [Hl|Hl];
    destruct (Qlt_le_dec r wink_threshold) as [Hr|Hr].
  - rewrite (detect_both_closed l r _ Hl Hr).
    apply Qltb_lt in Hl, Hr. rewrite Hl, Hr. simpl. auto.
  - rewrite (detect_left_only l r _ Hl Hr).
    rewrite (left_only_counts l r s Hl Hr).
    apply Qltb_lt in Hl. apply Qltb_ge in Hr. rewrite Hl, Hr. simpl. auto.
  - rewrite (detect_right_only l r _ Hl Hr).
    rewrite (right_only_counts l r s Hl Hr).
    apply Qltb_ge in Hl. apply Qltb_lt in Hr. rewrite Hl, Hr. simpl. auto.
  - rewrite (detect_both_open l r _ Hl Hr).
    apply Qltb_ge in Hl, Hr. rewrite Hl, Hr. simpl. auto.
Qed.

(** ** The iris lookup *)

Lemma iris_points_length (ids : list nat) (lms : list landmark) (shape : frame_shape) :
  List.length (iris_points_of ids lms shape) =
  List.length (filter (fun i => (i <? List.length lms)%nat) ids).
Proof.
  induction ids as [|i ids IH]; [reflexivity|].
  simpl. destruct (Nat.ltb_spec i (List.length lms)) as [Hlt|Hge].
  - destruct (nth_error lms i) eqn:E.
    + simpl. rewrite IH. reflexivity.
    + apply nth_error_None in E. lia.
  - apply nth_error_None in Hge. rewrite Hge. exact IH.
Qed.

Lemma iris_count (a b c d e n : nat) :
  (a < b)%nat -> (b < c)%nat -> (c < d)%nat -> (d < e)%nat ->
  ((3 <=? List.length (filter (fun i => (i <? n)%nat) [a; b; c; d; e]))%nat = true
   <-> (c < n)%nat).
Proof.
  intros Hab Hbc Hcd Hde. cbn [filter].
  destruct (Nat.ltb_spec a n), (Nat.ltb_spec b n), (Nat.ltb_spec c n),
    (Nat.ltb_spec d n), (Nat.ltb_spec e n); simpl; split; intro; try lia;
    try reflexivity; try discriminate.
Qed.

Lemma left_iris_none_iff (lms : list landmark) (shape : frame_shape) :
  get_iris_center lms true shape = None <-> (List.length lms < 471)%nat.
Proof.
  unfold get_iris_center.
  pose proof (iris_count 468 469 470 471 472 (List.length lms)) as H.
  change [468; 469; 470; 471; 472]%nat with LEFT_IRIS in H.
  rewrite <- (iris_points_length LEFT_IRIS lms shape) in H.
  destruct (3 <=? List.length (iris_points_of LEFT_IRIS lms shape))%nat.
  - split; [discriminate|]. intro Hn.
    assert (470 < List.length lms)%nat by (apply H; try lia; reflexivity). lia.
  - split; [|reflexivity]. intros _.
    destruct (Nat.lt_ge_cases (List.length lms) 471) as [Hl|Hl]; [exact Hl|].
    assert (false = true) by (apply H; lia). discriminate.
Qed.

Lemma right_iris_none_iff (lms : list landmark) (shape : frame_shape) :
  get_iris_center lms false shape = None <-> (List.length lms < 476)%nat.
Proof.
  unfold get_iris_center.
  pose proof (iris_count 473 474 475 476 477 (List.length lms)) as H.
  change [473; 474; 475; 476; 477]%nat with RIGHT_IRIS in H.
  rewrite <- (iris_points_length RIGHT_IRIS lms shape) in H.
  destruct (3 <=? List.length (iris_points_of RIGHT_IRIS lms shape))%nat.
  - split; [discriminate|]. intro Hn.
    assert (475 < List.length lms)%nat by (apply H; try lia; reflexivity). lia.
  - split; [|reflexivity]. intros _.
    destruct (Nat.lt_ge_cases (List.length lms) 476) as [Hl|Hl]; [exact Hl|].
    assert (false = true) by (apply H; lia). discriminate.
Qed.

(** The iris centre is there exactly when at least three of the five iris
    indices are in range: for the left eye with 471 landmarks or more, for
    the right eye with 476 or more.  A face mesh without refinement (468
    landmarks) has neither. *)
Theorem iris_center_availability (lms : list landmark) (shape : frame_shape) :
  (get_iris_center lms true shape = None <-> (List.length lms < 471)%nat) /\
  (get_iris_center lms false shape = None <-> (List.length lms < 476)%nat) /\
  ((List.length lms <= 468)%nat ->
   get_iris_center lms true shape = None /\ get_iris_center lms false shape = None).
Proof.
  split; [apply left_iris_none_iff|]. split; [apply right_iris_none_iff|].
  intro H. split.
  - apply left_iris_none_iff. lia.
  - apply right_iris_none_iff. lia.
Qed.

(** With fewer than 476 landmarks the estimator works on the eye centres it
    was given, also when the left iris alone could be found. *)
Theorem gaze_falls_back_to_eye_centers (lc rc : Z * Z) (shape : frame_shape)
        (lms : list landmark) :
  (List.length lms < 476)%nat ->
  choose_centers lc rc shape (Some lms) = (lc, rc).
Proof.
  intro H. unfold choose_centers.
  apply (right_iris_none_iff lms shape) in H. rewrite H.
  destruct (get_iris_center lms true shape); reflexivity.
Qed.

(** With 476 landmarks or more both iris centres are found and the estimator
    works on them: the centres it uses are the two iris centres, the eye
    centres it was given do not matter, and the call does what a call
    without landmarks does when it is given the iris centres. *)
Theorem gaze_prefers_iris (lc rc lc' rc' : Z * Z) (shape : frame_shape)
        (lms : list landmark) :
  (476 <= List.length lms)%nat ->
  (exists li ri,
      get_iris_center lms true shape = Some li /\
      get_iris_center lms false shape = Some ri /\
      choose_centers lc rc shape (Some lms) = (li, ri) /\
      forall s,
        detect_eye_movement lc rc shape (Some lms) s =
        detect_eye_movement li ri shape None s) /\
  choose_centers lc rc shape (Some lms) = choose_centers lc' rc' shape (Some lms) /\
  forall s,
    fst (detect_eye_movement lc rc shape (Some lms) s) =
    fst (detect_eye_movement lc' rc' shape (Some lms) s).
Proof.
  intro H.
  destruct (get_iris_center lms true shape) as [li|] eqn:El.
  2: { apply (left_iris_none_iff lms shape) in El. lia. }
  destruct (get_iris_center lms false shape) as [ri|] eqn:Er.
  2: { apply (right_iris_none_iff lms shape) in Er. lia. }
  assert (E : forall a b, choose_centers a b shape (Some lms) = (li, ri)).
  { intros a b. unfold choose_centers. rewrite El, Er. reflexivity. }
  split; [|split].
  - exists li, ri. split; [reflexivity|]. split; [reflexivity|].
    split; [apply E|]. intro s. unfold detect_eye_movement. rewrite E.
    reflexivity.
  - rewrite !E. reflexivity.
  - intro s. unfold detect_eye_movement. rewrite !E. reflexivity.
Qed.

(** A mesh of 468 landmarks: the centres given are used. *)
Lemma gaze_falls_back_to_eye_centers_witness :
  (List.length (mesh 468) < 476)%nat /\
  choose_centers (200, 240)%Z (440, 240)%Z vga (Some (mesh 468))
  = ((200, 240)%Z, (440, 240)%Z).
Proof.
  assert (H : (List.length (mesh 468) < 476)%nat).
  { unfold mesh. rewrite repeat_length. lia. }
  split; [exact H|].
  exact (gaze_falls_back_to_eye_centers (200, 240)%Z (440, 240)%Z vga (mesh 468) H).
Defined.

(** A mesh of 478 landmarks in the middle of a 640x480 frame: the centres
    used are the two iris centres, both the pixel (320, 240), whatever eye
    centres are given. *)
Lemma gaze_prefers_iris_witness :
  (476 <= List.length (mesh 478))%nat /\
  get_iris_center (mesh 478) true vga = Some (320, 240)%Z /\
  get_iris_center (mesh 478) false vga = Some (320, 240)%Z /\
  choose_centers (200, 240)%Z (440, 240)%Z vga (Some (mesh 478))
  = ((320, 240)%Z, (320, 240)%Z).
Proof.
  assert (H : (476 <= List.length (mesh 478))%nat).
  { unfold mesh. rewrite repeat_length. lia. }
  assert (Hl : get_iris_center (mesh 478) true vga = Some (320, 240)%Z).
  { vm_compute. reflexivity. }
  assert (Hr : get_iris_center (mesh 478) false vga = Some (320, 240)%Z).
  { vm_compute. reflexivity. }
  split; [exact H|]. split; [exact Hl|]. split; [exact Hr|].
  destruct (proj1 (gaze_prefers_iris (200, 240)%Z (440, 240)%Z (0, 0)%Z (1, 1)%Z
                                     vga (mesh 478) H))
    as (li & ri & El & Er & Ec & _).
  rewrite Ec. rewrite Hl in El. rewrite Hr in Er.
  injection El as <-. injection Er as <-. reflexivity.
Defined.

(** ** Pixels and centres *)

(** Truncation keeps a number between two integers between them. *)
Lemma int_of_between (lo hi : Z) (x : Q) :
  inject_Z lo <= x -> x <= inject_Z hi -> (lo <= int_of x <= hi)%Z.
Proof.
  unfold Qle, int_of. simpl. intros Hlo Hhi.
  set (n := Qnum x) in *. set (d := Zpos (Qden x)) in *.
  assert (Hd : (0 < d)%Z) by (subst d; lia).
  pose proof (Z.quot_rem' n d) as E.
  pose proof (Z.rem_bound_abs n d ltac:(lia)) as B.
  rewrite (Z.abs_eq d) in B by lia.
  apply Z.abs_lt in B.
  split; nia.
Qed.

Lemma to_pixel_in_frame (shape : frame_shape) (lm : landmark) :
  lm_in_unit lm -> in_frame shape (to_pixel shape lm).
Proof.
  intros [[Hx0 Hx1] [Hy0 Hy1]]. simpl in *.
  unfold in_frame, to_pixel. simpl fst. simpl snd. split.
  - apply int_of_between.
    + apply Qmult_le_0_compat; [exact Hx0|]. unfold Qle. simpl. lia.
    + rewrite <- (Qmult_1_l (inject_Z (Zpos (cols shape)))) at 2.
      apply Qmult_le_compat_r; [exact Hx1|]. unfold Qle. simpl. lia.
  - apply int_of_between.
    + apply Qmult_le_0_compat; [exact Hy0|]. unfold Qle. simpl. lia.
    + rewrite <- (Qmult_1_l (inject_Z (Zpos (rows shape)))) at 2.
      apply Qmult_le_compat_r; [exact Hy1|]. unfold Qle. simpl. lia.
Qed.

(** The floor of a mean of integers lies between any two bounds of them. *)
Lemma sum_Z_between (lo hi : Z) (xs : list Z) :
  Forall (fun x => lo <= x <= hi)%Z xs ->
  (lo * Z.of_nat (List.length xs) <= sum_Z xs <= hi * Z.of_nat (List.length xs))%Z.
Proof.
  induction xs as [|x xs IH]; intro H.
  - simpl. lia.
  - inversion H as [|? ? Hx Hxs]; subst. specialize (IH Hxs).
    change (sum_Z (x :: xs)) with (x + sum_Z xs)%Z.
    replace (Z.of_nat (List.length (x :: xs)))
      with (1 + Z.of_nat (List.length xs))%Z by (simpl List.length; lia).
    lia.
Qed.

Lemma floor_mean_between (lo hi : Z) (xs : list Z) :
  xs <> [] ->
  Forall (fun x => lo <= x <= hi)%Z xs ->
  (lo <= sum_Z xs / Z.of_nat (List.length xs) <= hi)%Z.
Proof.
  intros Hne H. pose proof (sum_Z_between lo hi xs H) as [Hl Hh].
  assert (Hn : (0 < Z.of_nat (List.length xs))%Z).
  { destruct xs; [congruence|]. simpl List.length. lia. }
  split.
  - apply Z.div_le_lower_bound; [exact Hn|]. lia.
  - apply Z.div_le_upper_bound; [exact Hn|]. lia.
Qed.

Lemma centroid_in_frame (shape : frame_shape) (points : list (Z * Z)) :
  points <> [] ->
  Forall (in_frame shape) points ->
  in_frame shape
           ((sum_Z (map fst points) / Z.of_nat (List.length (map fst points)))%Z,
            (sum_Z (map snd points) / Z.of_nat (List.length (map snd points)))%Z).
Proof.
  intros Hne H. unfold in_frame. simpl fst. simpl snd. split.
  - apply floor_mean_between.
    + destruct points; [congruence|discriminate].
    + apply Forall_map. revert H. apply Forall_impl. intros p [Hp _]. exact Hp.
  - apply floor_mean_between.
    + destruct points; [congruence|discriminate].
    + apply Forall_map. revert H. apply Forall_impl. intros p [_ Hp]. exact Hp.
Qed.

Lemma iris_points_in_frame (ids : list nat) (lms : list landmark)
      (shape : frame_shape) :
  Forall lm_in_unit lms ->
  Forall (in_frame shape) (iris_points_of ids lms shape).
Proof.
  intro H. induction ids as [|i ids IH]; [constructor|].
  simpl. destruct (nth_error lms i) as [lm|] eqn:E; [|exact IH].
  constructor; [|exact IH]. apply to_pixel_in_frame.
  rewrite Forall_forall in H. apply H. apply nth_error_In with i. exact E.
Qed.

Lemma iris_center_inside (lms : list landmark) (is_left : bool)
      (shape : frame_shape) (c : Z * Z) :
  Forall lm_in_unit lms ->
  get_iris_center lms is_left shape = Some c ->
  in_frame shape c.
Proof.
  intros H. unfold get_iris_center.
  set (pts := iris_points_of _ lms shape).
  destruct (Nat.leb_spec 3 (List.length pts)) as [Hn|Hn]; [|discriminate].
  intro E. injection E as <-.
  apply centroid_in_frame.
  - intro E. rewrite E in Hn. simpl in Hn. lia.
  - apply iris_points_in_frame. exact H.
Qed.

(** The eye centre of landmarks of the unit square is a pixel of the frame,
    and so is an iris centre when there is one; the eye centre of no
    landmarks at all is a division by zero. *)
Theorem eye_center_in_frame (lms : list landmark) (shape : frame_shape) :
  Forall lm_in_unit lms ->
  match lms with
  | [] => get_eye_center lms shape = Err ZeroDivisionError
  | _ => exists c, get_eye_center lms shape = Ok c /\ in_frame shape c
  end /\
  (forall is_left c, get_iris_center lms is_left shape = Some c -> in_frame shape c).
Proof.
  intro H. split.
  - destruct lms as [|lm lms]; [reflexivity|].
    eexists. split; [reflexivity|].
    apply centroid_in_frame; [discriminate|].
    apply Forall_map. revert H. apply Forall_impl. apply to_pixel_in_frame.
  - intros is_left c. apply iris_center_inside. exact H.
Qed.

Lemma mesh_in_unit (n : nat) : Forall lm_in_unit (mesh n).
Proof.
  apply Forall_forall. intros lm Hin. apply repeat_spec in Hin. subst lm.
  unfold lm_in_unit, in_unit, Qle. simpl. lia.
Qed.

Lemma eye_center_in_frame_witness :
  Forall lm_in_unit (mesh 16) /\
  exists c, get_eye_center (mesh 16) vga = Ok c /\ in_frame vga c.
Proof.
  split; [apply mesh_in_unit|].
  exact (proj1 (eye_center_in_frame (mesh 16) vga (mesh_in_unit 16))).
Defined.

(** ** The gaze position *)

Lemma ratio_in_unit (z : Z) (c : positive) :
  (0 <= z <= Zpos c)%Z ->
  0 <= inject_Z z / inject_Z (Zpos c) /\ inject_Z z / inject_Z (Zpos c) <= 1.
Proof.
  intro H.
  assert (Hc : 0 < inject_Z (Zpos c)) by reflexivity.
  split.
  - apply Qle_shift_div_l; [exact Hc|]. rewrite Qmult_0_l.
    unfold Qle. simpl. lia.
  - apply Qle_shift_div_r; [exact Hc|]. rewrite Qmult_1_l.
    rewrite <- Zle_Qle. lia.
Qed.

Lemma gaze_of_in_unit (lc rc : Z * Z) (shape : frame_shape) :
  in_frame shape lc -> in_frame shape rc -> in_unit (gaze_of lc rc shape).
Proof.
  intros [Hlx Hly] [Hrx Hry]. unfold gaze_of, in_unit. simpl fst. simpl snd.
  destruct (ratio_in_unit _ _ Hlx), (ratio_in_unit _ _ Hly),
    (ratio_in_unit _ _ Hrx), (ratio_in_unit _ _ Hry).
  set (a := inject_Z (fst lc) / _) in *. set (b := inject_Z (snd lc) / _) in *.
  set (c := inject_Z (fst rc) / _) in *. set (d := inject_Z (snd rc) / _) in *.
  repeat split.
  all: try (apply Qle_shift_div_l; [reflexivity|]; lra).
  all: apply Qle_shift_div_r; [reflexivity|]; lra.
Qed.

Lemma sum_Q_between (l : list Q) :
  Forall (fun x => 0 <= x /\ x <= 1) l ->
  0 <= sum_Q l /\ sum_Q l <= inject_Z (Z.of_nat (List.length l)).
Proof.
  induction l as [|x l IH]; intro H.
  - simpl. unfold Qle. simpl. lia.
  - inversion H as [|? ? [Hx0 Hx1] Hl]; subst. destruct (IH Hl) as [I0 I1].
    change (sum_Q (x :: l)) with (x + sum_Q l).
    replace (Z.of_nat (List.length (x :: l)))
      with (1 + Z.of_nat (List.length l))%Z by (simpl List.length; lia).
    rewrite inject_Z_plus. change (inject_Z 1) with 1. split; lra.
Qed.

Lemma mean_in_unit (l : list Q) :
  l <> [] -> Forall (fun x => 0 <= x /\ x <= 1) l ->
  0 <= mean l /\ mean l <= 1.
Proof.
  intros Hne H. destruct (sum_Q_between l H) as [H0 H1]. unfold mean.
  assert (Hn : 0 < inject_Z (Z.of_nat (List.length l))).
  { destruct l; [congruence|]. change 0 with (inject_Z 0).
    rewrite <- Zlt_Qlt. simpl List.length. lia. }
  split.
  - apply Qle_shift_div_l; [exact Hn|]. rewrite Qmult_0_l. exact H0.
  - apply Qle_shift_div_r; [exact Hn|]. rewrite Qmult_1_l. exact H1.
Qed.

Lemma push_history_Forall (P : Q * Q -> Prop) (x : Q * Q) (h : list (Q * Q)) :
  P x -> Forall P h -> Forall P (push_history x h) /\ push_history x h <> [].
Proof.
  intros Hx Hh. unfold push_history.
  assert (Hall : Forall P (h ++ [x])).
  { apply Forall_app. split; [exact Hh|]. constructor; [exact Hx|constructor]. }
  destruct (Nat.ltb_spec history_size (List.length (h ++ [x]))) as [Hlt|Hge].
  - destruct (h ++ [x]) as [|y t] eqn:E; [simpl in Hlt; lia|].
    simpl. inversion Hall; subst. split; [assumption|].
    intro Et. subst t. simpl in Hlt. unfold history_size in Hlt. lia.
  - split; [exact Hall|]. destruct h; discriminate.
Qed.

(** With the centres inside the frame, the landmarks (if any) in the unit
    square and a history of points of the unit square, the position returned
    is a point of the unit square, and so are the samples kept. *)
Theorem gaze_position_in_unit_square (lc rc : Z * Z) (shape : frame_shape)
        (lms : option (list landmark)) (s : EyeTracker) :
  in_frame shape lc -> in_frame shape rc ->
  match lms with Some l => Forall lm_in_unit l | None => True end ->
  Forall in_unit (eye_movement_history s) ->
  let res := detect_eye_movement lc rc shape lms s in
  in_unit (snd (fst res)) /\
  Forall in_unit (eye_movement_history (snd res)).
Proof.
  intros Hlc Hrc Hlms Hh. unfold detect_eye_movement.
  assert (Hc : in_frame shape (fst (choose_centers lc rc shape lms)) /\
               in_frame shape (snd (choose_centers lc rc shape lms))).
  { unfold choose_centers. destruct lms as [l|]; [|auto].
    destruct (get_iris_center l true shape) as [li|] eqn:El; [|auto].
    destruct (get_iris_center l false shape) as [ri|] eqn:Er; [|auto].
    simpl. split; eapply iris_center_inside; eassumption. }
  destruct (choose_centers lc rc shape lms) as [lc' rc']. simpl in Hc.
  destruct Hc as [Hl' Hr']. cbv zeta. simpl fst. simpl snd.
  destruct (push_history_Forall in_unit (gaze_of lc' rc' shape)
                                (eye_movement_history s)
                                (gaze_of_in_unit lc' rc' shape Hl' Hr') Hh)
    as [Hall Hne].
  split; [|exact Hall].
  set (h := push_history _ _) in *. rewrite average_mean.
  unfold in_unit. simpl fst. simpl snd. split.
  - apply mean_in_unit.
    + destruct h; [congruence|discriminate].
    + apply Forall_map. revert Hall. apply Forall_impl. intros p [Hp _]. exact Hp.
  - apply mean_in_unit.
    + destruct h; [congruence|discriminate].
    + apply Forall_map. revert Hall. apply Forall_impl. intros p [_ Hp]. exact Hp.
Qed.

Lemma gaze_position_in_unit_square_witness :
  in_frame vga (192, 240)%Z /\
  in_unit (snd (fst (detect_eye_movement (192, 240)%Z (192, 240)%Z vga None
                                         (init 0)))).
Proof.
  assert (H : in_frame vga (192, 240)%Z) by (unfold in_frame; simpl; lia).
  split; [exact H|].
  exact (proj1 (gaze_position_in_unit_square
                  (192, 240)%Z (192, 240)%Z vga None (init 0) H H I
                  (Forall_nil in_unit))).
Defined.

(** With an empty history (at the start, or after the C key) the position
    returned is the sample itself: nothing is smoothed. *)
Theorem first_sample_unsmoothed (c : gaze_call) (s : EyeTracker) :
  eye_movement_history s = [] ->
  let pos := snd (fst (detect_eye_movement (g_left_center c) (g_right_center c)
                                           (g_shape c) (g_landmarks c) s)) in
  fst pos == fst (gaze_sample c) /\ snd pos == snd (gaze_sample c).
Proof.
  intro H. rewrite detect_eye_movement_eq. cbv zeta. simpl fst. simpl snd.
  rewrite H. unfold push_history. simpl app. simpl List.length.
  change (history_size <? 1)%nat with false. cbv iota.
  unfold average. simpl. split; field.
Qed.

Lemma first_sample_unsmoothed_witness :
  eye_movement_history (handle_key (mkInput vga None 1 1 1 KeyC 1 1)
                                   (snd (loop_body (face (3 # 10) (3 # 10)) (init 0))))
  = [] /\
  fst (snd (fst (detect_eye_movement
                   (192, 240)%Z (192, 240)%Z vga None
                   (handle_key (mkInput vga None 1 1 1 KeyC 1 1)
                               (snd (loop_body (face (3 # 10) (3 # 10)) (init 0)))))))
  == 3 # 10.
Proof.
  assert (H : eye_movement_history
                (handle_key (mkInput vga None 1 1 1 KeyC 1 1)
                            (snd (loop_body (face (3 # 10) (3 # 10)) (init 0))))
              = []) by reflexivity.
  split; [exact H|].
  rewrite (proj1 (first_sample_unsmoothed (looking_at 192 240) _ H)).
  vm_compute. reflexivity.
Defined.

(** ** The oscillator under any ticks *)

Lemma update_am_state_ok (now : Q) (cd : bool) (g : string) (s : EyeTracker) :
  am_ok (am s) -> am_ok (am (update_am_state now cd g s)).
Proof.
  intros (Hb & He & Hd). unfold update_am_state.
  destruct (Qltb _ _); [exact (conj Hb (conj He Hd))|].
  destruct cd; simpl.
  - set (o := Z.max 0 (Z.min 100 (am_openness (am s) + am_open_dir (am s) * 2))).
    assert (Ho : (0 <= o <= 100)%Z) by (subst o; lia).
    assert (Hev : Z.even o = true).
    { subst o. apply Z.even_spec in He. destruct He as [k Hk].
      apply Z.even_spec.
      destruct (Z.max_spec 0 (Z.min 100 (am_openness (am s) + am_open_dir (am s) * 2)))
        as [[_ ->]|[_ ->]]; [|exists 0%Z; reflexivity].
      destruct (Z.min_spec 100 (am_openness (am s) + am_open_dir (am s) * 2))
        as [[_ ->]|[_ ->]]; [exists 50%Z; reflexivity|].
      exists (k + am_open_dir (am s))%Z. lia. }
    unfold am_ok. simpl. repeat split; try lia; try exact Hev.
    destruct ((o =? 0)%Z || (o =? 100)%Z); lia.
  - unfold am_ok. simpl. repeat split; lia.
Qed.

(** Whatever the clock readings, the detection flags and the labels of a run
    of ticks from the initial state: the openness is an even number of
    [0, 100] and the direction is +1 or -1. *)
Theorem am_state_always_in_range (t0 : Q) (ticks : list (Q * bool * string)) :
  am_ok (am (am_run ticks (init t0))).
Proof.
  assert (H : forall s, am_ok (am s) -> am_ok (am (am_run ticks s))).
  { induction ticks as [|[[now cd] g] rest IH]; intros s Hs; [exact Hs|].
    simpl. apply IH. apply update_am_state_ok. exact Hs. }
  apply H. unfold am_ok. simpl. repeat split; lia.
Qed.

Lemma direction_of_words (avg : Q * Q) :
  contains "IZQUIERDA" (direction_of avg) = Qltb (fst avg) (42 # 100) /\
  contains "DERECHA" (direction_of avg) =
  negb (Qltb (fst avg) (42 # 100)) && Qgtb (fst avg) (58 # 100) /\
  String.eqb (direction_of avg) "NO_DETECTADO" = false.
Proof.
  unfold direction_of.
  destruct (Qltb (fst avg) (42 # 100)); [|destruct (Qgtb (fst avg) (58 # 100))];
    (destruct (Qltb (snd avg) (42 # 100)); [|destruct (Qgtb (snd avg) (58 # 100))]);
    repeat split; reflexivity.
Qed.

(** An accepted tick with a face and the label of a smoothed position sets
    the phase from the horizontal position alone: -0.8 below 0.42, 0.8 above
    0.58, 0 in between; the vertical part of the label has no effect. *)
Theorem am_phase_follows_gaze (now : Q) (avg : Q * Q) (s : EyeTracker) :
  AM_FRAME_INTERVAL <= now - am_last_update (am s) ->
  let a := am (update_am_state now true (direction_of avg) s) in
  (fst avg < 42 # 100 -> am_phase a = - (8 # 10)) /\
  (58 # 100 < fst avg -> am_phase a = 8 # 10) /\
  (42 # 100 <= fst avg -> fst avg <= 58 # 100 -> am_phase a = 0).
Proof.
  intro H. rewrite (tick_face now _ s H). cbv zeta. simpl am_phase.
  destruct (direction_of_words avg) as (-> & -> & _).
  repeat split.
  - intro Hx. apply Qltb_lt in Hx. rewrite Hx. reflexivity.
  - intro Hx. assert (Hn : Qltb (fst avg) (42 # 100) = false).
    { apply Qltb_ge. lra. }
    apply Qgtb_gt in Hx. rewrite Hn, Hx. reflexivity.
  - intros H1 H2. apply Qltb_ge in H1. apply Qgtb_le in H2.
    rewrite H1, H2. reflexivity.
Qed.

Lemma am_phase_follows_gaze_witness :
  AM_FRAME_INTERVAL <= 1 - am_last_update (am (init 0)) /\
  am_phase (am (update_am_state 1 true (direction_of (3 # 10, 1 # 10)) (init 0)))
  = - (8 # 10).
Proof.
  assert (H : AM_FRAME_INTERVAL <= 1 - am_last_update (am (init 0))).
  { unfold Qle. simpl. lia. }
  split; [exact H|].
  apply (proj1 (am_phase_follows_gaze 1 (3 # 10, 1 # 10) (init 0) H)).
  reflexivity.
Defined.

(** ** The AM mode in the main loop *)

Lemma process_frame_am_mode (shape : frame_shape) (f : option detection)
      (s : EyeTracker) :
  am (snd (process_frame shape f s)) = am s /\
  visualization_mode (snd (process_frame shape f s)) = visualization_mode s /\
  match f with
  | Some _ => exists avg, v_gaze_direction (fst (process_frame shape f s))
                          = direction_of avg /\
                          v_gaze_pos (fst (process_frame shape f s)) = avg
  | None => v_gaze_direction (fst (process_frame shape f s)) = "NO_DETECTADO"%string
  end.
Proof.
  destruct f as [d|]; [|simpl; auto].
  unfold process_frame.
  pose proof (detect_eye_state_frame (det_left_ear d) (det_right_ear d) s) as Hf.
  destruct (detect_eye_state (det_left_ear d) (det_right_ear d) s) as [lab s1].
  simpl in Hf.
  destruct (count_blink (det_left_ear d) _ _) as [lc lt].
  destruct (count_blink (det_right_ear d) _ _) as [rc rt].
  unfold detect_eye_movement.
  destruct (choose_centers _ _ _ _) as [c1 c2]. simpl.
  rewrite Hf. simpl. repeat split. eexists. split; reflexivity.
Qed.

Lemma capture_am (now t : Q) (l r : Q) (g : string) (p : Q * Q) (lb rb : Q)
      (s : EyeTracker) :
  am (capture_frame_for_recording now t l r g p lb rb s) = am s.
Proof.
  unfold capture_frame_for_recording.
  destruct (negb _); [reflexivity|].
  destruct (Qgtb _ _).
  - unfold stop_recording. simpl.
    destruct (is_recording (recorder s)); [|reflexivity].
    destruct (_ && _); reflexivity.
  - destruct (Qgeb _ _); [|reflexivity].
    destruct (Nat.eqb _ _); reflexivity.
Qed.

Lemma handle_key_am (i : loop_input) (s : EyeTracker) :
  am (handle_key i s) = am s.
Proof.
  unfold handle_key. destruct (in_key i); try reflexivity.
  - unfold start_recording. destruct (negb _); reflexivity.
  - unfold stop_recording. destruct (is_recording (recorder s)); [|reflexivity].
    destruct (_ && _); reflexivity.
Qed.

(** What a pass of the loop renders, and the oscillator it leaves: those of
    the renderer run on the state after frame processing and the tick. *)
Lemma loop_body_rendering (i : loop_input) (s : EyeTracker) :
  let p := process_frame (in_shape i) (in_results i) s in
  let v := fst p in
  let s2 := update_am_state (in_am_now i)
                            (negb (String.eqb (v_gaze_direction v) "NO_DETECTADO"))
                            (v_gaze_direction v) (snd p) in
  fst (loop_body i s) =
  fst (draw_virtual_eyes (v_left_ear v) (v_right_ear v) (v_gaze_direction v)
                         (v_gaze_pos v) (v_left_brow_height v)
                         (v_right_brow_height v) false s2) /\
  am (snd (loop_body i s)) = am s2.
Proof.
  intros p v s2. unfold loop_body. fold p. subst v s2.
  destruct p as [v s1]. simpl fst. simpl snd.
  set (s2 := update_am_state _ _ _ s1).
  pose proof (draw_virtual_eyes_state
                (v_left_ear v) (v_right_ear v) (v_gaze_direction v)
                (v_gaze_pos v) (v_left_brow_height v) (v_right_brow_height v)
                false s2) as [Ds _].
  destruct (draw_virtual_eyes _ _ _ _ _ _ false s2) as [rd s3].
  simpl in Ds. simpl. split; [reflexivity|].
  rewrite handle_key_am, capture_am, Ds, detect_eye_state_frame. reflexivity.
Qed.

Lemma draw_shapes_am (l r : Q) (g : string) (p : Q * Q) (lb rb : Q) (fv : bool)
      (s : EyeTracker) :
  visualization_mode s = AM ->
  shapes (fst (draw_virtual_eyes l r g p lb rb fv s)) =
  if String.eqb g "NO_DETECTADO" then NoiseLine
  else AmWave (interp l (15 # 100) (35 # 100) 0 100)
              (interp r (15 # 100) (35 # 100) 0 100)
              (am_phase (am s)).
Proof.
  intro Hm. unfold draw_virtual_eyes.
  pose proof (detect_eye_state_frame l r s) as Hf.
  destruct (detect_eye_state l r s) as [lab s1]. simpl in Hf.
  destruct (if _ : bool then _ else _) as [lh rh].
  cbn [fst shapes]. rewrite Hf. cbn [visualization_mode set_wink am].
  rewrite Hm. reflexivity.
Qed.

(** The openness an aspect ratio is mapped to: 0 up to 0.15, 100 from 0.35
    on, between them in between. *)
Lemma interp_ear_range (x : Q) :
  0 <= interp x (15 # 100) (35 # 100) 0 100 /\
  interp x (15 # 100) (35 # 100) 0 100 <= 100 /\
  (x <= 15 # 100 -> interp x (15 # 100) (35 # 100) 0 100 = 0) /\
  (35 # 100 <= x -> interp x (15 # 100) (35 # 100) 0 100 = 100).
Proof.
  unfold interp.
  destruct (Qgeb (15 # 100) x) eqn:E1.
  - apply Qgeb_ge in E1.
    repeat split; intros; try reflexivity; try lra; try (exfalso; lra).
  - apply Qgeb_lt in E1.
    destruct (Qgeb x (35 # 100)) eqn:E2.
    + apply Qgeb_ge in E2.
      repeat split; intros; try reflexivity; try lra; try (exfalso; lra).
    + apply Qgeb_lt in E2.
      assert (E : 0 + (x - (15 # 100)) * (100 - 0) / ((35 # 100) - (15 # 100))
                  == 500 * x - 75) by field.
      repeat split; intros; try (rewrite E; lra); exfalso; lra.
Qed.

(** In the AM mode a pass of the loop draws the noise line exactly on the
    frames without a face.  With a face it draws the wave, each half with an
    openness of [0, 100] taken from that eye's aspect ratio, and with the
    phase the oscillator has after this same pass. *)
Theorem am_mode_noise_iff_no_face (i : loop_input) (s : EyeTracker) :
  visualization_mode s = AM ->
  match in_results i with
  | None => shapes (fst (loop_body i s)) = NoiseLine
  | Some d =>
    exists lo ro,
      shapes (fst (loop_body i s)) =
      AmWave lo ro (am_phase (am (snd (loop_body i s)))) /\
      lo = interp (det_left_ear d) (15 # 100) (35 # 100) 0 100 /\
      ro = interp (det_right_ear d) (15 # 100) (35 # 100) 0 100 /\
      (0 <= lo /\ lo <= 100) /\ (0 <= ro /\ ro <= 100)
  end.
Proof.
  intro Hm.
  destruct (loop_body_rendering i s) as [Hr Ha]. cbv zeta in Hr, Ha.
  rewrite Hr, Ha.
  destruct (process_frame_am_mode (in_shape i) (in_results i) s)
    as (_ & Pm & Pg).
  pose proof (process_frame_fields (in_shape i) (in_results i) s) as Pf.
  rewrite draw_shapes_am.
  2: { destruct (update_am_state_fields
                   (in_am_now i)
                   (negb (String.eqb
                            (v_gaze_direction
                               (fst (process_frame (in_shape i) (in_results i) s)))
                            "NO_DETECTADO"))
                   (v_gaze_direction
                      (fst (process_frame (in_shape i) (in_results i) s)))
                   (snd (process_frame (in_shape i) (in_results i) s)))
         as (_ & _ & _ & Um & _).
       rewrite Um, Pm. exact Hm. }
  destruct (in_results i) as [d|].
  - destruct Pg as (avg & Eg & _). destruct Pf as (_ & _ & El & Er).
    rewrite Eg, El, Er.
    destruct (direction_of_words avg) as (_ & _ & ->).
    eexists. eexists. split; [reflexivity|].
    split; [reflexivity|]. split; [reflexivity|].
    destruct (interp_ear_range (det_left_ear d)) as (A & B & _).
    destruct (interp_ear_range (det_right_ear d)) as (C & D & _).
    auto.
  - rewrite Pg. reflexivity.
Qed.

Lemma am_mode_noise_iff_no_face_witness :
  visualization_mode (set_mode AM (init 0)) = AM /\
  shapes (fst (loop_body no_face (set_mode AM (init 0)))) = NoiseLine.
Proof.
  split; [reflexivity|].
  exact (am_mode_noise_iff_no_face no_face (set_mode AM (init 0)) eq_refl).
Defined.

(** ** Where the boxes are drawn *)




(** ** The diagonal cut *)

Lemma normalize_distance_range (d : Q) :
  0 <= normalize_distance d /\ normalize_distance d <= 1.
Proof.
  assert (Hx : d == 40 * ((d - 20) / 40) + 20) by field.
  destruct (normalize_distance_cases d) as [[A E]|[(A & B & E)|[A E]]];
    rewrite E; set (x := (d - 20) / 40) in *; split; lra.
Qed.

(** The eyebrow height is a number of [0, 1], so the diagonal cut made from
    it is at most 30 pixels, and on a box at least 30 pixels wide the corners
    of the polygon stay between the two sides of the box.  Without points the
    eyebrow height is a division by zero. *)
Theorem diagonal_cut_at_most_30 (brows eyes : list landmark) (shape : frame_shape)
        (x1 y1 x2 y2 : Z) (is_left : bool) :
  match get_eyebrow_height brows eyes shape with
  | Ok v =>
    (0 <= v /\ v <= 1) /\ (0 <= int_of (v * 30) <= 30)%Z /\
    ((x1 + 30 <= x2)%Z ->
     Forall (fun q => (x1 <= fst q <= x2)%Z /\ (y1 <= snd q <= y1 + 30 \/ snd q = y2)%Z)
            (cut_polygon x1 y1 x2 y2 v is_left))
  | Err e => e = ZeroDivisionError /\ (brows = [] \/ eyes = [])
  end.
Proof.
  destruct brows as [|b brows]; [simpl; auto|].
  destruct eyes as [|e eyes]; [simpl; auto|].
  rewrite get_eyebrow_height_ok by discriminate.
  set (v := normalize_distance _).
  destruct (normalize_distance_range (eyebrow_distance (b :: brows) (e :: eyes) shape))
    as [H0 H1]. fold v in H0, H1.
  assert (Hc : (0 <= int_of (v * 30) <= 30)%Z).
  { apply int_of_between; unfold inject_Z; lra. }
  split; [split; assumption|]. split; [exact Hc|].
  intro Hw. unfold cut_polygon.
  destruct is_left; repeat constructor; simpl; lia.
Qed.


(** ** The files of a recording *)

Lemma files_agree_app (a b : list output) :
  files_agree a -> files_agree b -> files_agree (a ++ b).
Proof.
  induction a as [|o a IH]; intros Ha Hb; [exact Hb|].
  destruct o; simpl in *; try (apply IH; assumption).
  destruct Ha as [Hd Ha]. split; [|apply IH; assumption].
  destruct a as [|o' a]; [contradiction|].
  destruct o'; try contradiction. exact Hd.
Qed.

Lemma recorder_ok_emit_notice (o : output) (s : EyeTracker) :
  (forall d, o <> SavedJson d) ->
  recorder_ok s -> recorder_ok (emit o s).
Proof.
  intros Ho [Hf Hl]. split; [|exact Hl].
  simpl. apply files_agree_app; [exact Hf|].
  destruct o; simpl; auto. exfalso. apply (Ho d). reflexivity.
Qed.

Lemma recorder_ok_stop (t : Q) (s : EyeTracker) :
  recorder_ok s -> recorder_ok (stop_recording t s).
Proof.
  intros [Hf Hl]. unfold stop_recording.
  destruct (is_recording (recorder s)) eqn:Hrec.
  - specialize (Hl eq_refl).
    destruct (_ && _).
    + split; [|simpl; discriminate]. simpl. rewrite <- app_assoc.
      apply files_agree_app; [exact Hf|]. simpl. rewrite Hl. auto.
    + split; [|simpl; discriminate]. simpl.
      apply files_agree_app; [exact Hf|]. simpl. auto.
  - apply recorder_ok_emit_notice; [discriminate|].
    split; [exact Hf|]. rewrite Hrec. discriminate.
Qed.

Lemma recorder_ok_start (t1 t2 : Q) (s : EyeTracker) :
  recorder_ok s -> recorder_ok (start_recording t1 t2 s).
Proof.
  intros [Hf Hl]. unfold start_recording.
  destruct (negb _).
  - split; [exact Hf|]. reflexivity.
  - apply recorder_ok_emit_notice; [discriminate|]. split; assumption.
Qed.

Lemma recorder_ok_capture (now t : Q) (l r : Q) (g : string) (p : Q * Q)
      (lb rb : Q) (s : EyeTracker) :
  recorder_ok s -> recorder_ok (capture_frame_for_recording now t l r g p lb rb s).
Proof.
  intro H. unfold capture_frame_for_recording.
  destruct (negb _) eqn:Hn; [exact H|].
  destruct (Qgtb _ _).
  - apply recorder_ok_stop. apply recorder_ok_emit_notice; [discriminate|exact H].
  - destruct (Qgeb _ _); [|exact H].
    assert (H1 : recorder_ok
                   (set_recorder
                      (mkRecorder true
                         (animation_frames (recorder s)
                          ++ [mkFrameData
                                (now - recording_start_time (recorder s))
                                (visualization_mode s)
                                (py_round l 3) (py_round r 3)
                                (py_round (fst p) 3, py_round (snd p) 3)
                                (py_round lb 2) (py_round rb 2) g
                                match visualization_mode s with
                                | AM => Some (py_round (am_phase (am s)) 2)
                                | _ => None
                                end])
                         (video_frames (recorder s)
                          ++ [now - recording_start_time (recorder s)])
                         (recording_start_time (recorder s)) now) s)).
    { destruct H as [Hf Hl]. split; [exact Hf|]. intros _. simpl.
      rewrite !length_app. simpl. rewrite Hl; [reflexivity|].
      apply negb_false_iff in Hn. exact Hn. }
    destruct (Nat.eqb _ _); [|exact H1].
    apply recorder_ok_emit_notice; [discriminate|exact H1].
Qed.

Lemma recorder_ok_same (s s' : EyeTracker) :
  recorder s' = recorder s -> outputs s' = outputs s ->
  recorder_ok s -> recorder_ok s'.
Proof. unfold recorder_ok. intros -> ->. auto. Qed.

Lemma recorder_ok_loop_body (i : loop_input) (s : EyeTracker) :
  recorder_ok s -> recorder_ok (snd (loop_body i s)).
Proof.
  intro H. unfold loop_body.
  assert (H1 : recorder_ok (snd (process_frame (in_shape i) (in_results i) s))).
  { apply (recorder_ok_same s); [| |exact H].
    - unfold process_frame. destruct (in_results i) as [d|]; [|reflexivity].
      pose proof (detect_eye_state_frame (det_left_ear d) (det_right_ear d) s) as Hf.
      destruct (detect_eye_state _ _ s) as [lab s1]. simpl in Hf.
      destruct (count_blink (det_left_ear d) _ _).
      destruct (count_blink (det_right_ear d) _ _).
      unfold detect_eye_movement. destruct (choose_centers _ _ _ _).
      simpl. rewrite Hf. reflexivity.
    - unfold process_frame. destruct (in_results i) as [d|]; [|reflexivity].
      pose proof (detect_eye_state_frame (det_left_ear d) (det_right_ear d) s) as Hf.
      destruct (detect_eye_state _ _ s) as [lab s1]. simpl in Hf.
      destruct (count_blink (det_left_ear d) _ _).
      destruct (count_blink (det_right_ear d) _ _).
      unfold detect_eye_movement. destruct (choose_centers _ _ _ _).
      simpl. rewrite Hf. reflexivity. }
  destruct (process_frame (in_shape i) (in_results i) s) as [v s1]. simpl in H1.
  set (s2 := update_am_state _ _ _ s1).
  assert (H2 : recorder_ok s2).
  { apply (recorder_ok_same s1); [| |exact H1]; subst s2;
      unfold update_am_state; destruct (Qltb _ _); try reflexivity;
        destruct (negb (negb _)); reflexivity. }
  pose proof (draw_virtual_eyes_state
                (v_left_ear v) (v_right_ear v) (v_gaze_direction v)
                (v_gaze_pos v) (v_left_brow_height v) (v_right_brow_height v)
                false s2) as [Ds _].
  destruct (draw_virtual_eyes _ _ _ _ _ _ false s2) as [rd s3]. simpl in Ds.
  assert (H3 : recorder_ok s3).
  { apply (recorder_ok_same s2); [| |exact H2];
      rewrite Ds, detect_eye_state_frame; reflexivity. }
  simpl snd.
  set (s4 := capture_frame_for_recording _ _ _ _ _ _ _ _ s3).
  assert (H4 : recorder_ok s4) by (apply recorder_ok_capture; exact H3).
  unfold handle_key. destruct (in_key i); try exact H4.
  - apply recorder_ok_start. exact H4.
  - apply recorder_ok_stop. exact H4.
Qed.

(** Over any run of the main loop from the initial state, whatever the
    frames, the clock and the keys: each JSON file written is followed at
    once by its video, the frame count the JSON file states is the number of
    its frame records and the number of frames of the video, and while a
    session is active the log and the video buffer have the same length. *)
Theorem recorded_files_agree (t0 : Q) (inputs : list loop_input) :
  recorder_ok (snd (loop_run inputs (init t0))).
Proof.
  assert (H : forall s, recorder_ok s -> recorder_ok (snd (loop_run inputs s))).
  { induction inputs as [|i rest IH]; intros s Hs; [exact Hs|].
    simpl. specialize (IH (snd (loop_body i s)) (recorder_ok_loop_body i s Hs)).
    destruct (loop_body i s) as [rd s1]. simpl in IH.
    destruct (loop_run rest s1) as [rds s2]. exact IH. }
  apply H. split; [exact I|]. discriminate.
Qed.

(** ** The size of a log *)

Lemma climbing_snoc (ts : list Q) :
  forall n t,
    climbing n ts ->
    inject_Z (Z.of_nat (n + List.length ts)) * frame_interval <= t ->
    climbing n (ts ++ [t]).
Proof.
  induction ts as [|a ts IH]; intros n t Hc Ht.
  - simpl in *. rewrite Nat.add_0_r in Ht. auto.
  - destruct Hc as [Ha Hc]. simpl. split; [exact Ha|].
    apply IH; [exact Hc|].
    replace (S n + List.length ts)%nat with (n + List.length (a :: ts))%nat
      by (simpl; lia).
    exact Ht.
Qed.

Lemma climbing_length (ts : list Q) :
  forall n,
    climbing n ts -> Forall (fun t => t <= max_recording_time) ts ->
    ts <> [] -> (n + List.length ts <= 1801)%nat.
Proof.
  induction ts as [|a ts IH]; intros n Hc Hall Hne; [congruence|].
  destruct Hc as [Ha Hc]. inversion Hall as [|? ? Ha' Hall']; subst.
  destruct ts as [|b ts].
  - simpl.
    assert (H : inject_Z (Z.of_nat n) <= inject_Z 1800).
    { unfold frame_interval, max_recording_time in *.
      set (x := inject_Z (Z.of_nat n)) in *.
      change (inject_Z 1800) with 1800.
      assert (E : x == 30 * (x * (1 / 30))) by field.
      set (y := x * (1 / 30)) in *. lra. }
    rewrite <- Zle_Qle in H. lia.
  - specialize (IH (S n) Hc Hall' ltac:(discriminate)).
    simpl in *. lia.
Qed.

Lemma climbing_at_least (ts : list Q) :
  forall n, (1 <= n)%nat -> climbing n ts ->
            Forall (fun t => frame_interval <= t) ts.
Proof.
  induction ts as [|a ts IH]; intros n Hn Hc; [constructor|].
  destruct Hc as [Ha Hc]. constructor.
  - assert (H : inject_Z 1 <= inject_Z (Z.of_nat n)) by (rewrite <- Zle_Qle; lia).
    unfold frame_interval in *. set (x := inject_Z (Z.of_nat n)) in *.
    change (inject_Z 1) with 1 in H.
    assert (E : x == 30 * (x * (1 / 30))) by field.
    assert (E1 : (1 / 30 : Q) == 1 # 30) by reflexivity.
    rewrite E1 in *. set (y := x * (1 # 30)) in *. lra.
  - apply (IH (S n)); [lia|exact Hc].
Qed.

Lemma log_climbs_capture (c : capture_call) (s : EyeTracker) :
  log_climbs s -> log_climbs (capture c s).
Proof.
  intros (Hc & Hall & Hlast).
  destruct (is_recording (recorder s)) eqn:Hrec.
  - destruct (capture_cases c s Hrec)
      as [[_ E]|[(_ & _ & E)|(Hin & Hgap & frame & Ht & E & _)]].
    + rewrite E.
      destruct (stop_recording_active (c_stop c) (emit TimeLimitReached s) Hrec)
        as (_ & _ & Ef & Es & El).
      unfold log_climbs, timestamps. rewrite Ef, Es, El.
      repeat split; assumption.
    + rewrite E. repeat split; assumption.
    + unfold log_climbs, timestamps in *. rewrite E. simpl.
      rewrite map_app. simpl map. rewrite Ht.
      set (ts := map fd_timestamp (animation_frames (recorder s))) in *.
      set (n := inject_Z (Z.of_nat (List.length ts))) in *.
      assert (En : inject_Z (Z.of_nat (List.length (ts ++ [c_now c - recording_start_time (recorder s)])))
                   == n + 1).
      { rewrite length_app. simpl List.length. rewrite Nat2Z.inj_add.
        rewrite inject_Z_plus. reflexivity. }
      unfold within_limit in Hin.
      assert (Hnew : (n + 1) * frame_interval
                     <= c_now c - recording_start_time (recorder s)).
      { unfold frame_interval in *.
        set (u := n * (1 / 30)) in *.
        assert (Eu : (n + 1) * (1 / 30) == u + (1 / 30)) by (subst u; ring).
        rewrite Eu. lra. }
      repeat split.
      * apply climbing_snoc; [exact Hc|].
        replace (Z.of_nat (1 + List.length ts)) with (Z.of_nat (List.length ts) + 1)%Z
          by lia.
        rewrite inject_Z_plus. exact Hnew.
      * apply Forall_app. split; [exact Hall|]. constructor; [exact Hin|constructor].
      * rewrite En. exact Hnew.
  - rewrite capture_idle by assumption. repeat split; assumption.
Qed.

(** A session whose second clock reading at the start is not before the
    first: however many calls follow and however they are timed, the log
    never has more than 1800 entries, and every timestamp in it is between
    1/30 s and 60 s. *)
Theorem log_never_exceeds_1800 (s : EyeTracker) (t_start t_last : Q)
        (calls : list capture_call) :
  is_recording (recorder s) = false ->
  t_start <= t_last ->
  let s' := capture_run calls (start_recording t_start t_last s) in
  (List.length (animation_frames (recorder s')) <= 1800)%nat /\
  Forall (fun t => frame_interval <= t /\ t <= max_recording_time) (timestamps s').
Proof.
  intros Hidle Hclock s'.
  assert (H : forall st, log_climbs st -> log_climbs (capture_run calls st)).
  { induction calls as [|c rest IH]; intros st Hst; [exact Hst|].
    apply IH. apply log_climbs_capture. exact Hst. }
  destruct (H (start_recording t_start t_last s)) as (Hc & Hall & _).
  { unfold start_recording. rewrite Hidle. unfold log_climbs, timestamps. simpl.
    repeat split; try constructor.
    change (inject_Z 0) with 0. rewrite Qmult_0_l. lra. }
  fold s' in Hc, Hall. split.
  - replace (List.length (animation_frames (recorder s')))
      with (List.length (timestamps s')) by (unfold timestamps; apply length_map).
    destruct (timestamps s') as [|t ts] eqn:E; [simpl; lia|].
    pose proof (climbing_length (t :: ts) 1 Hc Hall ltac:(discriminate)). lia.
  - pose proof (climbing_at_least _ 1 ltac:(lia) Hc) as Hlow.
    rewrite Forall_forall in *. intros t Ht. split; auto.
Qed.

Lemma log_never_exceeds_1800_witness :
  is_recording (recorder (init 0)) = false /\ (0 : Q) <= 0 /\
  (List.length (animation_frames
                  (recorder (capture_run [capture_at (1 # 10); capture_at (2 # 10)]
                                         (start_recording 0 0 (init 0)))))
   <= 1800)%nat.
Proof.
  assert (H : (0 : Q) <= 0) by (unfold Qle; simpl; lia).
  split; [reflexivity|]. split; [exact H|].
  exact (proj1 (log_never_exceeds_1800
                  (init 0) 0 0 [capture_at (1 # 10); capture_at (2 # 10)]
                  eq_refl H)).
Defined.

(** ** Edge cases of the eye aspect ratio *)

(** The aspect ratio raises [IndexError] exactly on contours of fewer than
    six points; points after the sixth are not read. *)
Theorem aspect_ratio_needs_six_points (lms : list landmark) (shape : frame_shape) :
  (calculate_eye_aspect_ratio lms shape = Err IndexError
   <-> (List.length lms < 6)%nat) /\
  (forall p0 p1 p2 p3 p4 p5 rest,
      calculate_eye_aspect_ratio (p0 :: p1 :: p2 :: p3 :: p4 :: p5 :: rest) shape =
      calculate_eye_aspect_ratio [p0; p1; p2; p3; p4; p5] shape).
Proof.
  split; [|reflexivity].
  destruct lms as [|a [|b [|c [|d [|e [|f rest]]]]]];
    try (split; [intros _; simpl; lia | intros _; reflexivity]).
  split.
  - unfold calculate_eye_aspect_ratio. cbn [map nth_error]. unfold rdiv.
    destruct (Req_dec_T _ _); discriminate.
  - simpl. lia.
Qed.

Section ClosedEye.

Local Open Scope R_scope.

(** With the two corners on different pixels, the aspect ratio is 0 exactly
    when both pairs of lid points fall on the same pixel. *)
Theorem aspect_ratio_zero_iff_lids_meet (p0 p1 p2 p3 p4 p5 : landmark)
        (shape : frame_shape) :
  to_pixel shape p0 <> to_pixel shape p3 ->
  (calculate_eye_aspect_ratio [p0; p1; p2; p3; p4; p5] shape = Ok 0
   <-> to_pixel shape p1 = to_pixel shape p5 /\
       to_pixel shape p2 = to_pixel shape p4).
Proof.
  intro Hne. rewrite (aspect_ratio_ok p0 p1 p2 p3 p4 p5 shape Hne).
  pose proof (euclidean_nonneg (to_pixel shape p1) (to_pixel shape p5)) as HA.
  pose proof (euclidean_nonneg (to_pixel shape p2) (to_pixel shape p4)) as HB.
  pose proof (euclidean_nonneg (to_pixel shape p0) (to_pixel shape p3)) as HC.
  assert (HC' : euclidean (to_pixel shape p0) (to_pixel shape p3) <> 0).
  { intro E. apply Hne. apply euclidean_zero. exact E. }
  split.
  - intro H. injection H as H. unfold Rdiv in H.
    apply Rmult_integral in H. destruct H as [H|H].
    + split; apply euclidean_zero; Lra.lra.
    + exfalso. revert H. apply Rinv_neq_0_compat. Lra.lra.
  - intros [E1 E2]. rewrite E1, E2, !euclidean_same. f_equal. field. exact HC'.
Qed.

End ClosedEye.

Lemma aspect_ratio_zero_iff_lids_meet_witness :
  to_pixel vga (at_pixel 300 240) <> to_pixel vga (at_pixel 330 240) /\
  calculate_eye_aspect_ratio
    [at_pixel 300 240; at_pixel 310 240; at_pixel 320 240;
     at_pixel 330 240; at_pixel 320 240; at_pixel 310 240] vga = Ok 0%R.
Proof.
  assert (H : to_pixel vga (at_pixel 300 240) <> to_pixel vga (at_pixel 330 240)).
  { vm_compute. discriminate. }
  split; [exact H|].
  apply (proj2 (aspect_ratio_zero_iff_lids_meet
                  (at_pixel 300 240) (at_pixel 310 240) (at_pixel 320 240)
                  (at_pixel 330 240) (at_pixel 320 240) (at_pixel 310 240) vga H)).
  split; reflexivity.
Defined.

(** ** Closures shown and blinks counted *)

Lemma blink_run_closed_open (ears : list Q) (e : Q) :
  forall c t,
    Forall (fun x => x < blink_threshold) ears ->
    blink_threshold <= e ->
    blink_run (ears ++ [e]) c t =
    (0%nat, if (2 <=? c + List.length ears)%nat then S t else t).
Proof.
  induction ears as [|x ears IH]; intros c t Hall He.
  - simpl. unfold count_blink. apply Qltb_ge in He. rewrite He.
    rewrite Nat.add_0_r. reflexivity.
  - inversion Hall as [|? ? Hx Hrest]; subst.
    simpl. unfold count_blink at 1. apply Qltb_lt in Hx. rewrite Hx.
    rewrite (IH (S c) t Hrest He).
    replace (S c + List.length ears)%nat with (c + S (List.length ears))%nat by lia.
    reflexivity.
Qed.

Lemma detected_ears_app (side : detection -> Q) (a b : list (option detection)) :
  detected_ears side (a ++ b) = detected_ears side a ++ detected_ears side b.
Proof. unfold detected_ears. apply flat_map_app. Qed.

Lemma left_shut_ears (closed : list loop_input) :
  Forall left_shut closed ->
  Forall (fun x => x < blink_threshold)
         (detected_ears det_left_ear (map in_results closed)) /\
  List.length (detected_ears det_left_ear (map in_results closed)) =
  List.length closed.
Proof.
  induction closed as [|i closed IH]; intro H; [split; [constructor|reflexivity]|].
  inversion H as [|? ? [_ (d & Ed & Hd)] Hrest]; subst.
  destruct (IH Hrest) as [Ha Hl]. simpl. rewrite Ed. simpl. split.
  - constructor; [|exact Ha].
    unfold blink_threshold, wink_threshold in *. lra.
  - rewrite Hl. reflexivity.
Qed.

(** A left eye kept below 0.18 for at least two frames is shown closed on
    each of them (as a left wink, or with the right eye as both closed), and
    when it is back at 0.20 or more the closure is counted as one blink of
    the left eye. *)
Theorem closure_shown_is_counted (closed : list loop_input) (last : loop_input)
        (s : EyeTracker) :
  left_blink_counter (blink s) = 0%nat ->
  (2 <= List.length closed)%nat ->
  Forall left_shut closed ->
  left_reopened last ->
  left_blink_total (blink (snd (loop_run (closed ++ [last]) s))) =
  S (left_blink_total (blink s)) /\
  (forall i st, In i closed ->
                eye_state (fst (loop_body i st)) = GUINANDO_IZQUIERDO \/
                eye_state (fst (loop_body i st)) = AMBOS_CERRADOS).
Proof.
  intros Hc Hlen Hshut [Hk (d & Ed & Hd)]. split.
  - destruct (loop_run_blink_run (closed ++ [last]) s) as [El _].
    { apply Forall_app. split.
      - revert Hshut. apply Forall_impl. intros i [Hi _]. exact Hi.
      - constructor; [exact Hk|constructor]. }
    cbv zeta in El. apply (f_equal snd) in El. simpl in El. rewrite El.
    rewrite map_app, detected_ears_app. simpl map.
    unfold detected_ears at 2. simpl flat_map. rewrite Ed. simpl app.
    destruct (left_shut_ears closed Hshut) as [Ha Hl].
    rewrite (blink_run_closed_open _ _ _ _ Ha Hd). rewrite Hc, Hl.
    rewrite Nat.add_0_l. cbn [snd].
    apply Nat.leb_le in Hlen. rewrite Hlen. reflexivity.
  - intros i st Hin. rewrite Forall_forall in Hshut.
    destruct (Hshut i Hin) as [_ (di & Edi & Hdi)].
    destruct (loop_body_classifies_twice i st di Edi) as [_ He].
    cbv zeta in He. rewrite He.
    destruct (Qlt_le_dec (det_right_ear di) wink_threshold) as [Hr|Hr].
    + right. rewrite (detect_both_closed _ _ _ Hdi Hr). reflexivity.
    + left. rewrite (detect_left_only _ _ _ Hdi Hr).
      rewrite (left_only_counts _ _ st Hdi Hr). reflexivity.
Qed.

Lemma closure_shown_is_counted_witness :
  left_blink_counter (blink (init 0)) = 0%nat /\
  (2 <= List.length [face (1 # 10) (3 # 10); face (1 # 10) (3 # 10)])%nat /\
  Forall left_shut [face (1 # 10) (3 # 10); face (1 # 10) (3 # 10)] /\
  left_reopened (face (3 # 10) (3 # 10)) /\
  left_blink_total
    (blink (snd (loop_run ([face (1 # 10) (3 # 10); face (1 # 10) (3 # 10)]
                             ++ [face (3 # 10) (3 # 10)]) (init 0)))) = 1%nat.
Proof.
  assert (H1 : left_blink_counter (blink (init 0)) = 0%nat) by reflexivity.
  assert (H2 : (2 <= List.length [face (1 # 10) (3 # 10);
                                  face (1 # 10) (3 # 10)])%nat) by (simpl; lia).
  assert (H3 : Forall left_shut [face (1 # 10) (3 # 10); face (1 # 10) (3 # 10)]).
  { repeat constructor; try discriminate;
      (eexists; split; [reflexivity|]; reflexivity). }
  assert (H4 : left_reopened (face (3 # 10) (3 # 10))).
  { split; [discriminate|]. eexists. split; [reflexivity|].
    unfold Qle. simpl. lia. }
  split; [exact H1|]. split; [exact H2|]. split; [exact H3|]. split; [exact H4|].
  exact (proj1 (closure_shown_is_counted _ _ _ H1 H2 H3 H4)).
Defined.

(** ** The AM wave *)

Lemma Rtrunc_between (n : Z) (x : R) :
  (0 <= n)%Z -> (- IZR n <= x <= IZR n)%R -> (- n <= Rtrunc x <= n)%Z.
Proof.
  intros Hn [Hlo Hhi]. unfold Rtrunc.
  destruct (Rle_dec 0 x) as [Hx|Hx].
  - destruct (base_Int_part x) as [B1 B2].
    assert (H1 : (Int_part x <= n)%Z) by (apply le_IZR; Lra.lra).
    assert (H2 : (-1 < Int_part x)%Z) by (apply lt_IZR; simpl; Lra.lra).
    lia.
  - destruct (base_Int_part (- x)) as [B1 B2].
    assert (H1 : (Int_part (- x) <= n)%Z) by (apply le_IZR; Lra.lra).
    assert (H2 : (-1 < Int_part (- x))%Z) by (apply lt_IZR; simpl; Lra.lra).
    lia.
Qed.

Lemma extra_amp_range (openness : Q) :
  (0 <= Q2R (interp openness 0 100 0 50) <= 50)%R.
Proof.
  assert (H : 0 <= interp openness 0 100 0 50 /\ interp openness 0 100 0 50 <= 50).
  { unfold interp.
    destruct (Qgeb 0 openness) eqn:E1; [split; lra|].
    apply Qgeb_lt in E1.
    destruct (Qgeb openness 100) eqn:E2; [split; lra|].
    apply Qgeb_lt in E2.
    assert (E : 0 + (openness - 0) * (50 - 0) / (100 - 0) == openness * (1 # 2))
      by field.
    rewrite E. split; lra. }
  destruct H as [H0 H1]. apply Qle_Rle in H0, H1.
  replace (Q2R 0) with 0%R in H0 by (unfold Q2R; simpl; Lra.lra).
  replace (Q2R 50) with 50%R in H1 by (unfold Q2R; simpl; Lra.lra).
  split; assumption.
Qed.

Lemma am_wave_point_range (cx cy : Z) (lo ro ph : Q) (w i : Z) :
  fst (am_wave_point cx cy lo ro ph w i) = (cx - w / 2 + i)%Z /\
  (cy - 54 <= snd (am_wave_point cx cy lo ro ph w i) <= cy + 54)%Z.
Proof.
  unfold am_wave_point. cbn [fst snd]. split; [reflexivity|].
  set (extra := if (i <? w / 2)%Z then _ else _).
  assert (He : (0 <= extra <= 50)%R).
  { subst extra. destruct (i <? w / 2)%Z; apply extra_amp_range. }
  set (c := cos _). set (sn := sin _).
  pose proof (COS_bound (4 * PI * (IZR i / IZR (w - 1)) + PI)) as Hc. fold c in Hc.
  assert (Hs : (-1 <= sn <= 1)%R) by (subst sn; apply SIN_bound).
  set (env := (4 + extra * (1 / 2 * (1 + c)))%R).
  assert (Henv : (0 <= env <= 54)%R).
  { subst env. split; Lra.nra. }
  assert (Hp : (- IZR 54 <= env * sn <= IZR 54)%R).
  { split; Lra.nra. }
  pose proof (Rtrunc_between 54 (env * sn) ltac:(lia) Hp). lia.
Qed.

(** The polyline of the AM wave: one point per column from
    [center_x - width // 2] on, each at most 54 rows from the centre row
    (base amplitude 4 plus at most 50).  A width of 1 is a division by zero,
    a width of 0 or less draws no point. *)
Theorem am_wave_within_54_rows (cx cy : Z) (lo ro ph : Q) (w : Z) :
  match draw_am_wave cx cy lo ro ph w with
  | Err e => e = ZeroDivisionError /\ w = 1%Z
  | Ok pts =>
    w <> 1%Z /\
    List.length pts = Z.to_nat w /\
    map fst pts = map (fun i => (cx - w / 2 + Z.of_nat i)%Z) (seq 0 (Z.to_nat w)) /\
    Forall (fun q => (cy - 54 <= snd q <= cy + 54)%Z) pts
  end.
Proof.
  unfold draw_am_wave. destruct (Z.eqb_spec w 1) as [E|N]; [auto|].
  split; [exact N|]. split; [rewrite length_map, length_seq; reflexivity|].
  split.
  - rewrite map_map. apply map_ext. intro i.
    apply (proj1 (am_wave_point_range cx cy lo ro ph w (Z.of_nat i))).
  - apply Forall_map. apply Forall_forall. intros i _.
    apply (proj2 (am_wave_point_range cx cy lo ro ph w (Z.of_nat i))).
Qed.

(** The wave as the renderer calls it (centre (230, 200), width 420): 420
    points, all within columns 20 to 439, left of the separator at 460, and
    rows 146 to 254. *)
Theorem am_wave_inside_eye_area (lo ro ph : Q) :
  exists pts,
    wave_points (AmWave lo ro ph) = Ok pts /\
    List.length pts = 420%nat /\
    Forall (fun q => (20 <= fst q <= 439)%Z /\ (146 <= snd q <= 254)%Z) pts.
Proof.
  unfold wave_points, draw_am_wave. simpl (420 =? 1)%Z. cbv iota.
  eexists. split; [reflexivity|].
  split; [rewrite length_map, length_seq; reflexivity|].
  apply Forall_map. apply Forall_forall. intros i Hi. apply in_seq in Hi.
  destruct (am_wave_point_range 230 200 lo ro ph 420 (Z.of_nat i)) as [Hx Hy].
  rewrite Hx. change (420 / 2)%Z with 210%Z.
  change (Z.to_nat 420) with 420%nat in Hi. split; lia.
Qed.

(** ** The frame rate written to the JSON file *)

Lemma log_climbs_session (s : EyeTracker) (t_start t_last : Q)
      (calls : list capture_call) :
  is_recording (recorder s) = false ->
  t_start <= t_last ->
  log_climbs (capture_run calls (start_recording t_start t_last s)).
Proof.
  intros Hidle Hclock.
  assert (H : forall st, log_climbs st -> log_climbs (capture_run calls st)).
  { induction calls as [|c rest IH]; intros st Hst; [exact Hst|].
    apply IH. apply log_climbs_capture. exact Hst. }
  apply H. unfold start_recording. rewrite Hidle.
  unfold log_climbs, timestamps. simpl.
  repeat split; try constructor.
  change (inject_Z 0) with 0. rewrite Qmult_0_l. lra.
Qed.

(** When the clock does not run backwards at the start and up to the stop,
    the frame rate a session writes to its JSON file is never above 30. *)
Theorem recorded_fps_at_most_30 (s : EyeTracker) (t_start t_last t_stop : Q)
        (calls : list capture_call) (d : animation_data) :
  is_recording (recorder s) = false ->
  t_start <= t_last ->
  let s1 := capture_run calls (start_recording t_start t_last s) in
  last_frame_time (recorder s1) <= t_stop ->
  In (SavedJson d) (outputs (stop_recording t_stop s1)) ->
  ~ In (SavedJson d) (outputs s1) ->
  ad_fps d <= 30.
Proof.
  intros Hidle Hclock s1 Hstop Hin Hnew.
  destruct (log_climbs_session s t_start t_last calls Hidle Hclock)
    as (_ & _ & Hlast).
  fold s1 in Hlast.
  destruct (fps_guard t_stop s1 d Hin Hnew) as (_ & _ & Hpos & Hdef).
  cbv zeta in Hpos, Hdef.
  set (total := t_stop - recording_start_time (recorder s1)) in *.
  destruct (Qlt_le_dec 0 total) as [Ht|Ht].
  - rewrite (Hpos Ht). apply Qle_shift_div_r; [exact Ht|].
    unfold timestamps in Hlast. rewrite length_map in Hlast.
    set (n := inject_Z (Z.of_nat (List.length (animation_frames (recorder s1))))) in *.
    unfold frame_interval in Hlast.
    assert (E : n == 30 * (n * (1 / 30))) by field.
    set (y := n * (1 / 30)) in *. subst total. lra.
  - rewrite (Hdef Ht). lra.
Qed.

Lemma recorded_fps_at_most_30_witness :
  exists d,
    In (SavedJson d)
       (outputs (stop_recording 1 (capture_run [capture_at (1 # 10); capture_at (2 # 10)]
                                               (start_recording 0 0 (init 0))))) /\
    ad_fps d <= 30.
Proof.
  eexists. split.
  - simpl. left. reflexivity.
  - apply (recorded_fps_at_most_30
             (init 0) 0 0 1 [capture_at (1 # 10); capture_at (2 # 10)]).
    + reflexivity.
    + unfold Qle. simpl. lia.
    + unfold Qle. simpl. lia.
    + simpl. left. reflexivity.
    + simpl. tauto.
Defined.

(** ** A frame without a face *)

(** A pass of the loop on a frame without a face: the renderer classifies
    the default aspect ratios, so both wink counters and all three flags are
    cleared and both heights are the unhalved 85.  In the two box modes the
    boxes are drawn at the base positions of the parameter view, centred on
    (150, 200) and (300, 200): 80 columns wide and 84 rows from the upper to
    the lower edge (the half of 85, in whole pixels, to either side), with
    the cut of the default eyebrow height, 15 pixels.  In the AM mode the
    noise line is drawn in their place.  The blink counters stay as they
    were, so a closed run goes on across the frame. *)
Theorem no_face_frame (i : loop_input) (s : EyeTracker) :
  in_results i = None ->
  let rd := fst (loop_body i s) in
  let s' := snd (loop_body i s) in
  wink s' = mkWink 0 0 false false false /\
  eye_state rd = AMBOS_ABIERTOS /\
  left_height rd = 85%Z /\ right_height rd = 85%Z /\
  (visualization_mode s <> AM ->
   exists a b,
     boxes_of (shapes rd) = Some (a, b) /\
     edges a = (110, 158, 190, 242)%Z /\ edges b = (260, 158, 340, 242)%Z /\
     box_width a = 80%Z /\ box_width b = 80%Z /\
     box_rows a = 84%Z /\ box_rows b = 84%Z /\
     polygon a = [(110, 242); (190, 242); (175, 158); (110, 173)]%Z /\
     polygon b = [(260, 242); (340, 242); (340, 173); (275, 158)]%Z) /\
  (visualization_mode s = AM -> shapes rd = NoiseLine) /\
  left_blink_counter (blink s') = left_blink_counter (blink s) /\
  right_blink_counter (blink s') = right_blink_counter (blink s) /\
  (in_key i <> KeyR -> blink s' = blink s).
Proof.
  intros Hn rd s'.
  assert (Ho : wink_threshold <= 3 # 10) by (unfold Qle; simpl; lia).
  destruct (loop_body_no_face i s Hn) as [Hw He]. cbv zeta in Hw.
  rewrite !detect_both_open in Hw by exact Ho.
  destruct (loop_body_fields i s) as (_ & _ & Hb & Hl & Hr).
  pose proof (process_frame_fields (in_shape i) (in_results i) s) as Hp.
  destruct (loop_body_rendering i s) as [Hrd _]. cbv zeta in Hrd.
  rewrite Hn in Hp, Hb, Hl, Hr, Hrd. destruct Hp as (Ps & Pl & Pr).
  rewrite Ps in Hb, Hl, Hr.
  change (process_frame (in_shape i) None s)
    with (mkValues (3 # 10) (3 # 10) "NO_DETECTADO" (1 # 2, 1 # 2) (1 # 2) (1 # 2), s)
    in Hrd.
  cbn [fst snd v_left_ear v_right_ear v_gaze_direction v_gaze_pos
           v_left_brow_height v_right_brow_height] in Hrd.
  set (st := update_am_state _ _ _ s) in Hrd.
  assert (Hmode : visualization_mode st = visualization_mode s).
  { subst st. apply update_am_state_fields. }
  split; [exact Hw|]. split; [exact He|].
  assert (Hh : left_height rd = 85%Z /\ right_height rd = 85%Z).
  { subst rd. rewrite Hrd.
    destruct (draw_virtual_eyes_heights
                (3 # 10) (3 # 10) "NO_DETECTADO" (1 # 2, 1 # 2) (1 # 2) (1 # 2)
                false st) as (_ & _ & _ & Hh & _).
    rewrite (detect_both_open _ _ st Ho Ho) in Hh.
    cbn [fst snd wink set_wink both_eyes_closed left_winking right_winking
             eye_label_eqb orb] in Hh.
    change (spec_height_px (3 # 10)) with 85%Z in Hh.
    apply (f_equal fst) in Hh as H1. apply (f_equal snd) in Hh as H2.
    split; [exact H1|exact H2]. }
  destruct Hh as [H1 H2].
  split; [exact H1|]. split; [exact H2|].
  split; [|split; [|split; [exact Hl|split; [exact Hr|exact Hb]]]].
  - intro Hm. rewrite <- Hmode in Hm.
    pose proof (draw_boxes_eq (3 # 10) (3 # 10) "NO_DETECTADO" (1 # 2, 1 # 2)
                              (1 # 2) (1 # 2) false st Hm) as Hbx.
    cbv zeta in Hbx. rewrite <- Hrd in Hbx. fold rd in Hbx.
    rewrite H1, H2 in Hbx.
    eexists. eexists. split; [exact Hbx|].
    repeat split.
  - intro Hm. rewrite <- Hmode in Hm. subst rd. rewrite Hrd.
    rewrite (draw_shapes_am _ _ _ _ _ _ _ st Hm). reflexivity.
Qed.

(** After a frame with the left eye closed, in the rectangle mode. *)
Lemma no_face_frame_witness :
  in_results no_face = None /\
  visualization_mode (snd (loop_body (face (1 # 10) (3 # 10)) (init 0))) <> AM /\
  wink (snd (loop_body no_face (snd (loop_body (face (1 # 10) (3 # 10)) (init 0)))))
  = mkWink 0 0 false false false /\
  exists a b,
    boxes_of (shapes (fst (loop_body no_face
                                     (snd (loop_body (face (1 # 10) (3 # 10))
                                                     (init 0))))))
    = Some (a, b) /\
    edges a = (110, 158, 190, 242)%Z /\ edges b = (260, 158, 340, 242)%Z.
Proof.
  assert (Hm : visualization_mode
                 (snd (loop_body (face (1 # 10) (3 # 10)) (init 0))) <> AM).
  { vm_compute. discriminate. }
  split; [reflexivity|]. split; [exact Hm|].
  destruct (no_face_frame no_face
                          (snd (loop_body (face (1 # 10) (3 # 10)) (init 0)))
                          eq_refl) as (Hw & _ & _ & _ & Hb & _).
  split; [exact Hw|].
  destruct (Hb Hm) as (a & b & Ebx & Ea & Eb & _).
  exists a, b. split; [exact Ebx|]. split; [exact Ea|exact Eb].
Defined.
